(** * Pooling and rescaling layers of [lasagne/layers/pool.py]

    A shallow embedding of the shape arithmetic, the layer constructors
    and the value computations of the pooling module, followed by the
    properties its specification states about them.

    Layout: Python values and exceptions; the tensor engine the module
    calls into; the module itself, function by function; then lemmas and
    the theorems. *)

From Stdlib Require Import ZArith Arith List Bool Lia String Ascii DecimalString.
From Stdlib Require Import QArith Qround.
From Stdlib Require SpecFloat.
Import ListNotations.

Local Open Scope Z_scope.

(** ** Python values and exceptions *)

(** The exceptions raised by the module and by the operators and engine
    calls it evaluates. *)
Inductive exn : Type :=
| ValueError (msg : string)
| TypeError
| AssertionError
| ZeroDivisionError
| IndexError
| NotImplementedError.

Inductive result (A : Type) : Type :=
| Ok (a : A)
| Raise (e : exn).

Arguments Ok {A} a.
Arguments Raise {A} e.

Definition bind {A B : Type} (r : result A) (k : A -> result B) : result B :=
  match r with
  | Ok a => k a
  | Raise e => Raise e
  end.

Notation "x <- r ;; k" := (bind r (fun x => k))
  (at level 61, r at next level, right associativity).

(** A Python integer that may be [None]; a shape is a tuple of them. *)
Abbreviation pyint := (option Z) (only parsing).
Abbreviation shape := (list (option Z)) (only parsing).

(** [a // b] on integers: floor division, [ZeroDivisionError] on [b = 0]. *)
Definition floordiv (a b : Z) : result Z :=
  if b =? 0 then Raise ZeroDivisionError else Ok (a / b).

(** [a % b] on integers: the sign follows the divisor.  With [None] on
    the left the operator is a [TypeError], which the callers raise. *)
Definition pymod (a b : Z) : result Z :=
  if b =? 0 then Raise ZeroDivisionError else Ok (a mod b).

(** Sequence indexing [l[i]]: negative indices count from the end. *)
Definition norm_index (len : nat) (i : Z) : result nat :=
  let n := Z.of_nat len in
  if (0 <=? i) && (i <? n) then Ok (Z.to_nat i)
  else if (- n <=? i) && (i <? 0) then Ok (Z.to_nat (i + n))
  else Raise IndexError.

Definition getitem {A : Type} (l : list A) (i : Z) : result A :=
  k <- norm_index (List.length l) i ;;
  match nth_error l k with
  | Some x => Ok x
  | None => Raise IndexError
  end.

Definition setitem {A : Type} (l : list A) (i : Z) (x : A) : result (list A) :=
  k <- norm_index (List.length l) i ;;
  Ok (firstn k l ++ x :: skipn (S k) l).

(** The slices [l[:k]] and [l[k:]]: a negative bound counts from the end
    and every bound is clipped to the sequence. *)
Definition slice_bound (len : nat) (k : Z) : nat :=
  let n := Z.of_nat len in
  Z.to_nat (Z.min n (Z.max 0 (if k <? 0 then k + n else k))).

Definition slice_to {A : Type} (l : list A) (k : Z) : list A :=
  firstn (slice_bound (List.length l) k) l.

Definition slice_from {A : Type} (l : list A) (k : Z) : list A :=
  skipn (slice_bound (List.length l) k) l.

(** [range(n)] and [range(a, b)]. *)
Definition range (a b : Z) : list Z :=
  map (fun k => a + Z.of_nat k) (seq 0 (Z.to_nat (b - a))).

(** A [for] loop threading a state through a body that may raise. *)
Fixpoint for_each {A S : Type} (l : list A) (body : S -> A -> result S)
    (s : S) : result S :=
  match l with
  | [] => Ok s
  | x :: l' => s' <- body s x ;; for_each l' body s'
  end.

(** [%d] and [repr] of an integer. *)
Definition str_int (z : Z) : string := NilZero.string_of_int (Z.to_int z).

Definition repr_pyint (d : pyint) : string :=
  match d with
  | None => "None"%string
  | Some z => str_int z
  end.

Fixpoint join (sep : string) (l : list string) : string :=
  match l with
  | [] => ""%string
  | [x] => x
  | x :: l' => (x ++ sep ++ join sep l')%string
  end.

(** [repr] of a tuple: a one-element tuple prints its trailing comma. *)
Definition repr_tuple (l : list string) : string :=
  match l with
  | [x] => ("(" ++ x ++ ",)")%string
  | _ => ("(" ++ join ", " l ++ ")")%string
  end.

Definition repr_shape (s : shape) : string := repr_tuple (map repr_pyint s).
Definition repr_ints (l : list Z) : string := repr_tuple (map str_int l).

(** The classes of the module and their declared bases; [super(C, self)]
    is a [TypeError] unless the class of [self] derives from [C]. *)
Inductive class_name : Type :=
| cls_Layer
| cls_Pool1DLayer | cls_Pool2DLayer | cls_Pool3DLayer
| cls_MaxPool1DLayer | cls_MaxPool2DLayer | cls_MaxPool3DLayer
| cls_Upscale1DLayer | cls_Upscale2DLayer | cls_Upscale3DLayer
| cls_FeaturePoolLayer | cls_FeatureWTALayer | cls_GlobalPoolLayer.

Definition class_id (c : class_name) : nat :=
  match c with
  | cls_Layer => 0
  | cls_Pool1DLayer => 1 | cls_Pool2DLayer => 2 | cls_Pool3DLayer => 3
  | cls_MaxPool1DLayer => 4 | cls_MaxPool2DLayer => 5
  | cls_MaxPool3DLayer => 6
  | cls_Upscale1DLayer => 7 | cls_Upscale2DLayer => 8
  | cls_Upscale3DLayer => 9
  | cls_FeaturePoolLayer => 10 | cls_FeatureWTALayer => 11
  | cls_GlobalPoolLayer => 12
  end%nat.

Definition class_eqb (a b : class_name) : bool :=
  (class_id a =? class_id b)%nat.

(** The base named in each [class] statement. *)
Definition base_class (c : class_name) : option class_name :=
  match c with
  | cls_Layer => None
  | cls_MaxPool1DLayer => Some cls_Pool1DLayer
  | cls_MaxPool2DLayer => Some cls_Pool2DLayer
  | cls_MaxPool3DLayer => Some cls_Pool3DLayer
  | _ => Some cls_Layer
  end.

(** The method resolution order; the hierarchy is at most three deep. *)
Definition mro (c : class_name) : list class_name :=
  match base_class c with
  | None => [c]
  | Some b =>
      match base_class b with
      | None => [c; b]
      | Some b' => [c; b; b']
      end
  end.

Definition issubclass (c d : class_name) : bool :=
  existsb (class_eqb d) (mro c).

(** What feeds a layer: an explicit shape tuple or an upstream layer,
    which provides its output shape. *)
Inductive incoming : Type :=
| FromShape (s : shape)
| FromLayer (output_shape : shape).

(** Modelled from the spec: the constructor of the graph-node base class
    [Layer] ([lasagne/layers/base.py]) is not part of the sources; the
    module consumes it only as the provider of [input_shape], taken from
    an upstream node or from an explicit shape tuple. *)
Definition Layer_init (inc : incoming) : result shape :=
  match inc with
  | FromShape s => Ok s
  | FromLayer s => Ok s
  end.

(** [super(C, self).__init__(incoming)] for a class [C] whose base is
    [Layer], evaluated on an instance of [self_class]. *)
Definition super_init (C self_class : class_name) (inc : incoming)
  : result shape :=
  if issubclass self_class C then Layer_init inc else Raise TypeError.

(** A constructor argument that is an integer or an iterable of them. *)
Inductive int_or_seq : Type :=
| Scalar (z : Z)
| Seq (l : list Z).

(** Modelled from the spec: [as_tuple] ([lasagne/utils.py]) is not part
    of the sources; a scalar broadcasts to all [n] axes, a sequence must
    have exactly [n] entries or construction fails. *)
Definition as_tuple (x : int_or_seq) (n : nat) : result (list Z) :=
  match x with
  | Scalar z => Ok (repeat z n)
  | Seq l =>
      if (List.length l =? n)%nat then Ok l
      else Raise (ValueError "Expected a single value or an iterable of matching length")
  end.

(** ** The tensor engine

    The module delegates every computation on values to an external
    tensor engine (Theano), which is not part of the repository.  Its
    primitives are modelled here on dense row-major tensors of exact
    integers, with the semantics the engine documents and shares with
    NumPy; only what the module calls is modelled, and a call outside
    that use raises.

    The entries being integers, every property below that involves
    arithmetic on entries (a product with a mask, a sum, an average) is
    a property of integer tensors.  On floating-point tensors the engine
    rounds sums and quotients and propagates infinities and NaN; the
    operations of that arithmetic are given separately, in [Float64]. *)

Record tensor : Type := mkTensor { tshape : list nat; tdata : list Z }.

Definition size_of (s : list nat) : nat := fold_right Nat.mul 1%nat s.

(** A tensor is well formed when its buffer has one entry per position. *)
Definition wf (t : tensor) : Prop :=
  List.length (tdata t) = size_of (tshape t).

(** Row-major offset of a multi-index, and its inverse. *)
Fixpoint ravel (s I : list nat) : nat :=
  match s, I with
  | _ :: s', i :: I' => (i * size_of s' + ravel s' I')%nat
  | _, _ => 0%nat
  end.

Fixpoint unravel (s : list nat) (p : nat) : list nat :=
  match s with
  | [] => []
  | _ :: s' => (p / size_of s')%nat :: unravel s' (p mod size_of s')%nat
  end.

Definition in_bounds (I s : list nat) : Prop := Forall2 Nat.lt I s.

Definition tabulate (s : list nat) (f : list nat -> Z) : tensor :=
  mkTensor s (map (fun p => f (unravel s p)) (seq 0 (size_of s))).

Definition get (t : tensor) (I : list nat) : Z :=
  nth (ravel (tshape t) I) (tdata t) 0.

Fixpoint upd {A : Type} (l : list A) (k : nat) (x : A) : list A :=
  match l, k with
  | [], _ => []
  | _ :: l', O => x :: l'
  | y :: l', S k' => y :: upd l' k' x
  end.

Fixpoint zip_with {A B C : Type} (f : A -> B -> C) (l : list A) (m : list B)
  : list C :=
  match l, m with
  | x :: l', y :: m' => f x y :: zip_with f l' m'
  | _, _ => []
  end.

Fixpoint shape_eqb (a b : list nat) : bool :=
  match a, b with
  | [], [] => true
  | x :: a', y :: b' => (x =? y)%nat && shape_eqb a' b'
  | _, _ => false
  end.

(** [x.reshape(new_shape)]: the buffer is kept and re-indexed. *)
Definition reshape (t : tensor) (new_shape : list Z) : result tensor :=
  if forallb (fun d => 0 <=? d) new_shape
     && (size_of (map Z.to_nat new_shape) =? List.length (tdata t))%nat
  then Ok (mkTensor (map Z.to_nat new_shape) (tdata t))
  else Raise (ValueError "total size of new array must be unchanged").

(** Index of the first maximal entry of a list: a later entry replaces
    the current best only when it is strictly greater. *)
Fixpoint argmax_from (best_i : nat) (best : Z) (i : nat) (l : list Z) : nat :=
  match l with
  | [] => best_i
  | x :: l' =>
      if best <? x then argmax_from i x (S i) l'
      else argmax_from best_i best (S i) l'
  end.

Definition argmax_list (l : list Z) : nat :=
  match l with
  | [] => 0%nat
  | x :: l' => argmax_from 0%nat x 1%nat l'
  end.

(** The entries met when only coordinate [axis] of [I] varies. *)
Definition lane (t : tensor) (axis : nat) (I : list nat) : list Z :=
  map (fun j => get t (upd I axis j)) (seq 0 (nth axis (tshape t) 0%nat)).

(** [argmax(x, axis, keepdims=True)]. *)
Definition argmax (t : tensor) (axis : Z) : result tensor :=
  ax <- norm_index (List.length (tshape t)) axis ;;
  Ok (tabulate (upd (tshape t) ax 1%nat)
        (fun I => Z.of_nat (argmax_list (lane t ax I)))).

Definition arange (n : Z) : tensor :=
  mkTensor [Z.to_nat n] (map Z.of_nat (seq 0 (Z.to_nat n))).

(** [x.dimshuffle(pattern)]: [None] stands for ['x'], a new
    broadcastable axis; [Some k] for axis [k] of [x]. *)
Fixpoint position (k : nat) (pattern : list (option nat)) : option nat :=
  match pattern with
  | [] => None
  | d :: p' =>
      match d with
      | Some j => if (j =? k)%nat then Some 0%nat
                  else option_map S (position k p')
      | None => option_map S (position k p')
      end
  end.

Definition dimshuffle (t : tensor) (pattern : list (option nat))
  : result tensor :=
  let r := List.length (tshape t) in
  if forallb (fun k => match position k pattern with
                       | Some _ => true
                       | None => (nth k (tshape t) 0 =? 1)%nat
                       end) (seq 0 r)
     && forallb (fun d => match d with
                          | None => true
                          | Some k => (k <? r)%nat
                          end) pattern
  then Ok (tabulate
             (map (fun d => match d with
                            | None => 1%nat
                            | Some k => nth k (tshape t) 0%nat
                            end) pattern)
             (fun I => get t (map (fun k => match position k pattern with
                                            | Some q => nth q I 0%nat
                                            | None => 0%nat
                                            end) (seq 0 r))))
  else Raise (ValueError "invalid dimshuffle pattern").

(** Elementwise binary operators with broadcasting of axes of size 1. *)
Fixpoint broadcast_shape (a b : list nat) : option (list nat) :=
  match a, b with
  | [], [] => Some []
  | x :: a', y :: b' =>
      match broadcast_shape a' b' with
      | None => None
      | Some s =>
          if (x =? y)%nat then Some (x :: s)
          else if (x =? 1)%nat then Some (y :: s)
          else if (y =? 1)%nat then Some (x :: s)
          else None
      end
  | _, _ => None
  end.

Definition bidx (s I : list nat) : list nat :=
  zip_with (fun d i => if (d =? 1)%nat then 0%nat else i) s I.

Definition elemwise (op : Z -> Z -> Z) (a b : tensor) : result tensor :=
  match broadcast_shape (tshape a) (tshape b) with
  | None => Raise (ValueError "input dimension mis-match")
  | Some s =>
      Ok (tabulate s (fun I => op (get a (bidx (tshape a) I))
                                  (get b (bidx (tshape b) I))))
  end.

Definition eq_t : tensor -> tensor -> result tensor :=
  elemwise (fun x y => if x =? y then 1 else 0).

(** [a * b] on integer entries.  On floating-point entries the product
    with a zero of the mask is zero for a finite entry only: see
    [Float64.mul]. *)
Definition mul_t : tensor -> tensor -> result tensor := elemwise Z.mul.

(** [repeat(x, k, axis)]: every entry along [axis] is replicated [k]
    times contiguously. *)
Definition repeat_t (t : tensor) (k : Z) (axis : Z) : result tensor :=
  ax <- norm_index (List.length (tshape t)) axis ;;
  if k <? 0 then Raise (ValueError "repeats may not contain negative values")
  else
    let n := Z.to_nat k in
    Ok (tabulate (upd (tshape t) ax (nth ax (tshape t) 0 * n)%nat)
          (fun I => get t (upd I ax (nth ax I 0 / n)%nat))).

(** [zeros(shape)]. *)
Fixpoint concrete_shape (s : shape) : result (list nat) :=
  match s with
  | [] => Ok []
  | None :: _ => Raise TypeError
  | Some d :: s' =>
      if d <? 0 then Raise (ValueError "negative dimensions are not allowed")
      else (r <- concrete_shape s' ;; Ok (Z.to_nat d :: r))
  end.

Definition zeros (s : shape) : result tensor :=
  dims <- concrete_shape s ;;
  Ok (mkTensor dims (repeat 0 (size_of dims))).

(** [set_subtensor(x[sl_0, sl_1, ...], y)] for slices [:] and [::step]
    with a positive step: the positions [0, step, 2*step, ...] of each
    axis of [x] receive [y], which must have the shape of the selection. *)
Inductive slice : Type :=
| SliceAll
| SliceStep (step : Z).

Definition slice_step (sl : slice) : Z :=
  match sl with
  | SliceAll => 1
  | SliceStep a => a
  end.

(** The length of [range(0, n, step)]. *)
Definition slice_length (n : nat) (step : Z) : nat :=
  Z.to_nat ((Z.of_nat n + step - 1) / step).

Fixpoint on_grid (steps I : list nat) : bool :=
  match steps, I with
  | a :: steps', i :: I' => (i mod a =? 0)%nat && on_grid steps' I'
  | _, _ => true
  end.

Definition set_subtensor (x : tensor) (slices : list slice) (y : tensor)
  : result tensor :=
  let steps := map slice_step slices in
  if negb (List.length slices =? List.length (tshape x))%nat
  then Raise IndexError
  else if existsb (fun a => a <=? 0) steps
  then Raise (ValueError "slice step must be positive")
  else if shape_eqb (zip_with slice_length (tshape x) steps) (tshape y)
  then
    let nsteps := map Z.to_nat steps in
    Ok (tabulate (tshape x)
          (fun I => if on_grid nsteps I
                    then get y (zip_with Nat.div I nsteps)
                    else get x I))
  else Raise (ValueError "shape mismatch in set_subtensor").

(** The padded sliding-window reduction [pool_2d] over the two trailing
    axes of a 4D tensor. *)
Inductive pool_mode : Type :=
| ModeMax
| ModeAverageIncPad
| ModeAverageExcPad.

Definition parse_mode (m : string) : option pool_mode :=
  if String.eqb m "max" then Some ModeMax
  else if String.eqb m "average_inc_pad" then Some ModeAverageIncPad
  else if String.eqb m "average_exc_pad" then Some ModeAverageExcPad
  else None.

(** The engine's own output length along one axis of length [r]. *)
Definition engine_out_length (r ds st pad : Z) (ignore_border : bool) : Z :=
  let r := r + 2 * pad in
  if ignore_border then
    if ds =? st then r / st else Z.max ((r - ds) / st + 1) 0
  else
    if st >=? ds then (r - 1) / st + 1
    else Z.max 0 ((r - 1 - ds + st) / st) + 1.

(** The input positions covered by window number [i] along an axis of
    length [len]: the window starts at [i*st - pad] and spans [ds]
    positions, of which those outside the input are padding. *)
Definition window (i : nat) (ds st pad : Z) (len : nat) : list nat :=
  let lo := Z.max 0 (Z.of_nat i * st - pad) in
  let hi := Z.min (Z.of_nat len) (Z.of_nat i * st - pad + ds) in
  seq (Z.to_nat lo) (Z.to_nat (hi - lo)).

(** The number of positions of window [i] inside the padded input. *)
Definition window_padded_size (i : nat) (ds st pad : Z) (len : nat) : Z :=
  Z.min (Z.of_nat i * st + ds) (Z.of_nat len + 2 * pad) - Z.of_nat i * st.

Definition list_max (l : list Z) : Z :=
  match l with
  | [] => 0
  | x :: l' => fold_left Z.max l' x
  end.

Definition list_sum (l : list Z) : Z := fold_left Z.add l 0.

(** The value of one pooling region.  On integer entries an average is
    representable only when the sum is a multiple of the count, which is
    the case in every use below; otherwise the quotient is rounded down
    here.  On floating-point entries the engine's average is a rounded
    sum divided by the count: see [Float64.mean]. *)
Definition pool_region (m : pool_mode) (vals : list Z) (padded_size : Z) : Z :=
  match m with
  | ModeMax => list_max vals
  | ModeAverageIncPad => list_sum vals / padded_size
  | ModeAverageExcPad => list_sum vals / Z.of_nat (List.length vals)
  end.

Definition pool_2d (input : tensor) (ds st : list Z) (ignore_border : bool)
    (padding : list Z) (mode : string) : result tensor :=
  match tshape input, ds, st, padding with
  | [n; c; h; w], [ds0; ds1], [st0; st1], [pad0; pad1] =>
      match parse_mode mode with
      | None => Raise (ValueError "unknown pooling mode")
      | Some m =>
          if negb ignore_border && negb ((pad0 =? 0) && (pad1 =? 0))
          then Raise NotImplementedError
          else if (st0 =? 0) || (st1 =? 0) then Raise ZeroDivisionError
          else
            let oh := Z.to_nat (engine_out_length (Z.of_nat h) ds0 st0 pad0
                                  ignore_border) in
            let ow := Z.to_nat (engine_out_length (Z.of_nat w) ds1 st1 pad1
                                  ignore_border) in
            Ok (tabulate [n; c; oh; ow]
                  (fun I =>
                     match I with
                     | [b; k; i; j] =>
                         let rows := window i ds0 st0 pad0 h in
                         let cols := window j ds1 st1 pad1 w in
                         pool_region m
                           (flat_map
                              (fun r => map (fun q => get input [b; k; r; q])
                                          cols) rows)
                           (window_padded_size i ds0 st0 pad0 h
                            * window_padded_size j ds1 st1 pad1 w)
                     | _ => 0
                     end))
      end
  | _, _, _, _ =>
      Raise (ValueError "pool_2d expects a 4D input and pairs of parameters")
  end.

(** [x.flatten(ndim)]: the first [ndim - 1] axes are kept, the remaining
    ones are collapsed into one. *)
Definition flatten (t : tensor) (ndim : nat) : result tensor :=
  if (1 <=? ndim)%nat && (ndim <=? List.length (tshape t))%nat
  then Ok (mkTensor (firstn (ndim - 1) (tshape t)
                       ++ [size_of (skipn (ndim - 1) (tshape t))])
             (tdata t))
  else Raise (ValueError "invalid output ndimensions for flatten").

(** A reduction [f(x, axis=k)] that maps the entries along one axis to
    one value and removes the axis, such as [max], [sum] or [mean]. *)
Definition reduce_axis (f : list Z -> Z) (t : tensor) (axis : Z)
  : result tensor :=
  ax <- norm_index (List.length (tshape t)) axis ;;
  Ok (tabulate (firstn ax (tshape t) ++ skipn (S ax) (tshape t))
        (fun I => f (map (fun j => get t (firstn ax I ++ j :: skipn ax I))
                       (seq 0 (nth ax (tshape t) 0%nat))))).

(** [shape_padright(x, 1)]: a trailing axis of size 1 is appended. *)
Definition shape_padright (t : tensor) : tensor :=
  mkTensor (tshape t ++ [1%nat]) (tdata t).

(** [x[:, :, :, k]] on a 4D tensor: the last axis is indexed away. *)
Definition index_last (t : tensor) (k : Z) : result tensor :=
  match tshape t with
  | [n; c; h; w] =>
      i <- norm_index w k ;;
      Ok (tabulate [n; c; h] (fun I => get t (I ++ [i])))
  | _ => Raise IndexError
  end.

(** The run-time shape of a tensor as the module sees it. *)
Definition shape_of (t : tensor) : shape :=
  map (fun d => Some (Z.of_nat d)) (tshape t).

Definition ndim (t : tensor) : Z := Z.of_nat (List.length (tshape t)).

(** [input.shape] at run time, where every size is known. *)
Definition tensor_shape (t : tensor) : list Z := map Z.of_nat (tshape t).

(** ** Floating-point entries

    On a floating-point tensor the engine's arithmetic on entries is that
    of IEEE 754.  The binary64 operations below are those of the
    Standard Library's specification of the standard; they serve where
    the integer entries above would hide rounding or the special
    values. *)
Module Float64.

Definition prec : Z := 53.
Definition emax : Z := 1024.

Definition of_Z (z : Z) : SpecFloat.spec_float :=
  SpecFloat.binary_normalize prec emax z 0 false.

Definition add : SpecFloat.spec_float -> SpecFloat.spec_float
                 -> SpecFloat.spec_float := SpecFloat.SFadd prec emax.
Definition mul : SpecFloat.spec_float -> SpecFloat.spec_float
                 -> SpecFloat.spec_float := SpecFloat.SFmul prec emax.
Definition div : SpecFloat.spec_float -> SpecFloat.spec_float
                 -> SpecFloat.spec_float := SpecFloat.SFdiv prec emax.
Definition eqb : SpecFloat.spec_float -> SpecFloat.spec_float -> bool :=
  SpecFloat.SFeqb.
Definition ltb : SpecFloat.spec_float -> SpecFloat.spec_float -> bool :=
  SpecFloat.SFltb.


Definition neg_infinity : SpecFloat.spec_float :=
  SpecFloat.S754_infinity true.
Definition nan : SpecFloat.spec_float := SpecFloat.S754_nan.

(** The sum and the average of the entries of a region, accumulated from
    the first entry on. *)
Definition sum (l : list SpecFloat.spec_float) : SpecFloat.spec_float :=
  fold_left add l (of_Z 0).


(** The maximum of a non-empty region. *)
Definition max (l : list SpecFloat.spec_float) : SpecFloat.spec_float :=
  match l with
  | [] => of_Z 0
  | x :: l' => fold_left (fun a b => if ltb a b then b else a) l' x
  end.

End Float64.

(** ** The module [lasagne.layers.pool] *)

Definition pool_output_length (input_length pool_size : pyint)
    (stride pad : Z) (ignore_border : bool) : result pyint :=
  match input_length, pool_size with
  | None, _ | _, None => Ok None
  | Some input_length, Some pool_size =>
      if ignore_border then
        let output_length := input_length + 2 * pad - pool_size + 1 in
        output_length <- floordiv (output_length + stride - 1) stride ;;
        Ok (Some output_length)
      else
        if negb (pad =? 0) then Raise AssertionError
        else if stride >=? pool_size then
          output_length <- floordiv (input_length + stride - 1) stride ;;
          Ok (Some output_length)
        else
          q <- floordiv (input_length - pool_size + stride - 1) stride ;;
          Ok (Some (Z.max 0 q + 1))
  end.

(** One spatial axis of a pooling layer's shape inference:
    [output_shape[k] = pool_output_length(input_shape[k], pool_size[i],
    stride[i], pad[i], ignore_border)]. *)
Definition pool_axis (input_shape output_shape : shape) (k : Z)
    (pool_size stride pad : list Z) (i : Z) (ignore_border : bool)
  : result shape :=
  input_length <- getitem input_shape k ;;
  ps <- getitem pool_size i ;;
  st <- getitem stride i ;;
  pd <- getitem pad i ;;
  v <- pool_output_length input_length (Some ps) st pd ignore_border ;;
  setitem output_shape k v.

Module Pool1DLayer.

Record t : Type := mk {
  input_shape : shape;
  pool_size : list Z;
  stride : list Z;
  pad : list Z;
  ignore_border : bool;
  mode : string
}.

Definition rank_error (input_shape : shape) : exn :=
  ValueError ("Tried to create a 1D pooling layer with input shape "
              ++ repr_shape input_shape
              ++ ". Expected 3 input dimensions "
              ++ "(batchsize, channels, 1 spatial dimensions).")%string.

Definition init (self_class : class_name) (inc : incoming)
    (pool_size : int_or_seq) (stride : option int_or_seq)
    (pad : int_or_seq) (ignore_border : bool) (mode : string) : result t :=
  input_shape <- super_init cls_Pool1DLayer self_class inc ;;
  if negb (List.length input_shape =? 3)%nat
  then Raise (rank_error input_shape)
  else
    pool_size <- as_tuple pool_size 1 ;;
    stride <- match stride with
              | None => Ok pool_size
              | Some stride => as_tuple stride 1
              end ;;
    pad <- as_tuple pad 1 ;;
    Ok (mk input_shape pool_size stride pad ignore_border mode).

Definition get_output_shape_for (self : t) (input_shape : shape)
  : result shape :=
  let output_shape := input_shape in
  pool_axis input_shape output_shape (-1)
    (pool_size self) (stride self) (pad self) 0 (ignore_border self).

Definition get_output_for (self : t) (input : tensor) : result tensor :=
  let input_4d := shape_padright input in
  ps <- getitem (pool_size self) 0 ;;
  st <- getitem (stride self) 0 ;;
  pd <- getitem (pad self) 0 ;;
  pooled <- pool_2d input_4d [ps; 1] [st; 1] (ignore_border self) [pd; 0]
              (mode self) ;;
  index_last pooled 0.

End Pool1DLayer.

Module Pool2DLayer.

Record t : Type := mk {
  input_shape : shape;
  pool_size : list Z;
  stride : list Z;
  pad : list Z;
  ignore_border : bool;
  mode : string
}.

Definition rank_error (input_shape : shape) : exn :=
  ValueError ("Tried to create a 2D pooling layer with input shape "
              ++ repr_shape input_shape
              ++ ". Expected 4 input dimensions "
              ++ "(batchsize, channels, 2 spatial dimensions).")%string.

Definition init (self_class : class_name) (inc : incoming)
    (pool_size : int_or_seq) (stride : option int_or_seq)
    (pad : int_or_seq) (ignore_border : bool) (mode : string) : result t :=
  input_shape <- super_init cls_Pool2DLayer self_class inc ;;
  pool_size <- as_tuple pool_size 2 ;;
  if negb (List.length input_shape =? 4)%nat
  then Raise (rank_error input_shape)
  else
    stride <- match stride with
              | None => Ok pool_size
              | Some stride => as_tuple stride 2
              end ;;
    pad <- as_tuple pad 2 ;;
    Ok (mk input_shape pool_size stride pad ignore_border mode).

Definition get_output_shape_for (self : t) (input_shape : shape)
  : result shape :=
  let output_shape := input_shape in
  output_shape <- pool_axis input_shape output_shape 2
    (pool_size self) (stride self) (pad self) 0 (ignore_border self) ;;
  pool_axis input_shape output_shape 3
    (pool_size self) (stride self) (pad self) 1 (ignore_border self).

Definition get_output_for (self : t) (input : tensor) : result tensor :=
  pool_2d input (pool_size self) (stride self) (ignore_border self)
    (pad self) (mode self).

End Pool2DLayer.

Module Pool3DLayer.

Record t : Type := mk {
  input_shape : shape;
  pool_size : list Z;
  stride : list Z;
  pad : list Z;
  ignore_border : bool;
  mode : string
}.

(** The message is the one of the 2D layer, word for word. *)
Definition rank_error (input_shape : shape) : exn :=
  ValueError ("Tried to create a 2D pooling layer with input shape "
              ++ repr_shape input_shape
              ++ ". Expected 4 input dimensions "
              ++ "(batchsize, channels, 2 spatial dimensions).")%string.

(** The constructor starts with [super(Pool2DLayer, self).__init__]. *)
Definition init (self_class : class_name) (inc : incoming)
    (pool_size : int_or_seq) (stride : option int_or_seq)
    (pad : int_or_seq) (ignore_border : bool) (mode : string) : result t :=
  input_shape <- super_init cls_Pool2DLayer self_class inc ;;
  pool_size <- as_tuple pool_size 3 ;;
  if negb (List.length input_shape =? 5)%nat
  then Raise (rank_error input_shape)
  else
    stride <- match stride with
              | None => Ok pool_size
              | Some stride => as_tuple stride 3
              end ;;
    pad <- as_tuple pad 3 ;;
    Ok (mk input_shape pool_size stride pad ignore_border mode).

Definition get_output_shape_for (self : t) (input_shape : shape)
  : result shape :=
  let output_shape := input_shape in
  output_shape <- pool_axis input_shape output_shape 2
    (pool_size self) (stride self) (pad self) 0 (ignore_border self) ;;
  output_shape <- pool_axis input_shape output_shape 3
    (pool_size self) (stride self) (pad self) 1 (ignore_border self) ;;
  pool_axis input_shape output_shape 4
    (pool_size self) (stride self) (pad self) 2 (ignore_border self).

End Pool3DLayer.

(** The max-pooling shortcuts call their base constructor through
    [super] with [mode='max']. *)
Module MaxPool1DLayer.
Definition init (self_class : class_name) (inc : incoming)
    (pool_size : int_or_seq) (stride : option int_or_seq)
    (pad : int_or_seq) (ignore_border : bool) : result Pool1DLayer.t :=
  if issubclass self_class cls_MaxPool1DLayer
  then Pool1DLayer.init self_class inc pool_size stride pad ignore_border
         "max"
  else Raise TypeError.
End MaxPool1DLayer.

Module MaxPool2DLayer.
Definition init (self_class : class_name) (inc : incoming)
    (pool_size : int_or_seq) (stride : option int_or_seq)
    (pad : int_or_seq) (ignore_border : bool) : result Pool2DLayer.t :=
  if issubclass self_class cls_MaxPool2DLayer
  then Pool2DLayer.init self_class inc pool_size stride pad ignore_border
         "max"
  else Raise TypeError.
End MaxPool2DLayer.

Module MaxPool3DLayer.
Definition init (self_class : class_name) (inc : incoming)
    (pool_size : int_or_seq) (stride : option int_or_seq)
    (pad : int_or_seq) (ignore_border : bool) : result Pool3DLayer.t :=
  if issubclass self_class cls_MaxPool3DLayer
  then Pool3DLayer.init self_class inc pool_size stride pad ignore_border
         "max"
  else Raise TypeError.
End MaxPool3DLayer.

(** The checks shared by the three upscaling constructors. *)
Definition scale_error (scale_factor : list Z) : exn :=
  ValueError ("Scale factor must be >= 1, not " ++ repr_ints scale_factor)%string.

Definition mode_error (mode : string) : exn :=
  ValueError ("Mode must be either 'repeat' or 'dilate', not " ++ mode)%string.

Definition valid_upscale_mode (mode : string) : bool :=
  String.eqb mode "repeat" || String.eqb mode "dilate".

(** [if output_shape[k] is not None: output_shape[k] *= scale_factor[i]]. *)
Definition scale_axis (output_shape : shape) (k : Z) (scale_factor : list Z)
    (i : Z) : result shape :=
  d <- getitem output_shape k ;;
  match d with
  | None => Ok output_shape
  | Some v =>
      a <- getitem scale_factor i ;;
      setitem output_shape k (Some (v * a))
  end.

Module Upscale1DLayer.

Record t : Type := mk {
  input_shape : shape;
  scale_factor : list Z;
  mode : string
}.

Definition init (self_class : class_name) (inc : incoming)
    (scale_factor : int_or_seq) (mode : string) : result t :=
  input_shape <- super_init cls_Upscale1DLayer self_class inc ;;
  scale_factor <- as_tuple scale_factor 1 ;;
  a <- getitem scale_factor 0 ;;
  if a <? 1 then Raise (scale_error scale_factor)
  else if negb (valid_upscale_mode mode) then Raise (mode_error mode)
  else Ok (mk input_shape scale_factor mode).

Definition get_output_shape_for (self : t) (input_shape : shape)
  : result shape :=
  let output_shape := input_shape in
  scale_axis output_shape 2 (scale_factor self) 0.

Definition get_output_for (self : t) (input : tensor) : result tensor :=
  match scale_factor self with
  | [a] =>
      let upscaled := input in
      if String.eqb (mode self) "repeat" then
        if a >? 1 then repeat_t upscaled a 2 else Ok upscaled
      else if String.eqb (mode self) "dilate" then
        if a >? 1 then
          output_shape <- get_output_shape_for self (shape_of input) ;;
          upscaled <- zeros output_shape ;;
          set_subtensor upscaled [SliceAll; SliceAll; SliceStep a] input
        else Ok upscaled
      else Ok upscaled
  | _ => Raise (ValueError "wrong number of values to unpack")
  end.

End Upscale1DLayer.

Module Upscale2DLayer.

Record t : Type := mk {
  input_shape : shape;
  scale_factor : list Z;
  mode : string
}.

Definition init (self_class : class_name) (inc : incoming)
    (scale_factor : int_or_seq) (mode : string) : result t :=
  input_shape <- super_init cls_Upscale2DLayer self_class inc ;;
  scale_factor <- as_tuple scale_factor 2 ;;
  a <- getitem scale_factor 0 ;;
  b <- getitem scale_factor 1 ;;
  if (a <? 1) || (b <? 1) then Raise (scale_error scale_factor)
  else if negb (valid_upscale_mode mode) then Raise (mode_error mode)
  else Ok (mk input_shape scale_factor mode).

Definition get_output_shape_for (self : t) (input_shape : shape)
  : result shape :=
  let output_shape := input_shape in
  output_shape <- scale_axis output_shape 2 (scale_factor self) 0 ;;
  scale_axis output_shape 3 (scale_factor self) 1.

Definition get_output_for (self : t) (input : tensor) : result tensor :=
  match scale_factor self with
  | [a; b] =>
      let upscaled := input in
      if String.eqb (mode self) "repeat" then
        upscaled <- (if b >? 1 then repeat_t upscaled b 3
                     else Ok upscaled) ;;
        if a >? 1 then repeat_t upscaled a 2 else Ok upscaled
      else if String.eqb (mode self) "dilate" then
        if (b >? 1) || (a >? 1) then
          output_shape <- get_output_shape_for self (shape_of input) ;;
          upscaled <- zeros output_shape ;;
          set_subtensor upscaled
            [SliceAll; SliceAll; SliceStep a; SliceStep b] input
        else Ok upscaled
      else Ok upscaled
  | _ => Raise (ValueError "wrong number of values to unpack")
  end.

End Upscale2DLayer.

Module Upscale3DLayer.

Record t : Type := mk {
  input_shape : shape;
  scale_factor : list Z;
  mode : string
}.

Definition init (self_class : class_name) (inc : incoming)
    (scale_factor : int_or_seq) (mode : string) : result t :=
  input_shape <- super_init cls_Upscale3DLayer self_class inc ;;
  scale_factor <- as_tuple scale_factor 3 ;;
  a <- getitem scale_factor 0 ;;
  b <- getitem scale_factor 1 ;;
  c <- getitem scale_factor 2 ;;
  if (a <? 1) || (b <? 1) || (c <? 1) then Raise (scale_error scale_factor)
  else if negb (valid_upscale_mode mode) then Raise (mode_error mode)
  else Ok (mk input_shape scale_factor mode).

Definition get_output_shape_for (self : t) (input_shape : shape)
  : result shape :=
  let output_shape := input_shape in
  output_shape <- scale_axis output_shape 2 (scale_factor self) 0 ;;
  output_shape <- scale_axis output_shape 3 (scale_factor self) 1 ;;
  scale_axis output_shape 4 (scale_factor self) 2.

Definition get_output_for (self : t) (input : tensor) : result tensor :=
  match scale_factor self with
  | [a; b; c] =>
      let upscaled := input in
      if String.eqb (mode self) "repeat" then
        upscaled <- (if c >? 1 then repeat_t upscaled c 4
                     else Ok upscaled) ;;
        upscaled <- (if b >? 1 then repeat_t upscaled b 3
                     else Ok upscaled) ;;
        if a >? 1 then repeat_t upscaled a 2 else Ok upscaled
      else if String.eqb (mode self) "dilate" then
        if (c >? 1) || (b >? 1) || (a >? 1) then
          output_shape <- get_output_shape_for self (shape_of input) ;;
          upscaled <- zeros output_shape ;;
          set_subtensor upscaled
            [SliceAll; SliceAll; SliceStep a; SliceStep b; SliceStep c]
            input
        else Ok upscaled
      else Ok upscaled
  | _ => Raise (ValueError "wrong number of values to unpack")
  end.

End Upscale3DLayer.

Module FeaturePoolLayer.

Record t : Type := mk {
  input_shape : shape;
  pool_size : Z;
  axis : Z;
  pool_function : tensor -> Z -> result tensor
}.

Definition multiple_error (num_feature_maps pool_size : Z) : exn :=
  ValueError ("Number of input feature maps (" ++ str_int num_feature_maps
              ++ ") is not a multiple of the pool size (pool_size="
              ++ str_int pool_size ++ ")")%string.

Definition init (self_class : class_name) (inc : incoming) (pool_size : Z)
    (axis : Z) (pool_function : tensor -> Z -> result tensor) : result t :=
  input_shape <- super_init cls_FeaturePoolLayer self_class inc ;;
  num_feature_maps <- getitem input_shape axis ;;
  match num_feature_maps with
  | None => Raise TypeError
  | Some n =>
      r <- pymod n pool_size ;;
      if negb (r =? 0) then Raise (multiple_error n pool_size)
      else Ok (mk input_shape pool_size axis pool_function)
  end.

Definition get_output_shape_for (self : t) (input_shape : shape)
  : result shape :=
  let output_shape := input_shape in
  d <- getitem input_shape (axis self) ;;
  match d with
  | None => Raise TypeError
  | Some n =>
      q <- floordiv n (pool_size self) ;;
      setitem output_shape (axis self) (Some q)
  end.

Definition get_output_for (self : t) (input : tensor) : result tensor :=
  let input_shape := tensor_shape input in
  num_feature_maps <- getitem input_shape (axis self) ;;
  num_feature_maps_out <- floordiv num_feature_maps (pool_size self) ;;
  let pool_shape :=
    slice_to input_shape (axis self)
    ++ [num_feature_maps_out; pool_size self]
    ++ slice_from input_shape (axis self + 1) in
  input_reshaped <- reshape input pool_shape ;;
  pool_function self input_reshaped (axis self + 1).

End FeaturePoolLayer.

Module FeatureWTALayer.

Record t : Type := mk {
  input_shape : shape;
  pool_size : Z;
  axis : Z
}.

Definition multiple_error (num_feature_maps pool_size : Z) : exn :=
  ValueError ("Number of input feature maps (" ++ str_int num_feature_maps
              ++ ") is not a multiple of the region size (pool_size="
              ++ str_int pool_size ++ ")")%string.

Definition init (self_class : class_name) (inc : incoming) (pool_size : Z)
    (axis : Z) : result t :=
  input_shape <- super_init cls_FeatureWTALayer self_class inc ;;
  num_feature_maps <- getitem input_shape axis ;;
  match num_feature_maps with
  | None => Raise TypeError
  | Some n =>
      r <- pymod n pool_size ;;
      if negb (r =? 0) then Raise (multiple_error n pool_size)
      else Ok (mk input_shape pool_size axis)
  end.

(** The body shared by the two loops that copy the input's sizes. *)
Definition copy_axis (input : tensor)
    (st : list Z * list (option nat)) (k : Z)
  : result (list Z * list (option nat)) :=
  let '(pool_shape, arange_shuffle_pattern) := st in
  d <- getitem (tensor_shape input) k ;;
  Ok (pool_shape ++ [d], arange_shuffle_pattern ++ [None]).

Definition get_output_for (self : t) (input : tensor) : result tensor :=
  num_feature_maps <- getitem (tensor_shape input) (axis self) ;;
  num_pools <- floordiv num_feature_maps (pool_size self) ;;
  st <- for_each (range 0 (axis self)) (copy_axis input) ([], []) ;;
  let '(pool_shape, arange_shuffle_pattern) := st in
  let pool_shape := pool_shape ++ [num_pools; pool_size self] in
  let arange_shuffle_pattern :=
    arange_shuffle_pattern ++ [None; Some 0%nat] in
  st <- for_each (range (axis self + 1) (ndim input)) (copy_axis input)
          (pool_shape, arange_shuffle_pattern) ;;
  let '(pool_shape, arange_shuffle_pattern) := st in
  input_reshaped <- reshape input pool_shape ;;
  max_indices <- argmax input_reshaped (axis self + 1) ;;
  arange <- dimshuffle (arange (pool_size self)) arange_shuffle_pattern ;;
  e <- eq_t max_indices arange ;;
  mask <- reshape e (tensor_shape input) ;;
  mul_t input mask.

End FeatureWTALayer.

Module GlobalPoolLayer.

Record t : Type := mk {
  input_shape : shape;
  pool_function : tensor -> Z -> result tensor
}.

Definition init (self_class : class_name) (inc : incoming)
    (pool_function : tensor -> Z -> result tensor) : result t :=
  input_shape <- super_init cls_GlobalPoolLayer self_class inc ;;
  Ok (mk input_shape pool_function).

(** [input_shape[:2]]. *)
Definition get_output_shape_for (self : t) (input_shape : shape) : shape :=
  firstn 2 input_shape.

Definition get_output_for (self : t) (input : tensor) : result tensor :=
  flat <- flatten input 3 ;;
  pool_function self flat 2.

End GlobalPoolLayer.

(** ** Vocabulary of the specification *)

(** The ceiling of the exact quotient [a / s], for a positive [s]. *)
Definition ceil_quot (a s : Z) : Z := Qceiling (a # Z.to_pos s).

(** [out] is [x] dilated by [steps]: its sizes are those of [x] times
    the steps, the position [(i_0*s_0, i_1*s_1, ...)] holds
    [x[i_0, i_1, ...]], and every other position holds zero. *)
Definition dilated (steps : list nat) (x out : tensor) : Prop :=
  tshape out = zip_with Nat.mul (tshape x) steps
  /\ (forall I, in_bounds I (tshape x) ->
        get out (zip_with Nat.mul I steps) = get x I)
  /\ (forall J, in_bounds J (tshape out) ->
        (forall I, in_bounds I (tshape x) -> J <> zip_with Nat.mul I steps) ->
        get out J = 0).

(** [m] is the index of the first maximal entry of [l]. *)
Definition first_max (l : list Z) (m : nat) : Prop :=
  (m < List.length l)%nat
  /\ (forall k, (k < List.length l)%nat -> nth k l 0 <= nth m l 0)
  /\ (forall k, (k < m)%nat -> nth k l 0 < nth m l 0).

Definition count_nonzero (l : list Z) : nat :=
  List.length (filter (fun v => negb (v =? 0)) l).

(** * Properties *)

(** ** Row-major indexing *)

Section Indexing.

Local Open Scope nat_scope.

Lemma ravel_lt (I s : list nat) :
  in_bounds I s -> ravel s I < size_of s.
Proof.
  induction 1 as [| i d I s Hi _ IH]; cbn [ravel size_of fold_right].
  - lia.
  - fold (size_of s). nia.
Qed.

Lemma unravel_ravel (I s : list nat) :
  in_bounds I s -> unravel s (ravel s I) = I.
Proof.
  induction 1 as [| i d I s Hi Hb IH]; cbn [ravel unravel]; [reflexivity |].
  pose proof (ravel_lt _ _ Hb) as Hr.
  rewrite <- (Nat.div_unique (i * size_of s + ravel s I) (size_of s) i
                (ravel s I)) by lia.
  rewrite <- (Nat.mod_unique (i * size_of s + ravel s I) (size_of s) i
                (ravel s I)) by lia.
  now rewrite IH.
Qed.

Lemma unravel_in_bounds (s : list nat) (p : nat) :
  p < size_of s -> in_bounds (unravel s p) s.
Proof.
  revert p. induction s as [| d s IH]; intros p Hp; cbn [unravel].
  - constructor.
  - cbn [size_of fold_right] in Hp. fold (size_of s) in Hp.
    assert (size_of s <> 0) by nia.
    constructor.
    + apply Nat.Div0.div_lt_upper_bound. lia.
    + apply IH. now apply Nat.mod_upper_bound.
Qed.

Lemma ravel_unravel (s : list nat) (p : nat) :
  p < size_of s -> ravel s (unravel s p) = p.
Proof.
  revert p. induction s as [| d s IH]; intros p Hp;
    cbn [unravel ravel size_of fold_right] in *.
  - lia.
  - fold (size_of s) in *.
    assert (size_of s <> 0) by nia.
    rewrite IH by now apply Nat.mod_upper_bound.
    pose proof (Nat.div_mod_eq p (size_of s)). lia.
Qed.

Lemma nth_tabulated (f : nat -> Z) (n p : nat) :
  p < n -> nth p (map f (seq 0 n)) 0%Z = f p.
Proof.
  intros Hp.
  rewrite (nth_indep _ 0%Z (f 0)) by now rewrite length_map, length_seq.
  now rewrite map_nth, seq_nth.
Qed.

Lemma get_tabulate (s : list nat) (f : list nat -> Z) (I : list nat) :
  in_bounds I s -> get (tabulate s f) I = f I.
Proof.
  intros Hb. unfold get, tabulate. cbn [tshape tdata].
  rewrite nth_tabulated by now apply ravel_lt.
  now rewrite unravel_ravel.
Qed.

Lemma wf_tabulate (s : list nat) (f : list nat -> Z) : wf (tabulate s f).
Proof.
  unfold wf, tabulate. cbn [tshape tdata].
  now rewrite length_map, length_seq.
Qed.

(** Two well-formed tensors of one shape that agree at every position
    are the same tensor. *)
Lemma tensor_ext (a b : tensor) :
  wf a -> wf b -> tshape a = tshape b ->
  (forall I, in_bounds I (tshape a) -> get a I = get b I) ->
  a = b.
Proof.
  destruct a as [sa da], b as [sb db]. unfold wf, get. cbn [tshape tdata].
  intros Ha Hb <- Hget. f_equal.
  apply (nth_ext _ _ 0%Z 0%Z); [congruence |].
  intros p Hp. rewrite Ha in Hp.
  specialize (Hget _ (unravel_in_bounds _ _ Hp)).
  now rewrite ravel_unravel in Hget.
Qed.

Lemma tabulate_get (t : tensor) :
  wf t -> tabulate (tshape t) (get t) = t.
Proof.
  intros Ht. apply tensor_ext; auto using wf_tabulate.
  intros I HI. now apply get_tabulate.
Qed.

End Indexing.

(** ** The shape arithmetic of [pool_output_length] *)

Lemma floordiv_pos (a s : Z) : 1 <= s -> floordiv a s = Ok (a / s).
Proof.
  intros Hs. unfold floordiv.
  destruct (Z.eqb_spec s 0); [lia | reflexivity].
Qed.

Lemma ceil_quot_floordiv (a s : Z) :
  1 <= s -> (a + s - 1) / s = ceil_quot a s.
Proof.
  intros Hs. unfold ceil_quot, Qceiling, Qfloor. cbn [Qopp Qnum Qden].
  rewrite Z2Pos.id by lia.
  pose proof (Z.div_mod (a + s - 1) s ltac:(lia)) as E1.
  pose proof (Z.mod_pos_bound (a + s - 1) s ltac:(lia)) as B1.
  pose proof (Z.div_mod (- a) s ltac:(lia)) as E2.
  pose proof (Z.mod_pos_bound (- a) s ltac:(lia)) as B2.
  nia.
Qed.

(** The ceiling is the least integer whose multiple of [s] reaches [a]. *)
Lemma ceil_quot_spec (a s : Z) :
  1 <= s -> (ceil_quot a s - 1) * s < a <= ceil_quot a s * s.
Proof.
  intros Hs. rewrite <- ceil_quot_floordiv by assumption.
  pose proof (Z.div_mod (a + s - 1) s ltac:(lia)) as E1.
  pose proof (Z.mod_pos_bound (a + s - 1) s ltac:(lia)) as B1.
  nia.
Qed.

(** C1: for known [input_length], [pool_size >= 1], [stride >= 1] and
    [pad >= 0], [pool_output_length] returns
    [ceil ((input_length + 2*pad - pool_size + 1) / stride)] when
    [ignore_border] is true; when it is false and [pad = 0] it returns
    [ceil (input_length / stride)] if [stride >= pool_size] and
    [max 0 (ceil ((input_length - pool_size) / stride)) + 1] otherwise.
    In particular [pool_output_length 10 3 2 0 True = 4] and
    [pool_output_length 10 3 2 0 False = 5]. *)
Theorem pool_output_length_formula (input_length pool_size stride pad : Z) :
  1 <= pool_size -> 1 <= stride -> 0 <= pad ->
  pool_output_length (Some input_length) (Some pool_size) stride pad true
  = Ok (Some (ceil_quot (input_length + 2 * pad - pool_size + 1) stride))
  /\ (pad = 0 ->
      pool_output_length (Some input_length) (Some pool_size) stride pad false
      = Ok (Some (if stride >=? pool_size
                  then ceil_quot input_length stride
                  else Z.max 0 (ceil_quot (input_length - pool_size) stride)
                       + 1)))
  /\ pool_output_length (Some 10) (Some 3) 2 0 true = Ok (Some 4)
  /\ pool_output_length (Some 10) (Some 3) 2 0 false = Ok (Some 5).
Proof.
  intros Hps Hst Hpad. split; [| split; [| split; reflexivity]].
  - unfold pool_output_length. rewrite floordiv_pos by assumption.
    cbn [bind]. now rewrite ceil_quot_floordiv.
  - intros ->. unfold pool_output_length. cbn [Z.eqb negb].
    destruct (stride >=? pool_size); rewrite floordiv_pos by assumption;
      cbn [bind]; now rewrite ceil_quot_floordiv.
Qed.

Lemma pool_output_length_formula_witness :
  pool_output_length (Some 7) (Some 4) 3 0 true
  = Ok (Some (ceil_quot (7 + 2 * 0 - 4 + 1) 3))
  /\ pool_output_length (Some 7) (Some 4) 3 0 false
     = Ok (Some (if 3 >=? 4 then ceil_quot 7 3
                 else Z.max 0 (ceil_quot (7 - 4) 3) + 1)).
Proof.
  destruct (pool_output_length_formula 7 4 3 0) as [H1 [H2 _]];
    [lia | lia | lia |].
  split; [exact H1 | apply H2; reflexivity].
Defined.

(** C8: for fixed [pool_size >= 1], [stride >= 1], [pad >= 0] and
    [ignore_border = True], [pool_output_length] is monotonically
    non-decreasing in [input_length]. *)
Theorem pool_output_length_monotone (a b pool_size stride pad : Z) :
  1 <= pool_size -> 1 <= stride -> 0 <= pad -> a <= b ->
  exists la lb,
    pool_output_length (Some a) (Some pool_size) stride pad true
    = Ok (Some la)
    /\ pool_output_length (Some b) (Some pool_size) stride pad true
       = Ok (Some lb)
    /\ la <= lb.
Proof.
  intros Hps Hst Hpad Hab. unfold pool_output_length.
  rewrite !floordiv_pos by assumption. cbn [bind].
  eexists; eexists; split; [reflexivity | split; [reflexivity |]].
  apply Z.div_le_mono; lia.
Qed.

Lemma pool_output_length_monotone_witness :
  exists la lb,
    pool_output_length (Some 5) (Some 3) 2 1 true = Ok (Some la)
    /\ pool_output_length (Some 9) (Some 3) 2 1 true = Ok (Some lb)
    /\ la <= lb.
Proof.
  apply (pool_output_length_monotone 5 9 3 2 1); lia.
Defined.

(** C10: with [ignore_border = True] the result is not clamped at zero:
    for [input_length = 1], [pool_size = 3], [stride = 1], [pad = 0],
    where [pool_size > input_length + 2*pad], the function returns the
    negative length [-1], neither [0] nor an error. *)
Theorem pool_output_length_negative :
  pool_output_length (Some 1) (Some 3) 1 0 true = Ok (Some (-1))
  /\ exists input_length pool_size stride pad l,
      pool_size > input_length + 2 * pad
      /\ pool_output_length (Some input_length) (Some pool_size) stride pad
           true = Ok (Some l)
      /\ l < 0.
Proof.
  split; [reflexivity |].
  exists 1, 3, 1, 0, (-1). repeat split; reflexivity.
Qed.

(** ** Construction of the layers *)

Lemma pool_output_length_asserts (il ps st pad : Z) :
  pad <> 0 ->
  pool_output_length (Some il) (Some ps) st pad false = Raise AssertionError.
Proof.
  intros Hpad. unfold pool_output_length.
  destruct (Z.eqb_spec pad 0); [contradiction | reflexivity].
Qed.

Lemma length_3 {A : Type} (s : list A) :
  List.length s = 3%nat -> exists a b c, s = [a; b; c].
Proof.
  destruct s as [| a [| b [| c [| d s]]]]; try discriminate.
  intros _. now exists a, b, c.
Qed.

Lemma length_4 {A : Type} (s : list A) :
  List.length s = 4%nat -> exists a b c d, s = [a; b; c; d].
Proof.
  destruct s as [| a [| b [| c [| d [| e s]]]]]; try discriminate.
  intros _. now exists a, b, c, d.
Qed.

(** The 1D constructor checks the rank before anything else. *)
Lemma Pool1DLayer_init_rank (s : shape) (pool_size pad : Z)
    (ignore_border : bool) (mode : string) :
  Pool1DLayer.init cls_Pool1DLayer (FromShape s) (Scalar pool_size) None
    (Scalar pad) ignore_border mode
  = if (List.length s =? 3)%nat
    then Ok (Pool1DLayer.mk s [pool_size] [pool_size] [pad] ignore_border
               mode)
    else Raise (Pool1DLayer.rank_error s).
Proof.
  unfold Pool1DLayer.init. cbn [super_init issubclass mro base_class existsb
    class_eqb class_id Nat.eqb orb Layer_init bind].
  now destruct (List.length s =? 3)%nat.
Qed.

Lemma Pool2DLayer_init_rank (s : shape) (pool_size pad : Z)
    (ignore_border : bool) (mode : string) :
  Pool2DLayer.init cls_Pool2DLayer (FromShape s) (Scalar pool_size) None
    (Scalar pad) ignore_border mode
  = if (List.length s =? 4)%nat
    then Ok (Pool2DLayer.mk s [pool_size; pool_size] [pool_size; pool_size]
               [pad; pad] ignore_border mode)
    else Raise (Pool2DLayer.rank_error s).
Proof.
  unfold Pool2DLayer.init. cbn [super_init issubclass mro base_class existsb
    class_eqb class_id Nat.eqb orb Layer_init bind as_tuple repeat].
  now destruct (List.length s =? 4)%nat.
Qed.

(** The rank message of the 3D layer announces a 2D layer and four
    expected dimensions. *)
Lemma Pool3DLayer_rank_error_text (s : shape) :
  Pool3DLayer.rank_error s = Pool2DLayer.rank_error s.
Proof. reflexivity. Qed.

(** C2, at the 3D layer: [Pool3DLayer.__init__] opens with
    [super(Pool2DLayer, self)], and a [Pool3DLayer] (or a
    [MaxPool3DLayer]) does not derive from [Pool2DLayer], so construction
    raises [TypeError] whatever the input shape is, also at rank 5, where
    the claim says it succeeds: for instance on the shape
    [(2, 3, 4, 5, 6)] with [pool_size = 2]. *)
Theorem Pool3DLayer_init_never_succeeds :
  (forall inc pool_size stride pad ignore_border mode,
      Pool3DLayer.init cls_Pool3DLayer inc pool_size stride pad ignore_border
        mode = Raise TypeError
      /\ MaxPool3DLayer.init cls_MaxPool3DLayer inc pool_size stride pad
           ignore_border = Raise TypeError)
  /\ Pool3DLayer.init cls_Pool3DLayer
       (FromShape [Some 2; Some 3; Some 4; Some 5; Some 6]) (Scalar 2) None
       (Seq [0; 0; 0]) true "max" = Raise TypeError.
Proof.
  split; [intros; split |]; reflexivity.
Qed.

(** C4, as the code has it: the constructors accept
    [ignore_border = False] together with a non-zero padding, but the
    module does reject the combination at shape inference:
    [pool_output_length] asserts [pad == 0], so with known lengths every
    such call raises [AssertionError]; with an unknown input length it
    returns unknown before the assertion is reached. *)
Theorem padding_without_ignore_border (il ps st pad : Z) (mode : string) :
  pad <> 0 ->
  pool_output_length (Some il) (Some ps) st pad false = Raise AssertionError
  /\ pool_output_length None (Some ps) st pad false = Ok None
  /\ (forall n c : pyint,
         exists l,
           Pool1DLayer.init cls_Pool1DLayer (FromShape [n; c; Some il])
             (Scalar ps) (Some (Scalar st)) (Scalar pad) false mode = Ok l
           /\ Pool1DLayer.get_output_shape_for l [n; c; Some il]
              = Raise AssertionError
           /\ Pool1DLayer.get_output_shape_for l [n; c; None]
              = Ok [n; c; None])
  /\ (forall n c w : pyint,
         exists l,
           Pool2DLayer.init cls_Pool2DLayer (FromShape [n; c; Some il; w])
             (Scalar ps) (Some (Scalar st)) (Scalar pad) false mode = Ok l
           /\ Pool2DLayer.get_output_shape_for l [n; c; Some il; w]
              = Raise AssertionError).
Proof.
  intros Hpad.
  pose proof (pool_output_length_asserts il ps st pad Hpad) as Hassert.
  split; [exact Hassert | split; [reflexivity | split]].
  - intros n c.
    exists (Pool1DLayer.mk [n; c; Some il] [ps] [st] [pad] false mode).
    split; [reflexivity | split].
    + unfold Pool1DLayer.get_output_shape_for, pool_axis.
      cbn [Pool1DLayer.pool_size Pool1DLayer.stride Pool1DLayer.pad
           Pool1DLayer.ignore_border].
      change (getitem [n; c; Some il] (-1)) with (Ok (A:=pyint) (Some il)).
      change (getitem [ps] 0) with (Ok ps).
      change (getitem [st] 0) with (Ok st).
      change (getitem [pad] 0) with (Ok pad).
      cbn [bind]. now rewrite Hassert.
    + reflexivity.
  - intros n c w.
    exists (Pool2DLayer.mk [n; c; Some il; w] [ps; ps] [st; st] [pad; pad]
              false mode).
    split; [reflexivity |].
    unfold Pool2DLayer.get_output_shape_for, pool_axis.
    cbn [Pool2DLayer.pool_size Pool2DLayer.stride Pool2DLayer.pad
         Pool2DLayer.ignore_border].
    change (getitem [n; c; Some il; w] 2) with (Ok (A:=pyint) (Some il)).
    change (getitem [ps; ps] 0) with (Ok ps).
    change (getitem [st; st] 0) with (Ok st).
    change (getitem [pad; pad] 0) with (Ok pad).
    cbn [bind]. now rewrite Hassert.
Qed.

Lemma padding_without_ignore_border_witness :
  pool_output_length (Some 10) (Some 3) 2 1 false = Raise AssertionError.
Proof.
  apply (padding_without_ignore_border 10 3 2 1 "max"). discriminate.
Defined.

(** C4, as stated, fails: a check of this module does reject
    [ignore_border = False] with [pad = 1]. *)
Lemma padding_check_in_module :
  ~ (forall il ps st pad : Z,
        pad <> 0 ->
        forall e, pool_output_length (Some il) (Some ps) st pad false
                  <> Raise e).
Proof.
  intros H. apply (H 10 3 2 1 ltac:(discriminate) AssertionError).
  reflexivity.
Qed.

Lemma pymod_nonzero (n p : Z) : p <> 0 -> pymod n p = Ok (n mod p).
Proof.
  intros Hp. unfold pymod. destruct (Z.eqb_spec p 0); [contradiction |].
  reflexivity.
Qed.

(** C3, as the code has it: with a known size [n] along the target axis
    and a non-zero [pool_size], both constructors raise a [ValueError]
    whose message prints [n] and [pool_size] when [n] is not a multiple
    of [pool_size], and succeed when it is; with an unknown size the
    check is not skipped: [None % pool_size] is evaluated and
    construction raises a [TypeError]. *)
Theorem feature_layers_multiple_check (s : shape) (axis pool_size : Z)
    (pool_function : tensor -> Z -> result tensor) :
  pool_size <> 0 ->
  (forall n, getitem s axis = Ok (Some n) -> ~ (pool_size | n) ->
     FeaturePoolLayer.init cls_FeaturePoolLayer (FromShape s) pool_size axis
       pool_function
     = Raise (ValueError
                ("Number of input feature maps (" ++ str_int n
                 ++ ") is not a multiple of the pool size (pool_size="
                 ++ str_int pool_size ++ ")"))
     /\ FeatureWTALayer.init cls_FeatureWTALayer (FromShape s) pool_size axis
        = Raise (ValueError
                   ("Number of input feature maps (" ++ str_int n
                    ++ ") is not a multiple of the region size (pool_size="
                    ++ str_int pool_size ++ ")")))
  /\ (forall n, getitem s axis = Ok (Some n) -> (pool_size | n) ->
        FeaturePoolLayer.init cls_FeaturePoolLayer (FromShape s) pool_size
          axis pool_function
        = Ok (FeaturePoolLayer.mk s pool_size axis pool_function)
        /\ FeatureWTALayer.init cls_FeatureWTALayer (FromShape s) pool_size
             axis
           = Ok (FeatureWTALayer.mk s pool_size axis))
  /\ (getitem s axis = Ok None ->
        FeaturePoolLayer.init cls_FeaturePoolLayer (FromShape s) pool_size
          axis pool_function = Raise TypeError
        /\ FeatureWTALayer.init cls_FeatureWTALayer (FromShape s) pool_size
             axis = Raise TypeError).
Proof.
  intros Hp.
  unfold FeaturePoolLayer.init, FeatureWTALayer.init.
  cbn [super_init issubclass mro base_class existsb class_eqb class_id
       Nat.eqb orb Layer_init bind].
  split; [| split].
  - intros n -> Hn. cbn [bind]. rewrite pymod_nonzero by assumption.
    cbn [bind].
    destruct (Z.eqb_spec (n mod pool_size) 0) as [E | E].
    + exfalso. apply Hn. now apply Z.mod_divide.
    + split; reflexivity.
  - intros n -> Hn. cbn [bind]. rewrite pymod_nonzero by assumption.
    cbn [bind]. apply Z.mod_divide in Hn; [| assumption]. rewrite Hn.
    split; reflexivity.
  - intros ->. split; reflexivity.
Qed.

Lemma feature_layers_multiple_check_witness :
  FeatureWTALayer.init cls_FeatureWTALayer (FromShape [Some 2; Some 5]) 2 1
  = Raise (ValueError
             "Number of input feature maps (5) is not a multiple of the region size (pool_size=2)")
  /\ FeatureWTALayer.init cls_FeatureWTALayer (FromShape [Some 2; Some 6]) 2 1
     = Ok (FeatureWTALayer.mk [Some 2; Some 6] 2 1)
  /\ FeatureWTALayer.init cls_FeatureWTALayer (FromShape [Some 2; None]) 2 1
     = Raise TypeError.
Proof.
  split; [| split].
  - apply (proj1 (feature_layers_multiple_check [Some 2; Some 5] 1 2
                    (reduce_axis list_max) ltac:(discriminate)) 5
             eq_refl).
    intros [q Hq]. lia.
  - apply (proj1 (proj2 (feature_layers_multiple_check [Some 2; Some 6] 1 2
                           (reduce_axis list_max) ltac:(discriminate))) 6
             eq_refl).
    now exists 3.
  - apply (proj2 (proj2 (feature_layers_multiple_check [Some 2; None] 1 2
                           (reduce_axis list_max) ltac:(discriminate)))
             eq_refl).
Defined.

(** C3, as stated, fails: with an unknown size along the target axis
    neither constructor succeeds. *)
Lemma feature_layers_unknown_size_rejected :
  FeaturePoolLayer.init cls_FeaturePoolLayer (FromShape [Some 2; None]) 2 1
    (reduce_axis list_max) = Raise TypeError
  /\ FeatureWTALayer.init cls_FeatureWTALayer (FromShape [Some 2; None]) 2 1
     = Raise TypeError.
Proof. split; reflexivity. Qed.

(** ** Global pooling *)

(** A contiguous run of a buffer, read entry by entry. *)
Lemma map_nth_slice (data : list Z) (base len : nat) :
  (base + len <= List.length data)%nat ->
  map (fun k => nth (base + k) data 0) (seq 0 len)
  = firstn len (skipn base data).
Proof.
  intros Hlen.
  apply (nth_ext _ _ 0 0).
  - rewrite length_map, length_seq, length_firstn, length_skipn. lia.
  - intros k Hk. rewrite length_map, length_seq in Hk.
    rewrite nth_tabulated by assumption.
    rewrite nth_firstn, nth_skipn.
    destruct (Nat.ltb_spec k len); [reflexivity | lia].
Qed.

(** C9: for an input shape [(N, C, d1, d2, ...)] of rank at least 3, shape
    inference returns exactly [(N, C)], with any number of trailing axes,
    a single one included; the value computation applies the stored
    reduction function along axis 2 of the input collapsed to
    [(N, C, d1*d2*...)], so that with a reduction [f] the output has
    shape [(N, C)] and holds at [(i, j)] the value of [f] on all the
    entries [input[i, j, ...]], in row-major order. *)
Theorem GlobalPoolLayer_pools_trailing_axes
    (self : GlobalPoolLayer.t) (N C d1 : pyint) (rest : shape)
    (x : tensor) (n c d : nat) (ds : list nat) :
  tshape x = n :: c :: d :: ds -> wf x ->
  GlobalPoolLayer.get_output_shape_for self (N :: C :: d1 :: rest) = [N; C]
  /\ GlobalPoolLayer.get_output_for self x
     = GlobalPoolLayer.pool_function self
         (mkTensor [n; c; size_of (d :: ds)] (tdata x)) 2
  /\ forall f : list Z -> Z,
       GlobalPoolLayer.pool_function self = reduce_axis f ->
       exists out,
         GlobalPoolLayer.get_output_for self x = Ok out
         /\ tshape out = [n; c]
         /\ forall i j, (i < n)%nat -> (j < c)%nat ->
              get out [i; j]
              = f (firstn (size_of (d :: ds))
                     (skipn ((i * c + j) * size_of (d :: ds)) (tdata x))).
Proof.
  intros Hshape Hwf.
  assert (Hflat : flatten x 3
                  = Ok (mkTensor [n; c; size_of (d :: ds)] (tdata x))).
  { unfold flatten. rewrite Hshape. reflexivity. }
  split; [reflexivity | split].
  - unfold GlobalPoolLayer.get_output_for. now rewrite Hflat.
  - intros f Hf. unfold GlobalPoolLayer.get_output_for.
    rewrite Hflat, Hf. cbn [bind].
    set (D := size_of (d :: ds)).
    unfold reduce_axis. cbn [tshape List.length].
    change (norm_index 3 2) with (Ok 2%nat). cbn [bind].
    eexists. split; [reflexivity | split; [reflexivity |]].
    intros i j Hi Hj.
    rewrite get_tabulate by (repeat constructor; assumption).
    cbn [firstn skipn app nth]. f_equal.
    unfold get. cbn [tshape tdata ravel size_of fold_right].
    rewrite <- map_nth_slice.
    + apply map_ext. intros k. f_equal. subst D.
      cbn [size_of fold_right]. ring.
    + unfold wf in Hwf. rewrite Hwf, Hshape.
      change (size_of (n :: c :: d :: ds)) with (n * (c * D))%nat.
      assert (H1 : (i * c + j + 1 <= n * c)%nat) by nia.
      apply (Nat.mul_le_mono_r _ _ D) in H1. lia.
Qed.

Lemma GlobalPoolLayer_pools_trailing_axes_witness :
  GlobalPoolLayer.get_output_shape_for
    (GlobalPoolLayer.mk [None; Some 2; Some 3] (reduce_axis list_sum))
    [None; Some 2; Some 3] = [None; Some 2]
  /\ GlobalPoolLayer.get_output_for
       (GlobalPoolLayer.mk [None; Some 2; Some 3] (reduce_axis list_sum))
       (mkTensor [1; 2; 3]%nat [1; 2; 3; 4; 5; 6])
     = Ok (mkTensor [1; 2]%nat [6; 15]).
Proof.
  destruct (GlobalPoolLayer_pools_trailing_axes
              (GlobalPoolLayer.mk [None; Some 2; Some 3]
                 (reduce_axis list_sum))
              None (Some 2) (Some 3) []
              (mkTensor [1; 2; 3]%nat [1; 2; 3; 4; 5; 6])
              1%nat 2%nat 3%nat [] eq_refl eq_refl) as [H1 [H2 _]].
  split; [exact H1 | rewrite H2; reflexivity].
Defined.

(** ** Upscaling *)

Lemma get_zeros (dims I : list nat) :
  get (mkTensor dims (repeat 0 (size_of dims))) I = 0.
Proof. unfold get. cbn [tdata]. apply nth_repeat. Qed.

Lemma concrete_shape_known (zs : list Z) :
  Forall (fun d => 0 <= d) zs ->
  concrete_shape (map Some zs) = Ok (map Z.to_nat zs).
Proof.
  induction 1 as [| d zs Hd _ IH]; cbn [map concrete_shape];
    [reflexivity |].
  destruct (Z.ltb_spec d 0); [lia |]. now rewrite IH.
Qed.

Lemma slice_length_scaled (d : nat) (a : Z) :
  1 <= a -> slice_length (d * Z.to_nat a) a = d.
Proof.
  intros Ha. unfold slice_length.
  rewrite Nat2Z.inj_mul, Z2Nat.id by lia.
  replace (Z.of_nat d * a + a - 1) with (a - 1 + Z.of_nat d * a) by ring.
  rewrite Z.div_add by lia. rewrite Z.div_small by lia. lia.
Qed.

Lemma selection_shape (sh : list nat) :
  forall slices : list slice,
    List.length slices = List.length sh ->
    Forall (fun sl => 1 <= slice_step sl) slices ->
    shape_eqb
      (zip_with slice_length
         (zip_with (fun d sl => (d * Z.to_nat (slice_step sl))%nat) sh slices)
         (map slice_step slices)) sh = true.
Proof.
  induction sh as [| d sh IH]; intros [| sl slices] Hlen Hsteps;
    try discriminate; [reflexivity |].
  inversion Hsteps as [| ? ? Hsl Hrest]; subst.
  cbn [zip_with map shape_eqb].
  rewrite slice_length_scaled by assumption.
  rewrite Nat.eqb_refl. cbn [andb]. apply IH; [| assumption].
  now injection Hlen.
Qed.

Lemma length_zip_with {A B C : Type} (f : A -> B -> C) (l : list A) :
  forall m : list B,
    List.length l = List.length m -> List.length (zip_with f l m) = List.length l.
Proof.
  induction l as [| x l IH]; intros [| y m] H; try discriminate;
    [reflexivity |].
  cbn [zip_with List.length]. f_equal. apply IH. now injection H.
Qed.

Lemma no_nonpositive_step (slices : list slice) :
  Forall (fun sl => 1 <= slice_step sl) slices ->
  existsb (fun a => a <=? 0) (map slice_step slices) = false.
Proof.
  induction 1 as [| sl slices Hsl _ IH]; cbn [map existsb]; [reflexivity |].
  destruct (Z.leb_spec (slice_step sl) 0); [lia | exact IH].
Qed.

(** Writing [x] into the strided positions of a zero tensor whose sizes
    are those of [x] times the steps. *)
Lemma set_subtensor_zeros (x : tensor) (slices : list slice)
    (dims : list nat) :
  List.length slices = List.length (tshape x) ->
  Forall (fun sl => 1 <= slice_step sl) slices ->
  dims = zip_with (fun d sl => (d * Z.to_nat (slice_step sl))%nat)
           (tshape x) slices ->
  set_subtensor (mkTensor dims (repeat 0 (size_of dims))) slices x
  = Ok (tabulate dims
          (fun I =>
             if on_grid (map Z.to_nat (map slice_step slices)) I
             then get x (zip_with Nat.div I
                           (map Z.to_nat (map slice_step slices)))
             else 0)).
Proof.
  intros Hlen Hsteps Hdims. unfold set_subtensor. cbn [tshape].
  assert (Hl : List.length dims = List.length slices).
  { rewrite Hdims, length_zip_with; congruence. }
  rewrite Hl, Nat.eqb_refl. cbn [negb].
  rewrite no_nonpositive_step by assumption.
  rewrite Hdims at 1. rewrite selection_shape by assumption.
  unfold tabulate. cbn [tshape]. do 2 f_equal.
  apply map_ext. intros p. now rewrite get_zeros.
Qed.

Lemma getitem_at {A : Type} (l : list A) (i : Z) (k : nat) (x : A) :
  norm_index (List.length l) i = Ok k -> nth_error l k = Some x ->
  getitem l i = Ok x.
Proof.
  intros H1 H2. unfold getitem. rewrite H1. cbn [bind]. now rewrite H2.
Qed.

Lemma setitem_at {A : Type} (l : list A) (i : Z) (k : nat) (x : A) :
  norm_index (List.length l) i = Ok k ->
  setitem l i x = Ok (firstn k l ++ x :: skipn (S k) l).
Proof. intros H1. unfold setitem. now rewrite H1. Qed.

(** Evaluates the indexing of sequences whose length is known. *)
Ltac py_items :=
  repeat (match goal with
          | |- context [@getitem ?A ?l ?i] =>
              let r := eval vm_compute in (norm_index (List.length l) i) in
              match r with
              | Ok ?k => erewrite (@getitem_at A l i k) by reflexivity
              end
          | |- context [@setitem ?A ?l ?i ?x] =>
              let r := eval vm_compute in (norm_index (List.length l) i) in
              match r with
              | Ok ?k => rewrite (@setitem_at A l i k x) by reflexivity
              end
          end;
          cbn [bind firstn skipn app]).

(** Discharges the bounds of a multi-index written out coordinate by
    coordinate. *)
Ltac bounds :=
  repeat (apply Forall2_cons;
          [unfold Nat.lt; first [assumption | lia | nia] |]);
  apply Forall2_nil.

Ltac steps_ok := repeat (constructor; [cbn [slice_step]; lia |]); constructor.

Ltac scaled_dims :=
  cbn [map zip_with slice_step];
  rewrite ?Nat2Z.id, ?Z2Nat.inj_mul, ?Nat2Z.id by lia;
  change (Z.to_nat 1) with 1%nat; rewrite ?Nat.mul_1_r; reflexivity.

(** The dilated output, in closed form, for the three layers. *)
Lemma Upscale1DLayer_dilate_eq (s : shape) (a : Z) (x : tensor)
    (n c h : nat) :
  1 < a -> tshape x = [n; c; h] ->
  Upscale1DLayer.get_output_for (Upscale1DLayer.mk s [a] "dilate") x
  = Ok (tabulate [n; c; h * Z.to_nat a]%nat
          (fun I => if on_grid [1; 1; Z.to_nat a]%nat I
                    then get x (zip_with Nat.div I [1; 1; Z.to_nat a]%nat)
                    else 0)).
Proof.
  intros Ha Hx.
  unfold Upscale1DLayer.get_output_for.
  cbn [Upscale1DLayer.scale_factor Upscale1DLayer.mode].
  change (String.eqb "dilate" "repeat") with false.
  change (String.eqb "dilate" "dilate") with true. cbv iota.
  replace (a >? 1) with true by (symmetry; now apply Z.gtb_lt).
  unfold Upscale1DLayer.get_output_shape_for, scale_axis, shape_of.
  rewrite Hx. cbn [map Upscale1DLayer.scale_factor].
  py_items. unfold zeros.
  pose proof (concrete_shape_known
                [Z.of_nat n; Z.of_nat c; Z.of_nat h * a]
                ltac:(repeat constructor; nia)) as Hc.
  cbn [map] in Hc. rewrite Hc. clear Hc. cbn [bind].
  rewrite set_subtensor_zeros.
  - scaled_dims.
  - now rewrite Hx.
  - steps_ok.
  - rewrite Hx. scaled_dims.
Qed.

Lemma Upscale2DLayer_dilate_eq (s : shape) (a b : Z) (x : tensor)
    (n c h w : nat) :
  1 <= a -> 1 <= b -> 1 < a \/ 1 < b -> tshape x = [n; c; h; w] ->
  Upscale2DLayer.get_output_for (Upscale2DLayer.mk s [a; b] "dilate") x
  = Ok (tabulate [n; c; h * Z.to_nat a; w * Z.to_nat b]%nat
          (fun I => if on_grid [1; 1; Z.to_nat a; Z.to_nat b]%nat I
                    then get x (zip_with Nat.div I
                                  [1; 1; Z.to_nat a; Z.to_nat b]%nat)
                    else 0)).
Proof.
  intros Ha Hb Hab Hx.
  unfold Upscale2DLayer.get_output_for.
  cbn [Upscale2DLayer.scale_factor Upscale2DLayer.mode].
  change (String.eqb "dilate" "repeat") with false.
  change (String.eqb "dilate" "dilate") with true. cbv iota.
  replace ((b >? 1) || (a >? 1)) with true
    by (symmetry; apply orb_true_iff; rewrite !Z.gtb_lt; tauto).
  unfold Upscale2DLayer.get_output_shape_for, scale_axis, shape_of.
  rewrite Hx. cbn [map Upscale2DLayer.scale_factor].
  py_items. unfold zeros.
  pose proof (concrete_shape_known
                [Z.of_nat n; Z.of_nat c; Z.of_nat h * a; Z.of_nat w * b]
                ltac:(repeat constructor; nia)) as Hc.
  cbn [map] in Hc. rewrite Hc. clear Hc. cbn [bind].
  rewrite set_subtensor_zeros.
  - scaled_dims.
  - now rewrite Hx.
  - steps_ok.
  - rewrite Hx. scaled_dims.
Qed.

Lemma Upscale3DLayer_dilate_eq (s : shape) (a b c : Z) (x : tensor)
    (n k h w d : nat) :
  1 <= a -> 1 <= b -> 1 <= c -> 1 < a \/ 1 < b \/ 1 < c ->
  tshape x = [n; k; h; w; d] ->
  Upscale3DLayer.get_output_for (Upscale3DLayer.mk s [a; b; c] "dilate") x
  = Ok (tabulate [n; k; h * Z.to_nat a; w * Z.to_nat b; d * Z.to_nat c]%nat
          (fun I => if on_grid [1; 1; Z.to_nat a; Z.to_nat b; Z.to_nat c]%nat
                         I
                    then get x (zip_with Nat.div I
                                  [1; 1; Z.to_nat a; Z.to_nat b;
                                   Z.to_nat c]%nat)
                    else 0)).
Proof.
  intros Ha Hb Hc' Habc Hx.
  unfold Upscale3DLayer.get_output_for.
  cbn [Upscale3DLayer.scale_factor Upscale3DLayer.mode].
  change (String.eqb "dilate" "repeat") with false.
  change (String.eqb "dilate" "dilate") with true. cbv iota.
  replace ((c >? 1) || (b >? 1) || (a >? 1)) with true
    by (symmetry; rewrite !orb_true_iff, !Z.gtb_lt; tauto).
  unfold Upscale3DLayer.get_output_shape_for, scale_axis, shape_of.
  rewrite Hx. cbn [map Upscale3DLayer.scale_factor].
  py_items. unfold zeros.
  pose proof (concrete_shape_known
                [Z.of_nat n; Z.of_nat k; Z.of_nat h * a; Z.of_nat w * b;
                 Z.of_nat d * c]
                ltac:(repeat constructor; nia)) as Hc.
  cbn [map] in Hc. rewrite Hc. clear Hc. cbn [bind].
  rewrite set_subtensor_zeros.
  - scaled_dims.
  - now rewrite Hx.
  - steps_ok.
  - rewrite Hx. scaled_dims.
Qed.

Ltac super_ok :=
  cbn [super_init issubclass mro base_class existsb class_eqb class_id
       Nat.eqb orb Layer_init bind as_tuple repeat].

Lemma Upscale1DLayer_init_ok (s : shape) (a : Z) (mode : string) :
  1 <= a -> valid_upscale_mode mode = true ->
  Upscale1DLayer.init cls_Upscale1DLayer (FromShape s) (Scalar a) mode
  = Ok (Upscale1DLayer.mk s [a] mode).
Proof.
  intros Ha Hm. unfold Upscale1DLayer.init. super_ok. py_items.
  destruct (Z.ltb_spec a 1); [lia |]. now rewrite Hm.
Qed.

Lemma Upscale2DLayer_init_ok (s : shape) (a b : Z) (mode : string) :
  1 <= a -> 1 <= b -> valid_upscale_mode mode = true ->
  Upscale2DLayer.init cls_Upscale2DLayer (FromShape s) (Seq [a; b]) mode
  = Ok (Upscale2DLayer.mk s [a; b] mode).
Proof.
  intros Ha Hb Hm. unfold Upscale2DLayer.init. super_ok.
  change (List.length [a; b] =? 2)%nat with true. cbv iota. cbn [bind].
  py_items.
  destruct (Z.ltb_spec a 1); [lia |]. destruct (Z.ltb_spec b 1); [lia |].
  cbn [orb]. now rewrite Hm.
Qed.

Lemma Upscale3DLayer_init_ok (s : shape) (a b c : Z) (mode : string) :
  1 <= a -> 1 <= b -> 1 <= c -> valid_upscale_mode mode = true ->
  Upscale3DLayer.init cls_Upscale3DLayer (FromShape s) (Seq [a; b; c]) mode
  = Ok (Upscale3DLayer.mk s [a; b; c] mode).
Proof.
  intros Ha Hb Hc Hm. unfold Upscale3DLayer.init. super_ok.
  change (List.length [a; b; c] =? 3)%nat with true. cbv iota. cbn [bind].
  py_items.
  destruct (Z.ltb_spec a 1); [lia |]. destruct (Z.ltb_spec b 1); [lia |].
  destruct (Z.ltb_spec c 1); [lia |].
  cbn [orb]. now rewrite Hm.
Qed.

Section Dilation.

Local Open Scope nat_scope.

Lemma grid_point_in_bounds (I sh : list nat) :
  in_bounds I sh ->
  forall steps, Forall (fun a => a <> 0) steps ->
    in_bounds (zip_with Nat.mul I steps) (zip_with Nat.mul sh steps).
Proof.
  induction 1 as [| i d I sh Hi _ IH]; intros [| a steps] Hsteps;
    cbn [zip_with]; try constructor.
  - inversion Hsteps; subst. unfold Nat.lt in *. nia.
  - inversion Hsteps; subst. now apply IH.
Qed.

Lemma grid_point_on_grid (steps : list nat) :
  Forall (fun a => a <> 0) steps ->
  forall I, List.length I = List.length steps ->
    on_grid steps (zip_with Nat.mul I steps) = true
    /\ zip_with Nat.div (zip_with Nat.mul I steps) steps = I.
Proof.
  induction 1 as [| a steps Ha _ IH]; intros [| i I] Hlen;
    try discriminate; [now split |].
  cbn [zip_with on_grid].
  destruct (IH I ltac:(now injection Hlen)) as [H1 H2].
  rewrite Nat.Div0.mod_mul, Nat.div_mul, H1, H2 by assumption.
  now split.
Qed.

Lemma on_grid_is_grid_point (J sh : list nat) :
  forall steps,
    List.length steps = List.length sh ->
    in_bounds J (zip_with Nat.mul sh steps) ->
    Forall (fun a => a <> 0) steps ->
    on_grid steps J = true ->
    exists I, in_bounds I sh /\ J = zip_with Nat.mul I steps.
Proof.
  revert J. induction sh as [| d sh IH];
    intros J [| a steps] Hlen Hb Hsteps Hg; try discriminate;
    cbn [zip_with] in Hb; inversion Hb; subst.
  - exists []. split; [constructor | reflexivity].
  - inversion Hsteps; subst. cbn [on_grid] in Hg.
    apply andb_true_iff in Hg as [Hj Hg]. apply Nat.eqb_eq in Hj.
    match goal with
    | Hl : Forall2 Nat.lt ?l (zip_with Nat.mul sh steps) |- _ =>
        destruct (IH l steps ltac:(now injection Hlen) Hl
                    ltac:(assumption) Hg) as [I [HI HJ]]
    end.
    match goal with
    | Hx : Nat.lt ?x (d * a) |- _ =>
        exists (x / a :: I); split;
        [ constructor; [| assumption];
          apply Nat.Div0.div_lt_upper_bound; unfold Nat.lt in Hx; lia
        | cbn [zip_with]; rewrite <- HJ; f_equal;
          pose proof (Nat.div_mod_eq x a); lia ]
    end.
Qed.

(** The closed form computed by the dilating layers is a dilation. *)
Lemma dilated_tabulate (steps : list nat) (x : tensor) :
  Forall (fun a => a <> 0) steps ->
  List.length steps = List.length (tshape x) ->
  dilated steps x
    (tabulate (zip_with Nat.mul (tshape x) steps)
       (fun I => if on_grid steps I
                 then get x (zip_with Nat.div I steps)
                 else 0%Z)).
Proof.
  intros Hsteps Hlen. split; [reflexivity | split].
  - intros I HI.
    rewrite get_tabulate by now apply grid_point_in_bounds.
    destruct (grid_point_on_grid steps Hsteps I) as [H1 H2].
    { rewrite (Forall2_length HI). congruence. }
    now rewrite H1, H2.
  - intros J HJ Hoff. cbn [tshape tabulate] in HJ.
    rewrite get_tabulate by assumption.
    destruct (on_grid steps J) eqn:Hg; [| reflexivity].
    destruct (on_grid_is_grid_point J (tshape x) steps Hlen HJ Hsteps Hg)
      as [I [HI HJI]].
    now destruct (Hoff I HI).
Qed.

End Dilation.

Ltac nonzero_steps := repeat (constructor; [lia |]); constructor.

(** C6: in dilate mode with some scale factor greater than 1, each
    upscaling layer returns the dilation of its input by the scale
    factors along the spatial axes: the position
    [(..., i*s_0, j*s_1, ...)] holds the input's [(..., i, j, ...)] and
    every other position is zero; with all scale factors equal to 1, in
    either mode, the output is the input. *)
Theorem upscale_dilate_scatters (s : shape) (a b c : Z) :
  1 <= a -> 1 <= b -> 1 <= c ->
  (forall x n k h,
      tshape x = [n; k; h] -> 1 < a ->
      exists self out,
        Upscale1DLayer.init cls_Upscale1DLayer (FromShape s) (Scalar a)
          "dilate" = Ok self
        /\ Upscale1DLayer.get_output_for self x = Ok out
        /\ dilated [1; 1; Z.to_nat a]%nat x out)
  /\ (forall x n k h w,
         tshape x = [n; k; h; w] -> 1 < a \/ 1 < b ->
         exists self out,
           Upscale2DLayer.init cls_Upscale2DLayer (FromShape s)
             (Seq [a; b]) "dilate" = Ok self
           /\ Upscale2DLayer.get_output_for self x = Ok out
           /\ dilated [1; 1; Z.to_nat a; Z.to_nat b]%nat x out)
  /\ (forall x n k h w d,
         tshape x = [n; k; h; w; d] -> 1 < a \/ 1 < b \/ 1 < c ->
         exists self out,
           Upscale3DLayer.init cls_Upscale3DLayer (FromShape s)
             (Seq [a; b; c]) "dilate" = Ok self
           /\ Upscale3DLayer.get_output_for self x = Ok out
           /\ dilated [1; 1; Z.to_nat a; Z.to_nat b; Z.to_nat c]%nat x out)
  /\ (forall (mode : string) (x : tensor),
         mode = "repeat"%string \/ mode = "dilate"%string ->
         exists l1 l2 l3,
           Upscale1DLayer.init cls_Upscale1DLayer (FromShape s) (Scalar 1)
             mode = Ok l1
           /\ Upscale2DLayer.init cls_Upscale2DLayer (FromShape s)
                (Scalar 1) mode = Ok l2
           /\ Upscale3DLayer.init cls_Upscale3DLayer (FromShape s)
                (Scalar 1) mode = Ok l3
           /\ Upscale1DLayer.get_output_for l1 x = Ok x
           /\ Upscale2DLayer.get_output_for l2 x = Ok x
           /\ Upscale3DLayer.get_output_for l3 x = Ok x).
Proof.
  intros Ha Hb Hc. split; [| split; [| split]].
  - intros x n k h Hx Hgt.
    exists (Upscale1DLayer.mk s [a] "dilate"). eexists.
    split; [apply Upscale1DLayer_init_ok; [assumption | reflexivity] |].
    split; [apply (Upscale1DLayer_dilate_eq s a x n k h); assumption |].
    pose proof (dilated_tabulate [1; 1; Z.to_nat a]%nat x
                  ltac:(nonzero_steps) ltac:(now rewrite Hx)) as D.
    rewrite Hx in D at 1. cbn [zip_with] in D.
    now rewrite !Nat.mul_1_r in D.
  - intros x n k h w Hx Hgt.
    exists (Upscale2DLayer.mk s [a; b] "dilate"). eexists.
    split; [apply Upscale2DLayer_init_ok; [assumption .. | reflexivity] |].
    split; [apply (Upscale2DLayer_dilate_eq s a b x n k h w); assumption |].
    pose proof (dilated_tabulate [1; 1; Z.to_nat a; Z.to_nat b]%nat x
                  ltac:(nonzero_steps) ltac:(now rewrite Hx)) as D.
    rewrite Hx in D at 1. cbn [zip_with] in D.
    now rewrite !Nat.mul_1_r in D.
  - intros x n k h w d Hx Hgt.
    exists (Upscale3DLayer.mk s [a; b; c] "dilate"). eexists.
    split; [apply Upscale3DLayer_init_ok; [assumption .. | reflexivity] |].
    split; [apply (Upscale3DLayer_dilate_eq s a b c x n k h w d);
            assumption |].
    pose proof (dilated_tabulate
                  [1; 1; Z.to_nat a; Z.to_nat b; Z.to_nat c]%nat x
                  ltac:(nonzero_steps) ltac:(now rewrite Hx)) as D.
    rewrite Hx in D at 1. cbn [zip_with] in D.
    now rewrite !Nat.mul_1_r in D.
  - intros mode x [-> | ->].
    + exists (Upscale1DLayer.mk s [1] "repeat"),
        (Upscale2DLayer.mk s [1; 1] "repeat"),
        (Upscale3DLayer.mk s [1; 1; 1] "repeat").
      repeat split; reflexivity.
    + exists (Upscale1DLayer.mk s [1] "dilate"),
        (Upscale2DLayer.mk s [1; 1] "dilate"),
        (Upscale3DLayer.mk s [1; 1; 1] "dilate").
      repeat split; reflexivity.
Qed.

Lemma upscale_dilate_scatters_witness :
  exists self out,
    Upscale2DLayer.init cls_Upscale2DLayer
      (FromShape [None; Some 1; Some 2; Some 2]) (Seq [2; 1]) "dilate"
    = Ok self
    /\ Upscale2DLayer.get_output_for self
         (mkTensor [1; 1; 2; 2]%nat [1; 2; 3; 4]) = Ok out
    /\ dilated [1; 1; Z.to_nat 2; Z.to_nat 1]%nat
         (mkTensor [1; 1; 2; 2]%nat [1; 2; 3; 4]) out.
Proof.
  apply (proj1 (proj2 (upscale_dilate_scatters
                         [None; Some 1; Some 2; Some 2] 2 1 1
                         ltac:(lia) ltac:(lia) ltac:(lia)))
           (mkTensor [1; 1; 2; 2]%nat [1; 2; 3; 4])
           1%nat 1%nat 2%nat 2%nat eq_refl).
  left. lia.
Defined.

Lemma tshape_tabulate (s : list nat) (f : list nat -> Z) :
  tshape (tabulate s f) = s.
Proof. reflexivity. Qed.

Lemma repeat_t_axis (t : tensor) (k axis : Z) (ax : nat) :
  norm_index (List.length (tshape t)) axis = Ok ax -> 0 <= k ->
  repeat_t t k axis
  = Ok (tabulate (upd (tshape t) ax (nth ax (tshape t) 0 * Z.to_nat k)%nat)
          (fun I => get t (upd I ax (nth ax I 0 / Z.to_nat k)%nat))).
Proof.
  intros Hax Hk. unfold repeat_t. rewrite Hax. cbn [bind].
  destruct (Z.ltb_spec k 0); [lia | reflexivity].
Qed.

(** The repeated output of the 2D layer: its sizes along the spatial
    axes are multiplied by the scale factors and the position [(p, q)]
    holds the input's [(p / a, q / b)]. *)
Lemma Upscale2DLayer_repeat (s : shape) (a b : Z) (x : tensor)
    (n c h w : nat) :
  1 <= a -> 1 <= b -> tshape x = [n; c; h; w] -> wf x ->
  exists up,
    Upscale2DLayer.get_output_for (Upscale2DLayer.mk s [a; b] "repeat") x
    = Ok up
    /\ wf up
    /\ tshape up = [n; c; h * Z.to_nat a; w * Z.to_nat b]%nat
    /\ forall i j p q,
         (i < n)%nat -> (j < c)%nat ->
         (p < h * Z.to_nat a)%nat -> (q < w * Z.to_nat b)%nat ->
         get up [i; j; p; q]
         = get x [i; j; (p / Z.to_nat a)%nat; (q / Z.to_nat b)%nat].
Proof.
  intros Ha Hb Hx Hwf.
  unfold Upscale2DLayer.get_output_for.
  cbn [Upscale2DLayer.scale_factor Upscale2DLayer.mode].
  change (String.eqb "repeat" "repeat") with true. cbv iota.
  assert (Hdiv : forall (p d : nat) (m : Z),
             1 <= m -> (p < d * Z.to_nat m)%nat -> (p / Z.to_nat m < d)%nat).
  { intros p d m Hm Hp. apply Nat.Div0.div_lt_upper_bound. lia. }
  destruct (Z.gtb_spec b 1) as [Hb1 | Hb1];
    destruct (Z.gtb_spec a 1) as [Ha1 | Ha1].
  - rewrite (repeat_t_axis x b 3 3) by (rewrite ?Hx; reflexivity || lia).
    cbn [bind]. rewrite Hx. cbn [upd nth].
    rewrite (repeat_t_axis _ a 2 2) by (reflexivity || lia).
    rewrite !tshape_tabulate. cbn [upd nth].
    eexists. split; [reflexivity |].
    split; [apply wf_tabulate |]. split; [reflexivity |].
    intros i j p q Hi Hj Hp Hq.
    rewrite get_tabulate by (repeat constructor; assumption).
    cbn [upd nth].
    rewrite get_tabulate by (repeat constructor; auto).
    reflexivity.
  - assert (a = 1) by lia. subst a.
    rewrite (repeat_t_axis x b 3 3) by (rewrite ?Hx; reflexivity || lia).
    cbn [bind]. rewrite Hx. cbn [upd nth].
    eexists. split; [reflexivity |].
    split; [apply wf_tabulate |].
    change (Z.to_nat 1) with 1%nat. rewrite Nat.mul_1_r.
    split; [reflexivity |].
    intros i j p q Hi Hj Hp Hq.
    rewrite get_tabulate by (repeat constructor; assumption).
    cbn [upd nth]. now rewrite Nat.div_1_r.
  - assert (b = 1) by lia. subst b. cbn [bind].
    rewrite (repeat_t_axis x a 2 2) by (rewrite ?Hx; reflexivity || lia).
    rewrite Hx. cbn [upd nth].
    eexists. split; [reflexivity |].
    split; [apply wf_tabulate |].
    change (Z.to_nat 1) with 1%nat. rewrite Nat.mul_1_r.
    split; [reflexivity |].
    intros i j p q Hi Hj Hp Hq.
    rewrite get_tabulate by (repeat constructor; assumption).
    cbn [upd nth]. now rewrite Nat.div_1_r.
  - assert (a = 1) by lia. assert (b = 1) by lia. subst a b. cbn [bind].
    exists x. split; [reflexivity |]. split; [assumption |].
    change (Z.to_nat 1) with 1%nat. rewrite !Nat.mul_1_r.
    split; [assumption |].
    intros i j p q _ _ _ _. now rewrite !Nat.div_1_r.
Qed.

(** ** Pooling an upscaled tensor *)













Lemma Upscale1DLayer_repeat (s : shape) (a : Z) (x : tensor) (n c h : nat) :
  1 <= a -> tshape x = [n; c; h] -> wf x ->
  exists up,
    Upscale1DLayer.get_output_for (Upscale1DLayer.mk s [a] "repeat") x
    = Ok up
    /\ wf up
    /\ tshape up = [n; c; h * Z.to_nat a]%nat
    /\ forall i j p,
         (i < n)%nat -> (j < c)%nat -> (p < h * Z.to_nat a)%nat ->
         get up [i; j; p] = get x [i; j; (p / Z.to_nat a)%nat].
Proof.
  intros Ha Hx Hwf.
  unfold Upscale1DLayer.get_output_for.
  cbn [Upscale1DLayer.scale_factor Upscale1DLayer.mode].
  change (String.eqb "repeat" "repeat") with true. cbv iota.
  destruct (Z.gtb_spec a 1) as [Ha1 | Ha1].
  - rewrite (repeat_t_axis x a 2 2) by (rewrite ?Hx; reflexivity || lia).
    rewrite Hx. cbn [upd nth].
    eexists. split; [reflexivity |].
    split; [apply wf_tabulate |]. split; [reflexivity |].
    intros i j p Hi Hj Hp.
    rewrite get_tabulate by bounds.
    reflexivity.
  - assert (a = 1) by lia. subst a.
    exists x. split; [reflexivity |]. split; [assumption |].
    change (Z.to_nat 1) with 1%nat. rewrite !Nat.mul_1_r.
    split; [assumption |].
    intros i j p _ _ _. now rewrite !Nat.div_1_r.
Qed.







(** ** Winner take all *)

Section SplitAxis.
Local Open Scope nat_scope.

Lemma size_of_app (a b : list nat) : size_of (a ++ b) = size_of a * size_of b.
Proof.
  unfold size_of. induction a as [| d a IH]; cbn [app fold_right];
    [lia | rewrite IH; lia].
Qed.

Lemma size_of_split (A B : list nat) (np ps : nat) :
  size_of (A ++ [np; ps] ++ B) = size_of (A ++ [np * ps] ++ B).
Proof.
  rewrite !size_of_app. unfold size_of. cbn [fold_right app]. lia.
Qed.

(** Splitting one axis of size [np * ps] into [(np, ps)] does not move
    the entries: [(g, j)] in the split tensor is [g * ps + j] in the
    original one. *)
Lemma ravel_split (A B IA IB : list nat) (np ps g j : nat) :
  List.length IA = List.length A ->
  ravel (A ++ [np; ps] ++ B) (IA ++ [g; j] ++ IB)
  = ravel (A ++ [np * ps] ++ B) (IA ++ [g * ps + j] ++ IB).
Proof.
  revert IA. induction A as [| d A IH]; intros [| i IA] Hlen; try discriminate.
  - cbn [app ravel]. unfold size_of. cbn [fold_right]. lia.
  - cbn [app ravel]. rewrite IH by now injection Hlen.
    change (size_of (A ++ np :: ps :: B)) with (size_of (A ++ [np; ps] ++ B)).
    change (size_of (A ++ (np * ps) :: B)) with (size_of (A ++ [np * ps] ++ B)).
    now rewrite size_of_split.
Qed.

Lemma in_bounds_app (IA A I2 S2 : list nat) :
  in_bounds IA A -> in_bounds I2 S2 -> in_bounds (IA ++ I2) (A ++ S2).
Proof. apply Forall2_app. Qed.

Lemma upd_app {X : Type} (IA : list X) (a b v : X) (IB : list X) :
  upd (IA ++ a :: b :: IB) (S (List.length IA)) v = IA ++ a :: v :: IB.
Proof.
  induction IA as [| i IA IH]; cbn [app List.length upd]; [reflexivity |].
  now rewrite IH.
Qed.

Lemma nth_app_second {X : Type} (IA : list X) (a b d : X) (IB : list X) :
  nth (S (List.length IA)) (IA ++ a :: b :: IB) d = b.
Proof.
  induction IA as [| i IA IH]; cbn [app List.length nth]; [reflexivity |].
  exact IH.
Qed.

Lemma bidx_app (A S2 IA I2 : list nat) :
  List.length IA = List.length A ->
  bidx (A ++ S2) (IA ++ I2) = bidx A IA ++ bidx S2 I2.
Proof.
  revert IA. induction A as [| d A IH]; intros [| i IA] Hlen; try discriminate;
    [reflexivity |].
  unfold bidx in *. cbn [app zip_with]. f_equal. apply IH. now injection Hlen.
Qed.

Lemma bidx_in_bounds (I s : list nat) : in_bounds I s -> bidx s I = I.
Proof.
  induction 1 as [| i d I s Hi _ IH]; [reflexivity |].
  unfold bidx in *. cbn [zip_with]. rewrite IH. f_equal.
  destruct (Nat.eqb_spec d 1); [unfold Nat.lt in Hi; lia | reflexivity].
Qed.

Lemma bidx_ones (I : list nat) :
  bidx (repeat 1 (List.length I)) I = repeat 0 (List.length I).
Proof.
  induction I as [| i I IH]; [reflexivity |].
  unfold bidx in *. cbn [List.length repeat zip_with Nat.eqb]. now rewrite IH.
Qed.

Lemma broadcast_shape_refl (s : list nat) : broadcast_shape s s = Some s.
Proof.
  induction s as [| d s IH]; [reflexivity |].
  cbn [broadcast_shape]. now rewrite IH, Nat.eqb_refl.
Qed.

Lemma broadcast_shape_ones_l (s : list nat) :
  broadcast_shape s (repeat 1 (List.length s)) = Some s.
Proof.
  induction s as [| d s IH]; [reflexivity |].
  cbn [List.length repeat broadcast_shape]. rewrite IH.
  destruct (Nat.eqb_spec d 1) as [-> | Hd]; [reflexivity |].
  now rewrite Nat.eqb_refl.
Qed.

Lemma broadcast_shape_app (a b a' b' sa sb : list nat) :
  List.length a = List.length a' ->
  broadcast_shape a a' = Some sa -> broadcast_shape b b' = Some sb ->
  broadcast_shape (a ++ b) (a' ++ b') = Some (sa ++ sb).
Proof.
  revert a' sa. induction a as [| d a IH]; intros [| d' a'] sa Hlen Ha Hb;
    try discriminate.
  - cbn in Ha. injection Ha as <-. exact Hb.
  - cbn [app broadcast_shape] in *.
    destruct (broadcast_shape a a') as [s0 |] eqn:E; [| discriminate].
    rewrite (IH a' s0 ltac:(now injection Hlen) E Hb).
    destruct (d =? d'); [injection Ha as <-; reflexivity |].
    destruct (d =? 1); [injection Ha as <-; reflexivity |].
    destruct (d' =? 1); [injection Ha as <-; reflexivity | discriminate].
Qed.

End SplitAxis.

Lemma getitem_nat {X : Type} (l : list X) (k : nat) (d : X) :
  (k < List.length l)%nat -> getitem l (Z.of_nat k) = Ok (nth k l d).
Proof.
  intros Hk. unfold getitem, norm_index.
  destruct (Z.leb_spec 0 (Z.of_nat k)); [| lia].
  destruct (Z.ltb_spec (Z.of_nat k) (Z.of_nat (List.length l))); [| lia].
  cbn [andb bind]. rewrite Nat2Z.id.
  now rewrite (nth_error_nth' l d Hk).
Qed.

Lemma skipn_cons_nth {X : Type} (l : list X) (j : nat) (d : X) :
  (j < List.length l)%nat -> skipn j l = nth j l d :: skipn (S j) l.
Proof.
  revert j. induction l as [| x l IH]; intros j Hj; cbn [List.length] in Hj;
    [lia |].
  destruct j as [| j]; [reflexivity |].
  cbn [skipn nth]. apply IH. lia.
Qed.

(** The loops of [get_output_for] copy a run of the input's sizes and
    append one ['x'] per copied axis. *)
Lemma copy_loop (x : tensor) (lo : nat) :
  forall (m i : nat) (p : list Z) (q : list (option nat)),
    (lo + i + m <= List.length (tshape x))%nat ->
    for_each (map (fun k => Z.of_nat lo + Z.of_nat k) (seq i m))
      (FeatureWTALayer.copy_axis x) (p, q)
    = Ok (p ++ map Z.of_nat (firstn m (skipn (lo + i) (tshape x))),
          q ++ repeat None m).
Proof.
  induction m as [| m IH]; intros i p q Hm.
  - cbn [seq map for_each firstn repeat]. now rewrite !app_nil_r.
  - cbn [seq map for_each]. unfold FeatureWTALayer.copy_axis at 1.
    rewrite <- Nat2Z.inj_add.
    rewrite (getitem_nat (tensor_shape x) (lo + i) 0)
      by (unfold tensor_shape; rewrite length_map; lia).
    cbn [bind]. rewrite IH by lia.
    rewrite (skipn_cons_nth (tshape x) (lo + i) 0%nat) by lia.
    cbn [firstn map repeat]. rewrite <- !app_assoc. cbn [app].
    unfold tensor_shape.
    rewrite (nth_indep _ 0 (Z.of_nat 0)) by (rewrite length_map; lia).
    rewrite map_nth. now rewrite Nat.add_succ_r.
Qed.

Lemma range_nat (lo m : nat) :
  range (Z.of_nat lo) (Z.of_nat (lo + m))
  = map (fun k => Z.of_nat lo + Z.of_nat k) (seq 0 m).
Proof.
  unfold range. do 2 f_equal. lia.
Qed.

Lemma nth_middle_nat {X : Type} (A : list X) (a d : X) (B : list X) :
  nth (List.length A) (A ++ a :: B) d = a.
Proof. induction A as [| x A IH]; [reflexivity | exact IH]. Qed.

Lemma skipn_past {X : Type} (A : list X) (a : X) (B : list X) :
  skipn (S (List.length A)) (A ++ a :: B) = B.
Proof. induction A as [| x A IH]; [reflexivity | exact IH]. Qed.

(** The first loop copies the sizes before the target axis, the second
    one those after it. *)
Lemma wta_loops (x : tensor) (A B : list nat) (n' : nat) :
  tshape x = A ++ [n'] ++ B ->
  forall p q,
    for_each (range 0 (Z.of_nat (List.length A)))
      (FeatureWTALayer.copy_axis x) (p, q)
    = Ok (p ++ map Z.of_nat A, q ++ repeat None (List.length A))
    /\ for_each (range (Z.of_nat (List.length A) + 1) (ndim x))
         (FeatureWTALayer.copy_axis x) (p, q)
       = Ok (p ++ map Z.of_nat B, q ++ repeat None (List.length B)).
Proof.
  intros Hx p q. split.
  - change 0 with (Z.of_nat 0) at 1.
    change (Z.of_nat (List.length A))
      with (Z.of_nat (0 + List.length A)).
    rewrite range_nat, copy_loop
      by (rewrite Hx, length_app; cbn [List.length app]; lia).
    rewrite Hx. cbn [Nat.add skipn].
    rewrite firstn_app, firstn_all, Nat.sub_diag. cbn [firstn].
    now rewrite app_nil_r.
  - unfold ndim. rewrite Hx at 1.
    replace (Z.of_nat (List.length A) + 1)
      with (Z.of_nat (S (List.length A))) by lia.
    replace (List.length (A ++ [n'] ++ B))
      with (S (List.length A) + List.length B)%nat
      by (rewrite length_app; cbn [List.length app]; lia).
    rewrite range_nat, copy_loop
      by (rewrite Hx, length_app; cbn [List.length app]; lia).
    rewrite Hx, Nat.add_0_r. cbn [app]. rewrite skipn_past.
    now rewrite firstn_all.
Qed.

Lemma norm_index_nat (len k : nat) :
  (k < len)%nat -> norm_index len (Z.of_nat k) = Ok k.
Proof.
  intros Hk. unfold norm_index.
  destruct (Z.leb_spec 0 (Z.of_nat k)); [| lia].
  destruct (Z.ltb_spec (Z.of_nat k) (Z.of_nat len)); [| lia].
  cbn [andb]. now rewrite Nat2Z.id.
Qed.

Lemma reshape_to (t : tensor) (new : list nat) :
  size_of new = List.length (tdata t) ->
  reshape t (map Z.of_nat new) = Ok (mkTensor new (tdata t)).
Proof.
  intros Hsize. unfold reshape.
  assert (Hid : map Z.to_nat (map Z.of_nat new) = new).
  { rewrite map_map. rewrite <- (map_id new) at 2. apply map_ext.
    intros d. apply Nat2Z.id. }
  rewrite Hid, Hsize, Nat.eqb_refl.
  replace (forallb (fun d => 0 <=? d) (map Z.of_nat new)) with true;
    [reflexivity |].
  symmetry. apply forallb_forall. intros d Hd.
  apply in_map_iff in Hd as (k & <- & _). apply Z.leb_le. lia.
Qed.

Lemma position_pattern (a b : nat) :
  position 0 (repeat None a ++ [None; Some 0%nat] ++ repeat None b)
  = Some (S a).
Proof.
  induction a as [| a IH]; [reflexivity |].
  cbn [repeat app position]. cbn [repeat app] in IH. now rewrite IH.
Qed.

Lemma pattern_valid (a b : nat) :
  forallb (fun d : option nat => match d with
                                 | None => true
                                 | Some k => (k <? 1)%nat
                                 end)
    (repeat None a ++ [None; Some 0%nat] ++ repeat None b) = true.
Proof.
  rewrite !forallb_app. cbn [forallb Nat.ltb Nat.leb andb].
  assert (H : forall m, forallb (fun d : option nat => match d with
                                 | None => true
                                 | Some k => (k <? 1)%nat
                                 end) (repeat None m) = true).
  { induction m; [reflexivity | assumption]. }
  now rewrite !H.
Qed.

Lemma pattern_shape (a b ps : nat) :
  map (fun d : option nat => match d with
                             | None => 1%nat
                             | Some k => nth k [ps] 0%nat
                             end)
    (repeat None a ++ [None; Some 0%nat] ++ repeat None b)
  = repeat 1%nat a ++ [1%nat; ps] ++ repeat 1%nat b.
Proof.
  rewrite !map_app. cbn [map nth]. now rewrite !map_repeat.
Qed.

Lemma broadcast_middle (np ps : nat) :
  broadcast_shape [np; 1%nat] [1%nat; ps] = Some [np; ps].
Proof.
  cbn [broadcast_shape].
  destruct (Nat.eqb_spec 1 ps) as [<- | Hps];
    destruct (Nat.eqb_spec np 1) as [-> | Hnp]; reflexivity.
Qed.

(** The value computation, step by step: the reshaped input [xr], the
    arg-max indices [M], the shuffled index range [AR], their comparison
    [E], and the product of the input with [E] read in the input's
    shape. *)
Lemma wta_closed_form (s : shape) (ps : Z) (x : tensor) (A B : list nat)
    (np : nat) :
  1 <= ps -> wf x -> tshape x = A ++ [np * Z.to_nat ps]%nat ++ B ->
  let ax := List.length A in
  let sh := A ++ [np * Z.to_nat ps]%nat ++ B in
  let xr := mkTensor (A ++ [np; Z.to_nat ps] ++ B) (tdata x) in
  let M := tabulate (A ++ [np; 1%nat] ++ B)
             (fun I => Z.of_nat (argmax_list (lane xr (S ax) I))) in
  let AR := tabulate (repeat 1%nat ax ++ [1%nat; Z.to_nat ps]
                        ++ repeat 1%nat (List.length B))
              (fun I => get (arange ps) [nth (S ax) I 0%nat]) in
  let E := tabulate (A ++ [np; Z.to_nat ps] ++ B)
             (fun I => if get M (bidx (A ++ [np; 1%nat] ++ B) I)
                          =? get AR (bidx (repeat 1%nat ax
                                             ++ [1%nat; Z.to_nat ps]
                                             ++ repeat 1%nat (List.length B))
                                       I)
                       then 1 else 0) in
  FeatureWTALayer.get_output_for
    (FeatureWTALayer.mk s ps (Z.of_nat ax)) x
  = Ok (tabulate sh
          (fun I => get x (bidx sh I)
                    * get (mkTensor sh (tdata E)) (bidx sh I))).
Proof.
  intros Hps Hwf Hx ax sh xr M AR E.
  unfold FeatureWTALayer.get_output_for.
  cbn [FeatureWTALayer.axis FeatureWTALayer.pool_size].
  assert (Hrank : List.length (tshape x) = (ax + 1 + List.length B)%nat).
  { rewrite Hx, length_app. cbn [List.length app]. subst ax. lia. }
  rewrite (getitem_nat (tensor_shape x) ax 0)
    by (unfold tensor_shape; rewrite length_map; lia).
  cbn [bind]. unfold tensor_shape at 1.
  rewrite (nth_indep _ 0 (Z.of_nat 0)) by (rewrite length_map; lia).
  rewrite map_nth, Hx. unfold ax at 1. cbn [app]. rewrite nth_middle_nat.
  rewrite floordiv_pos by assumption.
  rewrite Nat2Z.inj_mul, Z2Nat.id, Z.div_mul by lia. cbn [bind].
  destruct (wta_loops x A B _ Hx [] []) as [L1 _].
  fold ax in L1. rewrite L1. clear L1.
  cbn [bind app].
  destruct (wta_loops x A B _ Hx
              (map Z.of_nat A ++ [Z.of_nat np; ps])
              (repeat None (List.length A) ++ [None; Some 0%nat]))
    as [_ L2].
  fold ax in L2. rewrite L2. clear L2. cbn [bind].
  replace ((map Z.of_nat A ++ [Z.of_nat np; ps]) ++ map Z.of_nat B)
    with (map Z.of_nat (A ++ [np; Z.to_nat ps] ++ B))
    by (rewrite !map_app; cbn [map app]; rewrite Z2Nat.id by lia;
        now rewrite <- app_assoc).
  rewrite reshape_to
    by (rewrite size_of_split; unfold wf in Hwf; now rewrite Hwf, Hx).
  cbn [bind]. fold xr.
  unfold argmax.
  replace (Z.of_nat ax + 1) with (Z.of_nat (S ax)) by lia.
  change (tshape xr) with (A ++ np :: Z.to_nat ps :: B).
  rewrite norm_index_nat
    by (rewrite length_app; cbn [List.length]; subst ax; lia).
  cbn [bind]. change (S ax) with (S (List.length A)). rewrite upd_app.
  change (tabulate (A ++ np :: 1%nat :: B) _) with M.
  unfold dimshuffle.
  change (tshape (arange ps)) with [Z.to_nat ps].
  cbn [List.length seq forallb map].
  rewrite <- app_assoc.
  rewrite position_pattern, pattern_valid, pattern_shape. cbn [andb bind].
  change (tabulate (repeat 1%nat ax ++ _) _) with AR.
  unfold eq_t, elemwise.
  change (tshape M) with (A ++ [np; 1%nat] ++ B).
  change (tshape AR) with (repeat 1%nat ax ++ [1%nat; Z.to_nat ps]
                             ++ repeat 1%nat (List.length B)).
  rewrite (broadcast_shape_app A _ _ _ A ([np; Z.to_nat ps] ++ B));
    [| subst ax; now rewrite repeat_length
     | apply broadcast_shape_ones_l
     | apply (broadcast_shape_app [np; 1%nat] B [1%nat; Z.to_nat ps] _
                [np; Z.to_nat ps] B);
       [reflexivity | apply broadcast_middle | apply broadcast_shape_ones_l]].
  cbn [bind]. change (tabulate (A ++ [np; Z.to_nat ps] ++ B) _) with E.
  unfold tensor_shape.
  rewrite reshape_to
    by (subst E; cbn [tdata tabulate]; rewrite length_map, length_seq, Hx;
        now rewrite size_of_split).
  cbn [bind]. unfold mul_t, elemwise. cbn [tshape].
  now rewrite Hx, broadcast_shape_refl.
Qed.

(** The scan either keeps the incoming best, which then bounds the whole
    list, or ends on the first entry that dominates the list and exceeds
    the incoming best. *)
Lemma argmax_from_spec (l : list Z) :
  forall (bi : nat) (best : Z) (i : nat),
    (argmax_from bi best i l = bi /\ forall k, (k < List.length l)%nat -> nth k l 0 <= best)
    \/ exists k,
        argmax_from bi best i l = (i + k)%nat
        /\ (k < List.length l)%nat
        /\ best < nth k l 0
        /\ (forall k', (k' < k)%nat -> nth k' l 0 < nth k l 0)
        /\ (forall k', (k' < List.length l)%nat -> nth k' l 0 <= nth k l 0).
Proof.
  induction l as [| x l IH]; intros bi best i; cbn [argmax_from].
  - left. split; [reflexivity |]. intros k Hk. cbn [List.length] in Hk. lia.
  - destruct (Z.ltb_spec best x) as [Hlt | Hge].
    + right. destruct (IH i x (S i)) as [[Hm Hall] | (k & Hm & Hk & Hbest & Hearly & Hall)].
      * exists 0%nat. rewrite Hm. cbn [List.length nth].
        split; [lia |]. split; [lia |]. split; [assumption |].
        split; [intros; lia |].
        intros [| k'] Hk'; [lia |]. apply Hall. lia.
      * exists (S k). rewrite Hm. cbn [List.length nth].
        split; [lia |]. split; [lia |]. split; [lia |]. split.
        -- intros [| k'] Hk'; [lia |]. apply Hearly. lia.
        -- intros [| k'] Hk'; [lia |]. apply Hall. lia.
    + destruct (IH bi best (S i)) as [[Hm Hall] | (k & Hm & Hk & Hbest & Hearly & Hall)].
      * left. split; [assumption |].
        intros [| k'] Hk'; cbn [nth]; [assumption |]. apply Hall.
        cbn [List.length] in Hk'. lia.
      * right. exists (S k). rewrite Hm. cbn [List.length nth].
        split; [lia |]. split; [lia |]. split; [assumption |]. split.
        -- intros [| k'] Hk'; [lia |]. apply Hearly. lia.
        -- intros [| k'] Hk'; [lia |]. apply Hall. lia.
Qed.

Lemma argmax_list_first_max (l : list Z) :
  l <> [] -> first_max l (argmax_list l).
Proof.
  destruct l as [| x l]; [congruence |]. intros _. unfold argmax_list, first_max.
  destruct (argmax_from_spec l 0%nat x 1%nat)
    as [[Hm Hall] | (k & Hm & Hk & Hbest & Hearly & Hall)]; rewrite Hm.
  - cbn [List.length nth]. split; [lia |]. split; [| intros; lia].
    intros [| k] Hk; [lia |]. apply Hall. lia.
  - cbn [List.length nth Nat.add]. split; [lia |]. split.
    + intros [| k'] Hk'; [lia |]. apply Hall. lia.
    + intros [| k'] Hk'; [assumption |]. apply Hearly. lia.
Qed.

(** A list that is [v] at one index and zero elsewhere has one non-zero
    entry, or none when [v] is zero. *)
Lemma one_hot_count (v : Z) (m n : nat) :
  forall i, (i <= m < i + n)%nat ->
    count_nonzero (map (fun j => if (j =? m)%nat then v else 0) (seq i n))
    = if v =? 0 then 0%nat else 1%nat.
Proof.
  assert (Hz : forall n i, (m < i)%nat ->
             count_nonzero (map (fun j => if (j =? m)%nat then v else 0)
                              (seq i n)) = 0%nat).
  { clear n. induction n as [| n IH]; intros i Hi; [reflexivity |].
    unfold count_nonzero in *. cbn [seq map filter].
    destruct (Nat.eqb_spec i m); [lia |]. cbn [Z.eqb negb].
    apply IH. lia. }
  induction n as [| n IH]; intros i Hi; [lia |].
  unfold count_nonzero in *. cbn [seq map filter].
  destruct (Nat.eqb_spec i m) as [-> | Hne].
  - destruct (v =? 0); cbn [negb List.length]; now rewrite Hz by lia.
  - cbn [Z.eqb negb]. apply IH. lia.
Qed.

Lemma in_bounds_middle (IA A IB B M SM : list nat) :
  in_bounds IA A -> in_bounds M SM -> in_bounds IB B ->
  in_bounds (IA ++ M ++ IB) (A ++ SM ++ B).
Proof. intros. repeat apply Forall2_app; assumption. Qed.

Lemma in_bounds_zeros (m : nat) : in_bounds (repeat 0%nat m) (repeat 1%nat m).
Proof. induction m; constructor; [constructor | assumption]. Qed.

Lemma get_arange (ps : Z) (j : nat) :
  (j < Z.to_nat ps)%nat -> get (arange ps) [j] = Z.of_nat j.
Proof.
  intros Hj. unfold get, arange. cbn [tshape tdata ravel size_of fold_right].
  rewrite Nat.mul_1_r, Nat.add_0_r.
  rewrite (nth_indep _ 0 (Z.of_nat 0)) by now rewrite length_map, length_seq.
  now rewrite map_nth, seq_nth.
Qed.

(** Entry by entry: within a group, the output keeps the input at the
    index [argmax_list] returns and is zero elsewhere. *)
Lemma wta_pointwise (s : shape) (ps : Z) (x : tensor) (A B : list nat)
    (np : nat) :
  1 <= ps -> wf x -> tshape x = A ++ [np * Z.to_nat ps]%nat ++ B ->
  exists out,
    FeatureWTALayer.get_output_for
      (FeatureWTALayer.mk s ps (Z.of_nat (List.length A))) x = Ok out
    /\ tshape out = tshape x
    /\ forall IA g IB j,
         in_bounds IA A -> (g < np)%nat -> in_bounds IB B ->
         (j < Z.to_nat ps)%nat ->
         get out (IA ++ [g * Z.to_nat ps + j]%nat ++ IB)
         = if (j =? argmax_list
                       (map (fun j' => get x (IA ++ [g * Z.to_nat ps + j']%nat
                                                ++ IB))
                          (seq 0 (Z.to_nat ps))))%nat
           then get x (IA ++ [g * Z.to_nat ps + j]%nat ++ IB)
           else 0.
Proof.
  intros Hps Hwf Hx.
  pose proof (wta_closed_form s ps x A B np Hps Hwf Hx) as Hout.
  cbv zeta in Hout. rewrite Hout. clear Hout.
  eexists. split; [reflexivity |]. split; [now rewrite Hx |].
  intros IA g IB j HIA Hg HIB Hj.
  set (ps' := Z.to_nat ps) in *.
  assert (HlenA : List.length IA = List.length A) by apply (Forall2_length HIA).
  assert (HI : in_bounds (IA ++ [g * ps' + j]%nat ++ IB)
                 (A ++ [np * ps']%nat ++ B)).
  { apply in_bounds_middle; try assumption.
    bounds. }
  assert (HI' : in_bounds (IA ++ [g; j] ++ IB) (A ++ [np; ps'] ++ B)).
  { apply in_bounds_middle; try assumption. bounds. }
  assert (HI0 : in_bounds (IA ++ [g; 0%nat] ++ IB) (A ++ [np; 1%nat] ++ B)).
  { apply in_bounds_middle; try assumption.
    bounds. }
  rewrite get_tabulate by assumption.
  rewrite (bidx_in_bounds _ _ HI).
  (* the mask, read through the reshape *)
  unfold get at 2. cbn [tshape tdata]. rewrite <- ravel_split by assumption.
  match goal with
  | |- context [nth (ravel ?S ?J) (tdata ?E) 0] =>
      change (nth (ravel S J) (tdata E) 0) with (get E J)
  end.
  rewrite get_tabulate by assumption.
  (* the broadcast positions *)
  rewrite (bidx_app A _ IA _ HlenA).
  rewrite (bidx_in_bounds _ _ HIA).
  rewrite (bidx_app [np; 1%nat] B [g; j] IB eq_refl).
  rewrite (bidx_in_bounds _ _ HIB).
  replace (bidx [np; 1%nat] [g; j]) with [g; 0%nat]
    by (unfold bidx; cbn [zip_with Nat.eqb];
        destruct (Nat.eqb_spec np 1); [f_equal; lia | reflexivity]).
  rewrite (bidx_app (repeat 1%nat (List.length A)) _ IA _)
    by now rewrite repeat_length.
  rewrite <- HlenA, bidx_ones.
  rewrite (bidx_app [1%nat; ps'] _ [g; j] IB eq_refl).
  rewrite <- (Forall2_length HIB), bidx_ones.
  replace (bidx [1%nat; ps'] [g; j]) with [0%nat; j]
    by (unfold bidx; cbn [zip_with Nat.eqb];
        destruct (Nat.eqb_spec ps' 1); [do 2 f_equal; lia | reflexivity]).
  rewrite get_tabulate by exact HI0.
  rewrite get_tabulate
    by (apply in_bounds_middle; try apply in_bounds_zeros; bounds).
  rewrite <- (repeat_length 0%nat (List.length IA)) at 2.
  cbn [app]. rewrite nth_app_second.
  rewrite get_arange by assumption.
  (* the lane of the reshaped input is the group of the input *)
  unfold lane. cbn [tshape].
  assert (Hn : nth (S (List.length IA)) (A ++ np :: ps' :: B) 0%nat = ps')
    by (rewrite HlenA; apply nth_app_second).
  rewrite Hn.
  assert (Hlane : map (fun j0 => get {| tshape := A ++ np :: ps' :: B;
                                        tdata := tdata x |}
                                   (upd (IA ++ g :: 0%nat :: IB)
                                      (S (List.length IA)) j0))
                    (seq 0 ps')
                  = map (fun j' => get x (IA ++ (g * ps' + j')%nat :: IB))
                      (seq 0 ps')).
  { apply map_ext. intros j0. rewrite upd_app.
    unfold get. cbn [tshape tdata]. rewrite Hx.
    change (ravel (A ++ np :: ps' :: B) (IA ++ g :: j0 :: IB))
      with (ravel (A ++ [np; ps'] ++ B) (IA ++ [g; j0] ++ IB)).
    now rewrite ravel_split by assumption. }
  rewrite Hlane.
  set (m := argmax_list _).
  destruct (Nat.eqb_spec j m) as [-> | Hne].
  - rewrite Z.eqb_refl. lia.
  - destruct (Z.eqb_spec (Z.of_nat m) (Z.of_nat j)); [lia | lia].
Qed.

Lemma FeatureWTALayer_init_known (x : tensor) (ps : Z) (A B : list nat)
    (np : nat) :
  1 <= ps -> tshape x = A ++ [np * Z.to_nat ps]%nat ++ B ->
  FeatureWTALayer.init cls_FeatureWTALayer (FromShape (shape_of x)) ps
    (Z.of_nat (List.length A))
  = Ok (FeatureWTALayer.mk (shape_of x) ps (Z.of_nat (List.length A))).
Proof.
  intros Hps Hx. unfold FeatureWTALayer.init. super_ok.
  rewrite (getitem_nat (shape_of x) (List.length A) (Some (Z.of_nat 0)))
    by (unfold shape_of; rewrite length_map, Hx, length_app;
        cbn [List.length app]; lia).
  unfold shape_of at 1.
  rewrite (map_nth (fun d => Some (Z.of_nat d))), Hx. cbn [app].
  rewrite nth_middle_nat. cbn [bind].
  rewrite pymod_nonzero by lia.
  rewrite Nat2Z.inj_mul, Z2Nat.id, Z.mod_mul by lia. reflexivity.
Qed.

(** C5, as the code has it, for a non-negative target axis and a tensor
    of integers: for every such input whose size along the target axis
    is a multiple of [pool_size >= 1], the layer can be built and its
    output has the shape of the input; in each [pool_size]-group
    along the axis the entry at the within-group index of the group's
    first maximum (the lowest index among ties) keeps the input's value
    and every other entry is zero.  The group therefore has exactly one
    non-zero entry when its maximum is non-zero and none when its maximum
    is zero. *)
Theorem FeatureWTALayer_keeps_first_maximum (ps : Z) (x : tensor)
    (A B : list nat) (np : nat) :
  1 <= ps -> wf x -> tshape x = A ++ [np * Z.to_nat ps]%nat ++ B ->
  exists self out,
    FeatureWTALayer.init cls_FeatureWTALayer (FromShape (shape_of x)) ps
      (Z.of_nat (List.length A)) = Ok self
    /\ FeatureWTALayer.get_output_for self x = Ok out
    /\ tshape out = tshape x
    /\ forall IA g IB,
         in_bounds IA A -> (g < np)%nat -> in_bounds IB B ->
         let pos := fun j => IA ++ [g * Z.to_nat ps + j]%nat ++ IB in
         let group := map (fun j => get x (pos j)) (seq 0 (Z.to_nat ps)) in
         exists m,
           first_max group m
           /\ (forall j, (j < Z.to_nat ps)%nat ->
                 get out (pos j)
                 = if (j =? m)%nat then get x (pos j) else 0)
           /\ count_nonzero (map (fun j => get out (pos j))
                               (seq 0 (Z.to_nat ps)))
              = if nth m group 0 =? 0 then 0%nat else 1%nat.
Proof.
  intros Hps Hwf Hx.
  destruct (wta_pointwise (shape_of x) ps x A B np Hps Hwf Hx)
    as (out & Hout & Hshape & Hget).
  exists (FeatureWTALayer.mk (shape_of x) ps (Z.of_nat (List.length A))), out.
  split; [now apply (FeatureWTALayer_init_known x ps A B np) |].
  split; [exact Hout | split; [exact Hshape |]].
  intros IA g IB HIA Hg HIB pos group.
  assert (Hfm : first_max group (argmax_list group)).
  { apply argmax_list_first_max. subst group.
    destruct (Z.to_nat ps) eqn:E; [lia | discriminate]. }
  exists (argmax_list group). split; [exact Hfm | split].
  - intros j Hj. subst pos group. cbv beta. now apply Hget.
  - destruct Hfm as [Hm _].
    assert (Hlen : List.length group = Z.to_nat ps)
      by (subst group; now rewrite length_map, length_seq).
    rewrite Hlen in Hm.
    rewrite <- (one_hot_count (nth (argmax_list group) group 0)
                  (argmax_list group) (Z.to_nat ps) 0) by lia.
    f_equal. apply map_ext_in. intros j Hj. apply in_seq in Hj.
    subst pos. cbv beta. rewrite Hget by (assumption || lia).
    fold group.
    destruct (Nat.eqb_spec j (argmax_list group)) as [-> | _];
      [| reflexivity].
    subst group.
    rewrite (nth_indep _ 0 (get x (IA ++ [g * Z.to_nat ps + 0]%nat ++ IB)))
      by (rewrite length_map, length_seq; exact Hm).
    rewrite (map_nth (fun j => get x (IA ++ [g * Z.to_nat ps + j]%nat ++ IB))).
    now rewrite seq_nth by exact Hm.
Qed.

Lemma FeatureWTALayer_keeps_first_maximum_witness :
  exists self out,
    FeatureWTALayer.init cls_FeatureWTALayer
      (FromShape (shape_of (mkTensor [1; 4]%nat [3; 3; -1; 0]))) 2
      (Z.of_nat (List.length [1%nat])) = Ok self
    /\ FeatureWTALayer.get_output_for self
         (mkTensor [1; 4]%nat [3; 3; -1; 0]) = Ok out
    /\ tshape out = [1; 4]%nat.
Proof.
  destruct (FeatureWTALayer_keeps_first_maximum 2
              (mkTensor [1; 4]%nat [3; 3; -1; 0]) [1%nat] [] 2%nat
              ltac:(lia) eq_refl eq_refl)
    as (self & out & H1 & H2 & H3 & _).
  exists self, out. auto.
Defined.

(** C5, as stated, fails on a group whose maximum is zero: the winner
    keeps its value, which is zero, and the group has no non-zero entry
    although the axis size 3 is a multiple of the pool size 3. *)
Lemma FeatureWTALayer_zero_maximum :
  FeatureWTALayer.get_output_for
    (FeatureWTALayer.mk [Some 1; Some 3] 3 1)
    (mkTensor [1; 3]%nat [-2; 0; -1])
  = Ok (mkTensor [1; 3]%nat [0; 0; 0])
  /\ count_nonzero [0; 0; 0] = 0%nat.
Proof. split; reflexivity. Qed.

(** * Further properties of the module *)

(** ** The output length as a count of pooling regions *)

(** Floor division, by its two defining inequalities. *)
Lemma floor_bounds (a s : Z) : 1 <= s -> (a / s) * s <= a < (a / s + 1) * s.
Proof.
  intros Hs. pose proof (Z.div_mod a s ltac:(lia)).
  pose proof (Z.mod_pos_bound a s ltac:(lia)). nia.
Qed.

Lemma floor_unique (a s q : Z) :
  1 <= s -> q * s <= a < (q + 1) * s -> a / s = q.
Proof.
  intros Hs H. symmetry. apply (Z.div_unique a s q (a - q * s)); lia.
Qed.

(** X1: the outcomes of [pool_output_length].  An unknown input length or
    pool size gives an unknown output length, before any check.  With
    both known, [ignore_border=False] with a non-zero [pad] fails the
    assertion, whatever the stride; otherwise a zero stride is a division
    by zero; otherwise a length is returned. *)
Theorem pool_output_length_errors (input_length pool_size : option Z)
    (n p stride pad : Z) (ignore_border : bool) :
  pool_output_length None pool_size stride pad ignore_border = Ok None
  /\ pool_output_length input_length None stride pad ignore_border = Ok None
  /\ (if negb ignore_border && negb (pad =? 0)
      then pool_output_length (Some n) (Some p) stride pad ignore_border
           = Raise AssertionError
      else if stride =? 0
      then pool_output_length (Some n) (Some p) stride pad ignore_border
           = Raise ZeroDivisionError
      else exists l,
          pool_output_length (Some n) (Some p) stride pad ignore_border
          = Ok (Some l)).
Proof.
  split; [reflexivity | split; [now destruct input_length |]].
  unfold pool_output_length, floordiv.
  destruct ignore_border; cbn [negb andb].
  - destruct (stride =? 0); [reflexivity | eexists; reflexivity].
  - destruct (pad =? 0); cbn [negb]; [| reflexivity].
    destruct (stride =? 0).
    + now destruct (stride >=? p).
    + destruct (stride >=? p); eexists; reflexivity.
Qed.

(** X2: with [ignore_border=True] and a stride of at least 1, the returned
    length [l] counts the regions that fit in the padded input: region
    number [l - 1] ends inside it and region number [l] would not.  It is
    therefore not positive exactly when the pool is longer than the
    padded input, and negative exactly when it is longer by more than the
    stride. *)
Theorem pool_output_length_regions_fit (n p stride pad : Z) :
  1 <= stride ->
  exists l,
    pool_output_length (Some n) (Some p) stride pad true = Ok (Some l)
    /\ (l - 1) * stride + p <= n + 2 * pad < l * stride + p
    /\ (l <= 0 <-> n + 2 * pad < p)
    /\ (l < 0 <-> n + 2 * pad + stride < p).
Proof.
  intros Hs. unfold pool_output_length. rewrite floordiv_pos by assumption.
  cbn [bind]. eexists. split; [reflexivity |].
  pose proof (floor_bounds (n + 2 * pad - p + 1 + stride - 1) stride Hs).
  set (l := (n + 2 * pad - p + 1 + stride - 1) / stride) in *.
  repeat split; nia.
Qed.

Lemma pool_output_length_regions_fit_witness :
  exists l,
    pool_output_length (Some 7) (Some 3) 2 1 true = Ok (Some l)
    /\ (l - 1) * 2 + 3 <= 7 + 2 * 1 < l * 2 + 3
    /\ (l <= 0 <-> 7 + 2 * 1 < 3)
    /\ (l < 0 <-> 7 + 2 * 1 + 2 < 3).
Proof. apply (pool_output_length_regions_fit 7 3 2 1). lia. Defined.

(** X3: with [ignore_border=False], no padding, and a pool size, stride
    and input length of at least 1, the returned length [l] is at least
    1, the last region starts inside the input, and the regions together
    with the strides between them reach the end of the input. *)
Theorem pool_output_length_partial_cover (n p stride : Z) :
  1 <= p -> 1 <= stride -> 1 <= n ->
  exists l,
    pool_output_length (Some n) (Some p) stride 0 false = Ok (Some l)
    /\ 1 <= l
    /\ (l - 1) * stride < n <= (l - 1) * stride + Z.max p stride.
Proof.
  intros Hp Hs Hn. unfold pool_output_length. cbn [Z.eqb negb].
  rewrite !floordiv_pos by assumption.
  destruct (Z.geb_spec stride p) as [Hge | Hlt]; cbn [bind];
    eexists; (split; [reflexivity |]).
  - pose proof (floor_bounds (n + stride - 1) stride Hs).
    set (l := (n + stride - 1) / stride) in *. nia.
  - pose proof (floor_bounds (n - p + stride - 1) stride Hs).
    set (q := (n - p + stride - 1) / stride) in *. nia.
Qed.

Lemma pool_output_length_partial_cover_witness :
  exists l,
    pool_output_length (Some 8) (Some 3) 2 0 false = Ok (Some l)
    /\ 1 <= l
    /\ (l - 1) * 2 < 8 <= (l - 1) * 2 + Z.max 3 2.
Proof.
  apply (pool_output_length_partial_cover 8 3 2); lia.
Defined.

(** X4: the two border modes compared, without padding, for a pool that
    fits in the input and a stride of at least 1.  [ignore_border=False]
    returns the length [lt] of [ignore_border=True], plus one partial
    region exactly when input is left beyond both the last complete
    region and the last stride. *)
Theorem pool_output_length_partial_region (n p stride : Z) :
  1 <= p -> p <= n -> 1 <= stride ->
  exists lt lf,
    pool_output_length (Some n) (Some p) stride 0 true = Ok (Some lt)
    /\ pool_output_length (Some n) (Some p) stride 0 false = Ok (Some lf)
    /\ 1 <= lt
    /\ lf = if Z.max ((lt - 1) * stride + p) (lt * stride) <? n
            then lt + 1 else lt.
Proof.
  intros Hp Hn Hs. unfold pool_output_length. cbn [Z.eqb negb].
  rewrite !floordiv_pos by assumption. cbn [bind].
  pose proof (floor_bounds (n + 2 * 0 - p + 1 + stride - 1) stride Hs) as Ht.
  set (lt := (n + 2 * 0 - p + 1 + stride - 1) / stride) in *.
  exists lt.
  destruct (Z.geb_spec stride p) as [Hge | Hlt]; cbn [bind];
    eexists; (split; [reflexivity |]); (split; [reflexivity |]);
    (split; [nia |]).
  - destruct (Z.ltb_spec (Z.max ((lt - 1) * stride + p) (lt * stride)) n).
    + apply floor_unique; [assumption | nia].
    + apply floor_unique; [assumption | nia].
  - pose proof (floor_bounds (n - p + stride - 1) stride Hs) as Hf.
    set (q := (n - p + stride - 1) / stride) in *.
    destruct (Z.ltb_spec (Z.max ((lt - 1) * stride + p) (lt * stride)) n);
      nia.
Qed.

Lemma pool_output_length_partial_region_witness :
  exists lt lf,
    pool_output_length (Some 8) (Some 3) 2 0 true = Ok (Some lt)
    /\ pool_output_length (Some 8) (Some 3) 2 0 false = Ok (Some lf)
    /\ 1 <= lt
    /\ lf = if Z.max ((lt - 1) * 2 + 3) (lt * 2) <? 8 then lt + 1 else lt.
Proof.
  apply (pool_output_length_partial_region 8 3 2); lia.
Defined.

(** X5: how the output length moves with its arguments.  With
    [ignore_border=True], padding by [pad] on both sides is the same as
    an input longer by [2*pad].  For a stride of at least 1, an input
    longer by one stride gives exactly one more output position: always
    with [ignore_border=True], and with [ignore_border=False] and no
    padding as soon as the pool is shorter than the input plus one
    stride. *)
Theorem pool_output_length_shifts (n p stride pad : Z) :
  pool_output_length (Some n) (Some p) stride pad true
  = pool_output_length (Some (n + 2 * pad)) (Some p) stride 0 true
  /\ (1 <= stride ->
      exists l,
        pool_output_length (Some n) (Some p) stride pad true = Ok (Some l)
        /\ pool_output_length (Some (n + stride)) (Some p) stride pad true
           = Ok (Some (l + 1)))
  /\ (1 <= stride -> p < n + stride ->
      exists l,
        pool_output_length (Some n) (Some p) stride 0 false = Ok (Some l)
        /\ pool_output_length (Some (n + stride)) (Some p) stride 0 false
           = Ok (Some (l + 1))).
Proof.
  split; [| split].
  - unfold pool_output_length. do 2 f_equal. lia.
  - intros Hs. unfold pool_output_length.
    rewrite !floordiv_pos by assumption. cbn [bind].
    eexists. split; [reflexivity |]. do 2 f_equal.
    replace (n + stride + 2 * pad - p + 1 + stride - 1)
      with (n + 2 * pad - p + 1 + stride - 1 + 1 * stride) by ring.
    apply Z.div_add. lia.
  - intros Hs Hp. unfold pool_output_length. cbn [Z.eqb negb].
    rewrite !floordiv_pos by assumption.
    destruct (Z.geb_spec stride p) as [Hge | Hlt]; cbn [bind];
      eexists; (split; [reflexivity |]); do 2 f_equal.
    + replace (n + stride + stride - 1)
        with (n + stride - 1 + 1 * stride) by ring.
      apply Z.div_add. lia.
    + replace (n + stride - p + stride - 1)
        with (n - p + stride - 1 + 1 * stride) by ring.
      rewrite Z.div_add by lia.
      assert (0 <= (n - p + stride - 1) / stride)
        by (apply Z.div_pos; lia).
      lia.
Qed.

Lemma pool_output_length_shifts_witness :
  exists l,
    pool_output_length (Some 2) (Some 3) 2 0 false = Ok (Some l)
    /\ pool_output_length (Some (2 + 2)) (Some 3) 2 0 false
       = Ok (Some (l + 1)).
Proof.
  apply (proj2 (proj2 (pool_output_length_shifts 2 3 2 0))); lia.
Defined.

(** ** Shape inference of upscaling followed by pooling *)

Lemma pool_after_scale (v k : Z) (ignore_border : bool) :
  1 <= k ->
  pool_output_length (Some (v * k)) (Some k) k 0 ignore_border = Ok (Some v).
Proof.
  intros Hk. unfold pool_output_length. cbn [Z.eqb negb].
  rewrite !floordiv_pos by assumption.
  destruct ignore_border; [| destruct (Z.geb_spec k k); [| lia]];
    cbn [bind]; do 2 f_equal; apply floor_unique; lia.
Qed.

(** X6: shape inference of an upscaling layer by [k >= 1] followed by
    shape inference of a pooling layer with pool size and stride [k] and
    no padding returns the input shape, unknown sizes included, in either
    border mode: for the 1D, 2D and 3D layers. *)
Theorem pool_shape_inverts_upscale_shape (s s' : shape)
    (n c h w d : option Z) (k : Z) (umode pmode : string)
    (ignore_border : bool) :
  1 <= k ->
  (u <- Upscale2DLayer.get_output_shape_for
          (Upscale2DLayer.mk s [k; k] umode) [n; c; h; w] ;;
   Pool2DLayer.get_output_shape_for
     (Pool2DLayer.mk s' [k; k] [k; k] [0; 0] ignore_border pmode) u)
  = Ok [n; c; h; w]
  /\ (u <- Upscale1DLayer.get_output_shape_for
             (Upscale1DLayer.mk s [k] umode) [n; c; h] ;;
      Pool1DLayer.get_output_shape_for
        (Pool1DLayer.mk s' [k] [k] [0] ignore_border pmode) u)
     = Ok [n; c; h]
  /\ (u <- Upscale3DLayer.get_output_shape_for
             (Upscale3DLayer.mk s [k; k; k] umode) [n; c; h; w; d] ;;
      Pool3DLayer.get_output_shape_for
        (Pool3DLayer.mk s' [k; k; k] [k; k; k] [0; 0; 0] ignore_border
           pmode) u)
     = Ok [n; c; h; w; d].
Proof.
  intros Hk. split; [| split].
  - unfold Upscale2DLayer.get_output_shape_for, scale_axis,
      Pool2DLayer.get_output_shape_for, pool_axis.
    cbn [Upscale2DLayer.scale_factor Pool2DLayer.pool_size Pool2DLayer.stride
         Pool2DLayer.pad Pool2DLayer.ignore_border].
    destruct h as [h |], w as [w |]; py_items;
      rewrite ?pool_after_scale by assumption; cbn [bind pool_output_length];
      py_items; reflexivity.
  - unfold Upscale1DLayer.get_output_shape_for, scale_axis,
      Pool1DLayer.get_output_shape_for, pool_axis.
    cbn [Upscale1DLayer.scale_factor Pool1DLayer.pool_size Pool1DLayer.stride
         Pool1DLayer.pad Pool1DLayer.ignore_border].
    destruct h as [h |]; py_items;
      rewrite ?pool_after_scale by assumption; cbn [bind pool_output_length];
      py_items; reflexivity.
  - unfold Upscale3DLayer.get_output_shape_for, scale_axis,
      Pool3DLayer.get_output_shape_for, pool_axis.
    cbn [Upscale3DLayer.scale_factor Pool3DLayer.pool_size Pool3DLayer.stride
         Pool3DLayer.pad Pool3DLayer.ignore_border].
    destruct h as [h |], w as [w |], d as [d |]; py_items;
      rewrite ?pool_after_scale by assumption; cbn [bind pool_output_length];
      py_items;
      rewrite ?pool_after_scale by assumption; cbn [bind pool_output_length];
      py_items; reflexivity.
Qed.

Lemma pool_shape_inverts_upscale_shape_witness :
  (u <- Upscale2DLayer.get_output_shape_for
          (Upscale2DLayer.mk [] [3; 3] "repeat")
          [None; Some 2; Some 5; None] ;;
   Pool2DLayer.get_output_shape_for
     (Pool2DLayer.mk [] [3; 3] [3; 3] [0; 0] false "max") u)
  = Ok [None; Some 2; Some 5; None].
Proof.
  apply (proj1 (pool_shape_inverts_upscale_shape [] [] None (Some 2)
                  (Some 5) None None 3 "repeat" "max" false ltac:(lia))).
Defined.

(** ** Validation in the upscaling constructors *)

Lemma valid_upscale_mode_iff (mode : string) :
  valid_upscale_mode mode = true
  <-> mode = "repeat"%string \/ mode = "dilate"%string.
Proof.
  unfold valid_upscale_mode. rewrite orb_true_iff, !String.eqb_eq. tauto.
Qed.

(** The outcome of a constructor whose checks are a scale test followed
    by a mode test. *)
Lemma checked_outcome {L : Type} (bad : bool) (mode : string) (e : exn)
    (l : L) (r : result L) :
  r = (if bad then Raise e
       else if negb (valid_upscale_mode mode) then Raise (mode_error mode)
       else Ok l) ->
  ((exists l', r = Ok l')
   <-> bad = false /\ (mode = "repeat"%string \/ mode = "dilate"%string))
  /\ (bad = true -> r = Raise e)
  /\ (bad = false ->
      ~ (mode = "repeat"%string \/ mode = "dilate"%string) ->
      r = Raise (mode_error mode)).
Proof.
  intros ->. rewrite <- valid_upscale_mode_iff.
  destruct bad; destruct (valid_upscale_mode mode); cbn [negb];
    (split; [split; [intros [l' H]; try discriminate; split; reflexivity
                    | intros [H1 H2]; try discriminate; eexists; reflexivity]
            | split; [intros H; try discriminate; reflexivity
                     | intros H1 H2; try discriminate; try reflexivity;
                       exfalso; apply H2; reflexivity]]).
Qed.

(** X7: what the upscaling constructors validate.  Each one succeeds
    exactly when every scale factor is at least 1 and the mode is
    ['repeat'] or ['dilate'].  A scale factor below 1 is reported first,
    with the whole tuple in the message; with valid factors, any other
    mode is reported with the mode in the message. *)
Theorem upscale_init_validates (s : shape) (a b c : Z) (mode : string) :
  let valid := mode = "repeat"%string \/ mode = "dilate"%string in
  let mode_msg := ValueError ("Mode must be either 'repeat' or 'dilate', not "
                              ++ mode) in
  let scale_msg := fun t => ValueError ("Scale factor must be >= 1, not "
                                        ++ repr_ints t) in
  let r1 := Upscale1DLayer.init cls_Upscale1DLayer (FromShape s) (Seq [a])
              mode in
  let r2 := Upscale2DLayer.init cls_Upscale2DLayer (FromShape s)
              (Seq [a; b]) mode in
  let r3 := Upscale3DLayer.init cls_Upscale3DLayer (FromShape s)
              (Seq [a; b; c]) mode in
  (((exists l, r1 = Ok l) <-> 1 <= a /\ valid)
   /\ (a < 1 -> r1 = Raise (scale_msg [a]))
   /\ (1 <= a -> ~ valid -> r1 = Raise mode_msg))
  /\ (((exists l, r2 = Ok l) <-> (1 <= a /\ 1 <= b) /\ valid)
      /\ (a < 1 \/ b < 1 -> r2 = Raise (scale_msg [a; b]))
      /\ (1 <= a /\ 1 <= b -> ~ valid -> r2 = Raise mode_msg))
  /\ (((exists l, r3 = Ok l) <-> (1 <= a /\ 1 <= b /\ 1 <= c) /\ valid)
      /\ (a < 1 \/ b < 1 \/ c < 1 -> r3 = Raise (scale_msg [a; b; c]))
      /\ (1 <= a /\ 1 <= b /\ 1 <= c -> ~ valid -> r3 = Raise mode_msg)).
Proof.
  intros valid mode_msg scale_msg r1 r2 r3.
  assert (E1 : r1 = if a <? 1 then Raise (scale_msg [a])
                    else if negb (valid_upscale_mode mode)
                    then Raise (mode_error mode)
                    else Ok (Upscale1DLayer.mk s [a] mode)).
  { subst r1. unfold Upscale1DLayer.init. super_ok.
    change (List.length [a] =? 1)%nat with true. cbv iota. cbn [bind].
    py_items. reflexivity. }
  assert (E2 : r2 = if (a <? 1) || (b <? 1) then Raise (scale_msg [a; b])
                    else if negb (valid_upscale_mode mode)
                    then Raise (mode_error mode)
                    else Ok (Upscale2DLayer.mk s [a; b] mode)).
  { subst r2. unfold Upscale2DLayer.init. super_ok.
    change (List.length [a; b] =? 2)%nat with true. cbv iota. cbn [bind].
    py_items. reflexivity. }
  assert (E3 : r3 = if (a <? 1) || (b <? 1) || (c <? 1)
                    then Raise (scale_msg [a; b; c])
                    else if negb (valid_upscale_mode mode)
                    then Raise (mode_error mode)
                    else Ok (Upscale3DLayer.mk s [a; b; c] mode)).
  { subst r3. unfold Upscale3DLayer.init. super_ok.
    change (List.length [a; b; c] =? 3)%nat with true. cbv iota. cbn [bind].
    py_items. reflexivity. }
  clearbody r1 r2 r3.
  apply checked_outcome in E1 as (A1 & B1 & C1).
  apply checked_outcome in E2 as (A2 & B2 & C2).
  apply checked_outcome in E3 as (A3 & B3 & C3).
  fold valid in A1, A2, A3, C1, C2, C3.
  change (mode_error mode) with mode_msg in *.
  rewrite !orb_false_iff, !Z.ltb_ge in *.
  rewrite !orb_true_iff, !Z.ltb_lt in *.
  repeat split; try tauto; intros; try (apply A1 || apply A2 || apply A3);
    try tauto.
  all: try (apply C1; tauto). all: try (apply C2; tauto).
  all: try (apply C3; tauto).
Qed.

Lemma upscale_init_validates_witness :
  Upscale2DLayer.init cls_Upscale2DLayer
    (FromShape [None; Some 1; Some 2; Some 2]) (Seq [2; 0]) "nearest"
  = Raise (ValueError ("Scale factor must be >= 1, not "
                       ++ repr_ints [2; 0])).
Proof.
  pose proof (upscale_init_validates [None; Some 1; Some 2; Some 2] 2 0 1
                "nearest") as H.
  cbv zeta in H. destruct H as (_ & (_ & H & _) & _).
  apply H. right. lia.
Defined.

(** ** Layers built by the pooling constructors *)

Lemma as_tuple_length (x : int_or_seq) (n : nat) (t : list Z) :
  as_tuple x n = Ok t -> List.length t = n.
Proof.
  destruct x as [z | t0]; cbn [as_tuple].
  - intros [= <-]. apply repeat_length.
  - destruct (Nat.eqb_spec (List.length t0) n); [| discriminate].
    now intros [= <-].
Qed.

Lemma pool_output_length_defined (il : option Z) (p st pad : Z) (ib : bool) :
  st <> 0 -> ib = true \/ pad = 0 ->
  exists r,
    pool_output_length il (Some p) st pad ib = Ok r
    /\ (r = None <-> il = None).
Proof.
  intros Hst Hpad. destruct il as [n |]; [| exists None; now split].
  unfold pool_output_length, floordiv.
  destruct (Z.eqb_spec st 0); [contradiction |].
  destruct ib.
  - cbn [bind]. eexists. split; [reflexivity |]. split; discriminate.
  - destruct Hpad as [| ->]; [discriminate |]. cbn [Z.eqb negb].
    destruct (st >=? p); cbn [bind]; eexists; (split; [reflexivity |]);
      split; discriminate.
Qed.

Lemma length_1 {A : Type} (s : list A) :
  List.length s = 1%nat -> exists a, s = [a].
Proof.
  destruct s as [| a [| b s]]; try discriminate. intros _. now exists a.
Qed.

Lemma length_2 {A : Type} (s : list A) :
  List.length s = 2%nat -> exists a b, s = [a; b].
Proof.
  destruct s as [| a [| b [| c s]]]; try discriminate.
  intros _. now exists a, b.
Qed.

Lemma Pool2DLayer_init_inv (self_class : class_name) (inc : incoming)
    (pool_size : int_or_seq) (stride : option int_or_seq) (pad : int_or_seq)
    (ignore_border : bool) (mode : string) (l : Pool2DLayer.t) :
  Pool2DLayer.init self_class inc pool_size stride pad ignore_border mode
  = Ok l ->
  List.length (Pool2DLayer.input_shape l) = 4%nat
  /\ List.length (Pool2DLayer.pool_size l) = 2%nat
  /\ List.length (Pool2DLayer.stride l) = 2%nat
  /\ List.length (Pool2DLayer.pad l) = 2%nat
  /\ Pool2DLayer.ignore_border l = ignore_border
  /\ Pool2DLayer.mode l = mode.
Proof.
  unfold Pool2DLayer.init, super_init.
  destruct (issubclass self_class cls_Pool2DLayer); [| discriminate].
  destruct inc as [s | s]; cbn [Layer_init bind];
    (destruct (as_tuple pool_size 2) as [ps |] eqn:Eps; cbn [bind];
     [| discriminate]);
    (destruct (Nat.eqb_spec (List.length s) 4); cbn [negb];
     [| discriminate]);
    (destruct stride as [st |];
     [destruct (as_tuple st 2) as [st' |] eqn:Est; cbn [bind];
      [| discriminate] |]);
    (destruct (as_tuple pad 2) as [pd |] eqn:Epd; cbn [bind];
     [| discriminate]);
    intros [= <-]; cbn;
    repeat match goal with
           | H : as_tuple _ _ = Ok _ |- _ => apply as_tuple_length in H
           end; auto 10.
Qed.

Lemma Pool1DLayer_init_inv (self_class : class_name) (inc : incoming)
    (pool_size : int_or_seq) (stride : option int_or_seq) (pad : int_or_seq)
    (ignore_border : bool) (mode : string) (l : Pool1DLayer.t) :
  Pool1DLayer.init self_class inc pool_size stride pad ignore_border mode
  = Ok l ->
  List.length (Pool1DLayer.input_shape l) = 3%nat
  /\ List.length (Pool1DLayer.pool_size l) = 1%nat
  /\ List.length (Pool1DLayer.stride l) = 1%nat
  /\ List.length (Pool1DLayer.pad l) = 1%nat
  /\ Pool1DLayer.ignore_border l = ignore_border
  /\ Pool1DLayer.mode l = mode.
Proof.
  unfold Pool1DLayer.init, super_init.
  destruct (issubclass self_class cls_Pool1DLayer); [| discriminate].
  destruct inc as [s | s]; cbn [Layer_init bind];
    (destruct (Nat.eqb_spec (List.length s) 3); cbn [negb];
     [| discriminate]);
    (destruct (as_tuple pool_size 1) as [ps |] eqn:Eps; cbn [bind];
     [| discriminate]);
    (destruct stride as [st |];
     [destruct (as_tuple st 1) as [st' |] eqn:Est; cbn [bind];
      [| discriminate] |]);
    (destruct (as_tuple pad 1) as [pd |] eqn:Epd; cbn [bind];
     [| discriminate]);
    intros [= <-]; cbn;
    repeat match goal with
           | H : as_tuple _ _ = Ok _ |- _ => apply as_tuple_length in H
           end; auto 10.
Qed.

(** X8: the max-pooling shortcuts are their base layers with
    [mode='max']: construction succeeds or fails exactly as the base
    constructor does with that mode, and a layer they build computes
    [pool_2d] in mode ['max'] with the stored sizes. *)
Theorem maxpool_is_pool_with_mode_max (inc : incoming)
    (pool_size : int_or_seq) (stride : option int_or_seq) (pad : int_or_seq)
    (ignore_border : bool) :
  MaxPool1DLayer.init cls_MaxPool1DLayer inc pool_size stride pad
    ignore_border
  = Pool1DLayer.init cls_Pool1DLayer inc pool_size stride pad ignore_border
      "max"
  /\ MaxPool2DLayer.init cls_MaxPool2DLayer inc pool_size stride pad
       ignore_border
     = Pool2DLayer.init cls_Pool2DLayer inc pool_size stride pad
         ignore_border "max"
  /\ (forall l,
         MaxPool1DLayer.init cls_MaxPool1DLayer inc pool_size stride pad
           ignore_border = Ok l ->
         Pool1DLayer.mode l = "max"%string
         /\ Pool1DLayer.ignore_border l = ignore_border)
  /\ (forall l x,
         MaxPool2DLayer.init cls_MaxPool2DLayer inc pool_size stride pad
           ignore_border = Ok l ->
         Pool2DLayer.mode l = "max"%string
         /\ Pool2DLayer.ignore_border l = ignore_border
         /\ Pool2DLayer.get_output_for l x
            = pool_2d x (Pool2DLayer.pool_size l) (Pool2DLayer.stride l)
                ignore_border (Pool2DLayer.pad l) "max").
Proof.
  split; [reflexivity | split; [reflexivity | split]].
  - intros l Hl.
    apply (Pool1DLayer_init_inv cls_MaxPool1DLayer) in Hl
      as (_ & _ & _ & _ & Hib & Hmode).
    now split.
  - intros l x Hl.
    apply (Pool2DLayer_init_inv cls_MaxPool2DLayer) in Hl
      as (_ & _ & _ & _ & Hib & Hmode).
    split; [assumption | split; [assumption |]].
    unfold Pool2DLayer.get_output_for. now rewrite Hib, Hmode.
Qed.

Lemma maxpool_is_pool_with_mode_max_witness :
  Pool2DLayer.get_output_for
    (Pool2DLayer.mk [None; Some 1; Some 4; Some 4] [2; 2] [2; 2] [0; 0] true
       "max")
    (mkTensor [1; 1; 2; 2]%nat [1; 5; 3; 2])
  = pool_2d (mkTensor [1; 1; 2; 2]%nat [1; 5; 3; 2]) [2; 2] [2; 2] true
      [0; 0] "max".
Proof.
  apply (proj2 (proj2 (proj2
           (maxpool_is_pool_with_mode_max
              (FromShape [None; Some 1; Some 4; Some 4]) (Scalar 2) None
              (Scalar 0) true)))
           (Pool2DLayer.mk [None; Some 1; Some 4; Some 4] [2; 2] [2; 2]
              [0; 0] true "max")
           (mkTensor [1; 1; 2; 2]%nat [1; 5; 3; 2]) eq_refl).
Defined.

(** X9: a pooling layer that its constructor has built, from whatever
    class, incoming layer and sizes, has an input shape of four (1D:
    three) entries, and its shape inference on that shape is defined
    whenever no stride is zero and either [ignore_border] holds or all
    padding is zero: the batch and channel entries are kept and a spatial
    entry is unknown exactly when the input's is. *)
Theorem constructed_pool_layer_has_output_shape (self_class : class_name)
    (inc : incoming) (pool_size : int_or_seq) (stride : option int_or_seq)
    (pad : int_or_seq) (ignore_border : bool) (mode : string) :
  (forall l,
      Pool2DLayer.init self_class inc pool_size stride pad ignore_border mode
      = Ok l ->
      Forall (fun st => st <> 0) (Pool2DLayer.stride l) ->
      ignore_border = true \/ Forall (fun p => p = 0) (Pool2DLayer.pad l) ->
      exists n c h w h' w',
        Pool2DLayer.input_shape l = [n; c; h; w]
        /\ Pool2DLayer.get_output_shape_for l (Pool2DLayer.input_shape l)
           = Ok [n; c; h'; w']
        /\ (h' = None <-> h = None) /\ (w' = None <-> w = None))
  /\ (forall l,
         Pool1DLayer.init self_class inc pool_size stride pad ignore_border
           mode = Ok l ->
         Forall (fun st => st <> 0) (Pool1DLayer.stride l) ->
         ignore_border = true \/ Forall (fun p => p = 0) (Pool1DLayer.pad l) ->
         exists n c h h',
           Pool1DLayer.input_shape l = [n; c; h]
           /\ Pool1DLayer.get_output_shape_for l (Pool1DLayer.input_shape l)
              = Ok [n; c; h']
           /\ (h' = None <-> h = None)).
Proof.
  split; intros l Hinit Hst Hpad.
  - apply Pool2DLayer_init_inv in Hinit as (Hs & Hps & Hstl & Hpd & Hib & _).
    destruct l as [s ps st pd ib md]. cbn in *. subst ib.
    apply length_4 in Hs as (n & c & h & w & ->).
    apply length_2 in Hps as (p0 & p1 & ->).
    apply length_2 in Hstl as (s0 & s1 & ->).
    apply length_2 in Hpd as (d0 & d1 & ->).
    inversion Hst as [| ? ? Hs0 Hst']; subst.
    inversion Hst' as [| ? ? Hs1 _]; subst.
    destruct (pool_output_length_defined h p0 s0 d0 ignore_border Hs0)
      as (h' & Hh & Hhn).
    { destruct Hpad as [| Hp]; [now left | right].
      now inversion Hp. }
    destruct (pool_output_length_defined w p1 s1 d1 ignore_border Hs1)
      as (w' & Hw & Hwn).
    { destruct Hpad as [| Hp]; [now left | right].
      inversion Hp as [| ? ? _ Hp']; subst. now inversion Hp'. }
    exists n, c, h, w, h', w'. split; [reflexivity |].
    split; [| now split].
    unfold Pool2DLayer.get_output_shape_for, pool_axis.
    cbn [Pool2DLayer.pool_size Pool2DLayer.stride Pool2DLayer.pad
         Pool2DLayer.ignore_border]. py_items.
    rewrite Hh. cbn [bind]. py_items. rewrite Hw. cbn [bind]. py_items.
    reflexivity.
  - apply Pool1DLayer_init_inv in Hinit as (Hs & Hps & Hstl & Hpd & Hib & _).
    destruct l as [s ps st pd ib md]. cbn in *. subst ib.
    apply length_3 in Hs as (n & c & h & ->).
    apply length_1 in Hps as (p0 & ->).
    apply length_1 in Hstl as (s0 & ->).
    apply length_1 in Hpd as (d0 & ->).
    inversion Hst as [| ? ? Hs0 _]; subst.
    destruct (pool_output_length_defined h p0 s0 d0 ignore_border Hs0)
      as (h' & Hh & Hhn).
    { destruct Hpad as [| Hp]; [now left | right].
      now inversion Hp. }
    exists n, c, h, h'. split; [reflexivity |]. split; [| assumption].
    unfold Pool1DLayer.get_output_shape_for, pool_axis.
    cbn [Pool1DLayer.pool_size Pool1DLayer.stride Pool1DLayer.pad
         Pool1DLayer.ignore_border]. py_items.
    rewrite Hh. cbn [bind]. py_items. reflexivity.
Qed.

Lemma constructed_pool_layer_has_output_shape_witness :
  exists n c h w h' w',
    [None; Some 3; Some 9; None] = [n; c; h; w]
    /\ Pool2DLayer.get_output_shape_for
         (Pool2DLayer.mk [None; Some 3; Some 9; None] [3; 3] [2; 2] [1; 1]
            true "max")
         [None; Some 3; Some 9; None] = Ok [n; c; h'; w']
    /\ (h' = None <-> h = None) /\ (w' = None <-> w = None).
Proof.
  apply (proj1 (constructed_pool_layer_has_output_shape cls_Pool2DLayer
                  (FromShape [None; Some 3; Some 9; None]) (Scalar 3)
                  (Some (Scalar 2)) (Scalar 1) true "max")
           (Pool2DLayer.mk [None; Some 3; Some 9; None] [3; 3] [2; 2] [1; 1]
              true "max") eq_refl).
  - repeat constructor; discriminate.
  - now left.
Defined.

(** ** Feature pooling *)

Lemma slice_to_nat {X : Type} (l : list X) (k : nat) :
  (k <= List.length l)%nat -> slice_to l (Z.of_nat k) = firstn k l.
Proof.
  intros Hk. unfold slice_to, slice_bound.
  destruct (Z.ltb_spec (Z.of_nat k) 0); [lia |]. f_equal. lia.
Qed.

Lemma slice_from_nat {X : Type} (l : list X) (k : nat) :
  (k <= List.length l)%nat -> slice_from l (Z.of_nat k) = skipn k l.
Proof.
  intros Hk. unfold slice_from, slice_bound.
  destruct (Z.ltb_spec (Z.of_nat k) 0); [lia |]. f_equal. lia.
Qed.

Lemma firstn_middle {X : Type} (A : list X) (R : list X) :
  firstn (List.length A) (A ++ R) = A.
Proof.
  rewrite firstn_app, firstn_all, Nat.sub_diag. cbn [firstn].
  apply app_nil_r.
Qed.

Lemma firstn_past {X : Type} (A : list X) (a : X) (R : list X) :
  firstn (S (List.length A)) (A ++ a :: R) = A ++ [a].
Proof.
  induction A as [| x A IH]; [reflexivity |].
  cbn [List.length app]. rewrite firstn_cons. now rewrite IH.
Qed.

Lemma skipn_past2 {X : Type} (A : list X) (a b : X) (B : list X) :
  skipn (S (S (List.length A))) (A ++ a :: b :: B) = B.
Proof. induction A as [| x A IH]; [reflexivity | exact IH]. Qed.

(** The value computation of the feature-pooling layer with a reduction
    [f] as pooling function: the output drops the group axis and holds
    [f] of each group of [pool_size] consecutive entries. *)
Lemma feature_pool_pointwise (f : list Z -> Z) (s : shape) (ps : Z)
    (x : tensor) (A B : list nat) (np : nat) :
  1 <= ps -> wf x -> tshape x = A ++ [np * Z.to_nat ps]%nat ++ B ->
  exists out,
    FeaturePoolLayer.get_output_for
      (FeaturePoolLayer.mk s ps (Z.of_nat (List.length A)) (reduce_axis f)) x
    = Ok out
    /\ wf out
    /\ tshape out = A ++ [np] ++ B
    /\ forall IA g IB,
         in_bounds IA A -> (g < np)%nat -> in_bounds IB B ->
         get out (IA ++ [g] ++ IB)
         = f (map (fun j => get x (IA ++ [g * Z.to_nat ps + j]%nat ++ IB))
                (seq 0 (Z.to_nat ps))).
Proof.
  intros Hps Hwf Hx. unfold FeaturePoolLayer.get_output_for.
  cbn [FeaturePoolLayer.axis FeaturePoolLayer.pool_size
       FeaturePoolLayer.pool_function].
  assert (Hrank : List.length (tshape x)
                  = (List.length A + 1 + List.length B)%nat).
  { rewrite Hx, length_app. cbn [List.length app]. lia. }
  assert (Hlen : List.length (tensor_shape x) = List.length (tshape x))
    by (unfold tensor_shape; apply length_map).
  rewrite (getitem_nat (tensor_shape x) (List.length A) 0) by lia.
  cbn [bind]. unfold tensor_shape at 1.
  rewrite (nth_indep _ 0 (Z.of_nat 0)) by (rewrite length_map; lia).
  rewrite map_nth, Hx. cbn [app]. rewrite nth_middle_nat.
  rewrite floordiv_pos by assumption.
  rewrite Nat2Z.inj_mul, Z2Nat.id, Z.div_mul by lia. cbn [bind].
  rewrite slice_to_nat by lia.
  replace (Z.of_nat (List.length A) + 1)
    with (Z.of_nat (S (List.length A))) by lia.
  rewrite slice_from_nat by lia.
  unfold tensor_shape. rewrite Hx, firstn_map, skipn_map. cbn [app].
  rewrite firstn_middle, skipn_past.
  replace (map Z.of_nat A ++ Z.of_nat np :: ps :: map Z.of_nat B)
    with (map Z.of_nat (A ++ [np; Z.to_nat ps] ++ B))
    by (rewrite !map_app; cbn [map app]; now rewrite Z2Nat.id by lia).
  rewrite reshape_to
    by (rewrite size_of_split; unfold wf in Hwf; now rewrite Hwf, Hx).
  cbn [bind]. unfold reduce_axis. cbn [tshape].
  rewrite norm_index_nat by (rewrite length_app; cbn [List.length app]; lia).
  cbn [bind app]. rewrite firstn_past, skipn_past2, nth_app_second.
  eexists. split; [reflexivity |]. split; [apply wf_tabulate |].
  split; [cbn [tshape tabulate]; now rewrite <- app_assoc |].
  intros IA g IB HIA Hg HIB.
  assert (HlenA : List.length IA = List.length A)
    by apply (Forall2_length HIA).
  rewrite get_tabulate
    by (rewrite <- app_assoc;
        apply (in_bounds_middle IA A IB B [g] [np]); try assumption; bounds).
  f_equal. apply map_ext. intros j.
  rewrite <- HlenA. cbn [app]. rewrite firstn_past, skipn_past.
  unfold get. cbn [tshape tdata]. rewrite Hx, <- app_assoc. cbn [app].
  change (ravel (A ++ np :: Z.to_nat ps :: B) (IA ++ g :: j :: IB))
    with (ravel (A ++ [np; Z.to_nat ps] ++ B) (IA ++ [g; j] ++ IB)).
  now rewrite ravel_split by assumption.
Qed.

Lemma FeaturePoolLayer_init_known (x : tensor) (ps : Z) (A B : list nat)
    (np : nat) (pf : tensor -> Z -> result tensor) :
  1 <= ps -> tshape x = A ++ [np * Z.to_nat ps]%nat ++ B ->
  FeaturePoolLayer.init cls_FeaturePoolLayer (FromShape (shape_of x)) ps
    (Z.of_nat (List.length A)) pf
  = Ok (FeaturePoolLayer.mk (shape_of x) ps (Z.of_nat (List.length A)) pf).
Proof.
  intros Hps Hx. unfold FeaturePoolLayer.init. super_ok.
  rewrite (getitem_nat (shape_of x) (List.length A) (Some (Z.of_nat 0)))
    by (unfold shape_of; rewrite length_map, Hx, length_app;
        cbn [List.length app]; lia).
  unfold shape_of at 1.
  rewrite (map_nth (fun d => Some (Z.of_nat d))), Hx. cbn [app].
  rewrite nth_middle_nat. cbn [bind].
  rewrite pymod_nonzero by lia.
  rewrite Nat2Z.inj_mul, Z2Nat.id, Z.mod_mul by lia. reflexivity.
Qed.

Lemma feature_pool_shape (s : shape) (ps : Z) (A B : list nat) (np : nat)
    (pf : tensor -> Z -> result tensor) (x out : tensor) :
  1 <= ps -> tshape x = A ++ [np * Z.to_nat ps]%nat ++ B ->
  tshape out = A ++ [np] ++ B ->
  FeaturePoolLayer.get_output_shape_for
    (FeaturePoolLayer.mk s ps (Z.of_nat (List.length A)) pf) (shape_of x)
  = Ok (shape_of out).
Proof.
  intros Hps Hx Hout. unfold FeaturePoolLayer.get_output_shape_for.
  cbn [FeaturePoolLayer.axis FeaturePoolLayer.pool_size].
  assert (Hl : List.length (shape_of x)
               = (List.length A + 1 + List.length B)%nat).
  { unfold shape_of. rewrite length_map, Hx, length_app.
    cbn [List.length app]. lia. }
  rewrite (getitem_nat (shape_of x) (List.length A) (Some (Z.of_nat 0)))
    by lia.
  unfold shape_of at 1.
  rewrite (map_nth (fun d => Some (Z.of_nat d))), Hx. cbn [app bind].
  rewrite nth_middle_nat.
  rewrite floordiv_pos by assumption.
  rewrite Nat2Z.inj_mul, Z2Nat.id, Z.div_mul by lia. cbn [bind].
  rewrite (setitem_at _ _ (List.length A))
    by (apply norm_index_nat; lia).
  unfold shape_of. rewrite Hx, Hout, firstn_map, skipn_map.
  cbn [app]. rewrite firstn_middle, skipn_past.
  now rewrite map_app.
Qed.

(** X10: for every input whose size along a non-negative target axis is a
    multiple of [pool_size >= 1], the feature-pooling layer with a
    reduction [f] as pooling function can be built, and its output holds
    at each position [f] of the group of [pool_size] consecutive entries
    along the axis; the output's shape is the input's with the axis
    divided by [pool_size], and it is the shape that shape inference
    returns. *)
Theorem FeaturePoolLayer_reduces_groups (f : list Z -> Z) (ps : Z)
    (x : tensor) (A B : list nat) (np : nat) :
  1 <= ps -> wf x -> tshape x = A ++ [np * Z.to_nat ps]%nat ++ B ->
  exists self out,
    FeaturePoolLayer.init cls_FeaturePoolLayer (FromShape (shape_of x)) ps
      (Z.of_nat (List.length A)) (reduce_axis f) = Ok self
    /\ FeaturePoolLayer.get_output_for self x = Ok out
    /\ tshape out = A ++ [np] ++ B
    /\ FeaturePoolLayer.get_output_shape_for self (shape_of x)
       = Ok (shape_of out)
    /\ forall IA g IB,
         in_bounds IA A -> (g < np)%nat -> in_bounds IB B ->
         get out (IA ++ [g] ++ IB)
         = f (map (fun j => get x (IA ++ [g * Z.to_nat ps + j]%nat ++ IB))
                (seq 0 (Z.to_nat ps))).
Proof.
  intros Hps Hwf Hx.
  destruct (feature_pool_pointwise f (shape_of x) ps x A B np Hps Hwf Hx)
    as (out & Hout & _ & Hshape & Hget).
  exists (FeaturePoolLayer.mk (shape_of x) ps (Z.of_nat (List.length A))
            (reduce_axis f)), out.
  split; [now apply (FeaturePoolLayer_init_known x ps A B np) |].
  split; [exact Hout |]. split; [exact Hshape |].
  split; [now apply (feature_pool_shape _ ps A B np _ x out) | exact Hget].
Qed.

Lemma FeaturePoolLayer_reduces_groups_witness :
  exists self out,
    FeaturePoolLayer.init cls_FeaturePoolLayer
      (FromShape (shape_of (mkTensor [2; 4; 2]%nat
         [1; 5; 3; 5; 0; 0; -1; -2; 7; 2; 9; 9; -3; -1; -1; -5]))) 2
      (Z.of_nat (List.length [2%nat])) (reduce_axis list_max) = Ok self
    /\ FeaturePoolLayer.get_output_for self
         (mkTensor [2; 4; 2]%nat
            [1; 5; 3; 5; 0; 0; -1; -2; 7; 2; 9; 9; -3; -1; -1; -5]) = Ok out
    /\ tshape out = [2; 2; 2]%nat.
Proof.
  destruct (FeaturePoolLayer_reduces_groups list_max 2
              (mkTensor [2; 4; 2]%nat
                 [1; 5; 3; 5; 0; 0; -1; -2; 7; 2; 9; 9; -3; -1; -1; -5])
              [2%nat] [2%nat] 2%nat ltac:(lia) eq_refl eq_refl)
    as (self & out & H1 & H2 & H3 & _).
  exists self, out. auto.
Defined.

Lemma wta_output_wf (s : shape) (ps : Z) (x : tensor) (A B : list nat)
    (np : nat) (out : tensor) :
  1 <= ps -> wf x -> tshape x = A ++ [np * Z.to_nat ps]%nat ++ B ->
  FeatureWTALayer.get_output_for
    (FeatureWTALayer.mk s ps (Z.of_nat (List.length A))) x = Ok out ->
  wf out.
Proof.
  intros Hps Hwf Hx.
  pose proof (wta_closed_form s ps x A B np Hps Hwf Hx) as Hout.
  cbv zeta in Hout. rewrite Hout. intros [= <-]. apply wf_tabulate.
Qed.

Lemma fold_max_spec (l : list Z) :
  forall acc,
    acc <= fold_left Z.max l acc
    /\ (forall k, (k < List.length l)%nat -> nth k l 0 <= fold_left Z.max l acc)
    /\ (fold_left Z.max l acc = acc
        \/ exists k, (k < List.length l)%nat
                     /\ fold_left Z.max l acc = nth k l 0).
Proof.
  induction l as [| x l IH]; intros acc; cbn [fold_left List.length].
  - split; [lia |]. split; [intros k Hk; lia | now left].
  - destruct (IH (Z.max acc x)) as (H1 & H2 & H3).
    split; [lia |]. split.
    + intros [| k] Hk; cbn [nth]; [lia | apply H2; lia].
    + destruct H3 as [H3 | (k & Hk & H3)].
      * destruct (Z.max_spec acc x) as [[_ E] | [_ E]].
        -- right. exists 0%nat. split; [lia | cbn [nth]; congruence].
        -- left. congruence.
      * right. exists (S k). split; [lia | exact H3].
Qed.

(** The maximum of a non-empty list is its entry at the index the
    arg-max scan returns. *)
Lemma list_max_argmax (l : list Z) :
  l <> [] -> list_max l = nth (argmax_list l) l 0.
Proof.
  intros Hl. destruct (argmax_list_first_max l Hl) as (Hm & Hall & _).
  destruct l as [| x l]; [congruence |]. cbn [list_max].
  destruct (fold_max_spec l x) as (H1 & H2 & H3).
  assert (Hup : forall k, (k < List.length (x :: l))%nat ->
                  nth k (x :: l) 0 <= fold_left Z.max l x).
  { intros [| k] Hk; cbn [nth]; [exact H1 |].
    apply H2. cbn [List.length] in Hk. lia. }
  specialize (Hup _ Hm).
  assert (Hin : exists k, (k < List.length (x :: l))%nat
                          /\ fold_left Z.max l x = nth k (x :: l) 0).
  { destruct H3 as [H3 | (k & Hk & H3)].
    - exists 0%nat. cbn [List.length nth]. split; [lia | exact H3].
    - exists (S k). cbn [List.length nth]. split; [lia | exact H3]. }
  destruct Hin as (k & Hk & E). specialize (Hall k Hk). lia.
Qed.

Lemma fold_add_shift (l : list Z) :
  forall acc, fold_left Z.add l acc = acc + fold_left Z.add l 0.
Proof.
  induction l as [| x l IH]; intros acc; cbn [fold_left]; [lia |].
  rewrite (IH (acc + x)), (IH (0 + x)). lia.
Qed.

(** The sum of a list that is zero except at one index is the entry at
    that index. *)
Lemma list_sum_one_hot (g : nat -> Z) (m n : nat) :
  forall i, (i <= m < i + n)%nat ->
    list_sum (map (fun j => if (j =? m)%nat then g j else 0) (seq i n))
    = g m.
Proof.
  assert (Hz : forall n i, (m < i)%nat ->
             list_sum (map (fun j => if (j =? m)%nat then g j else 0)
                         (seq i n)) = 0).
  { clear n. induction n as [| n IH]; intros i Hi; [reflexivity |].
    unfold list_sum in *. cbn [seq map fold_left].
    destruct (Nat.eqb_spec i m); [lia |]. change (0 + 0) with 0.
    apply IH. lia. }
  induction n as [| n IH]; intros i Hi; [lia |].
  unfold list_sum in *. cbn [seq map fold_left].
  destruct (Nat.eqb_spec i m) as [-> | Hne].
  - rewrite fold_add_shift, Hz by lia. lia.
  - change (0 + 0) with 0. apply IH. lia.
Qed.

Lemma in_bounds_split (I A B : list nat) (np : nat) :
  in_bounds I (A ++ [np] ++ B) ->
  exists IA g IB,
    I = IA ++ [g] ++ IB /\ in_bounds IA A /\ (g < np)%nat /\ in_bounds IB B.
Proof.
  intros H. apply Forall2_app_inv_r in H as (IA & R & HIA & HR & ->).
  inversion HR as [| g ? IB ? Hg HIB]; subst.
  exists IA, g, IB. auto.
Qed.

(** On floating-point entries the product with the mask zeroes a losing
    entry only when it is finite: for the group [[1.0; -inf]] the
    winner-take-all output is [[1.0; NaN]], whose sum is NaN although
    the maximum of the group is [1.0]. *)
Lemma masked_infinity_is_not_zero :
  Float64.mul Float64.neg_infinity (Float64.of_Z 0) = Float64.nan
  /\ Float64.mul Float64.nan (Float64.of_Z 0) = Float64.nan
  /\ Float64.sum [Float64.mul (Float64.of_Z 1) (Float64.of_Z 1);
                  Float64.mul Float64.neg_infinity (Float64.of_Z 0)]
     = Float64.nan
  /\ Float64.max [Float64.of_Z 1; Float64.neg_infinity] = Float64.of_Z 1.
Proof. vm_compute. repeat split; reflexivity. Qed.

(** X11: on tensors of integers, the winner-take-all layer followed by
    feature pooling with a sum over the same groups computes max feature
    pooling: the only entry a group keeps is its maximum.  For every such
    input whose size along a non-negative axis is a multiple of
    [pool_size >= 1]. *)
Theorem wta_then_sum_is_max (ps : Z) (x : tensor) (A B : list nat)
    (np : nat) :
  1 <= ps -> wf x -> tshape x = A ++ [np * Z.to_nat ps]%nat ++ B ->
  let axis := Z.of_nat (List.length A) in
  exists wta sumpool maxpool y out,
    FeatureWTALayer.init cls_FeatureWTALayer (FromShape (shape_of x)) ps axis
    = Ok wta
    /\ FeaturePoolLayer.init cls_FeaturePoolLayer (FromShape (shape_of x)) ps
         axis (reduce_axis list_sum) = Ok sumpool
    /\ FeaturePoolLayer.init cls_FeaturePoolLayer (FromShape (shape_of x)) ps
         axis (reduce_axis list_max) = Ok maxpool
    /\ FeatureWTALayer.get_output_for wta x = Ok y
    /\ FeaturePoolLayer.get_output_for sumpool y = Ok out
    /\ FeaturePoolLayer.get_output_for maxpool x = Ok out.
Proof.
  intros Hps Hwf Hx axis. subst axis.
  destruct (wta_pointwise (shape_of x) ps x A B np Hps Hwf Hx)
    as (y & Hy & Hyshape & Hyget).
  pose proof (wta_output_wf _ ps x A B np y Hps Hwf Hx Hy) as Hywf.
  rewrite Hx in Hyshape.
  destruct (feature_pool_pointwise list_sum (shape_of x) ps y A B np
              Hps Hywf Hyshape) as (o1 & Ho1 & Hwf1 & Hs1 & Hg1).
  destruct (feature_pool_pointwise list_max (shape_of x) ps x A B np
              Hps Hwf Hx) as (o2 & Ho2 & Hwf2 & Hs2 & Hg2).
  exists (FeatureWTALayer.mk (shape_of x) ps (Z.of_nat (List.length A))),
    (FeaturePoolLayer.mk (shape_of x) ps (Z.of_nat (List.length A))
       (reduce_axis list_sum)),
    (FeaturePoolLayer.mk (shape_of x) ps (Z.of_nat (List.length A))
       (reduce_axis list_max)),
    y, o2.
  split; [now apply (FeatureWTALayer_init_known x ps A B np) |].
  split; [now apply (FeaturePoolLayer_init_known x ps A B np) |].
  split; [now apply (FeaturePoolLayer_init_known x ps A B np) |].
  split; [exact Hy |]. split; [| exact Ho2].
  rewrite Ho1. f_equal.
  apply tensor_ext; [assumption .. | congruence |].
  intros I HI. rewrite Hs1 in HI.
  apply in_bounds_split in HI as (IA & g & IB & -> & HIA & Hg & HIB).
  rewrite Hg1, Hg2 by assumption.
  set (group := map (fun j => get x (IA ++ [g * Z.to_nat ps + j]%nat ++ IB))
                  (seq 0 (Z.to_nat ps))).
  assert (Hne : group <> []).
  { subst group. destruct (Z.to_nat ps) eqn:E; [lia | discriminate]. }
  assert (Hlen : List.length group = Z.to_nat ps)
    by (subst group; now rewrite length_map, length_seq).
  destruct (argmax_list_first_max group Hne) as (Hm & _).
  rewrite Hlen in Hm.
  rewrite (list_max_argmax group Hne).
  assert (Hnth : nth (argmax_list group) group 0
                 = get x (IA ++ [g * Z.to_nat ps + argmax_list group]%nat
                             ++ IB)).
  { subst group.
    rewrite (nth_indep _ 0 (get x (IA ++ [g * Z.to_nat ps + 0]%nat ++ IB)))
      by (rewrite length_map, length_seq; exact Hm).
    rewrite (map_nth (fun j => get x (IA ++ [g * Z.to_nat ps + j]%nat ++ IB))).
    now rewrite seq_nth by exact Hm. }
  rewrite Hnth. symmetry.
  etransitivity;
    [symmetry;
     apply (list_sum_one_hot
              (fun j => get x (IA ++ [g * Z.to_nat ps + j]%nat ++ IB))
              (argmax_list group) (Z.to_nat ps) 0); lia |].
  f_equal. apply map_ext_in. intros j Hj. apply in_seq in Hj.
  symmetry. apply Hyget; assumption || lia.
Qed.

Lemma wta_then_sum_is_max_witness :
  exists wta sumpool maxpool y out,
    FeatureWTALayer.init cls_FeatureWTALayer
      (FromShape (shape_of (mkTensor [1; 4]%nat [-3; -2; 4; 4]))) 2
      (Z.of_nat (List.length [1%nat])) = Ok wta
    /\ FeaturePoolLayer.init cls_FeaturePoolLayer
         (FromShape (shape_of (mkTensor [1; 4]%nat [-3; -2; 4; 4]))) 2
         (Z.of_nat (List.length [1%nat])) (reduce_axis list_sum) = Ok sumpool
    /\ FeaturePoolLayer.init cls_FeaturePoolLayer
         (FromShape (shape_of (mkTensor [1; 4]%nat [-3; -2; 4; 4]))) 2
         (Z.of_nat (List.length [1%nat])) (reduce_axis list_max) = Ok maxpool
    /\ FeatureWTALayer.get_output_for wta
         (mkTensor [1; 4]%nat [-3; -2; 4; 4]) = Ok y
    /\ FeaturePoolLayer.get_output_for sumpool y = Ok out
    /\ FeaturePoolLayer.get_output_for maxpool
         (mkTensor [1; 4]%nat [-3; -2; 4; 4]) = Ok out.
Proof.
  apply (wta_then_sum_is_max 2 (mkTensor [1; 4]%nat [-3; -2; 4; 4])
           [1%nat] [] 2%nat ltac:(lia) eq_refl eq_refl).
Defined.

(** ** Negative axes *)

Lemma norm_index_last (len : nat) :
  norm_index (S len) (-1) = Ok len.
Proof.
  unfold norm_index. change (0 <=? -1) with false.
  change (-1 <? 0) with true. cbn [andb].
  destruct (Z.leb_spec (- Z.of_nat (S len)) (-1)); [| lia].
  cbn [andb]. f_equal. lia.
Qed.

Lemma getitem_last {X : Type} (A : list X) (a : X) :
  getitem (A ++ [a]) (-1) = Ok a.
Proof.
  apply (getitem_at _ _ (List.length A)).
  - rewrite length_app, Nat.add_comm. apply norm_index_last.
  - now rewrite nth_error_app2, Nat.sub_diag by lia.
Qed.

Lemma setitem_last {X : Type} (A : list X) (a v : X) :
  setitem (A ++ [a]) (-1) v = Ok (A ++ [v]).
Proof.
  rewrite (setitem_at _ _ (List.length A))
    by (rewrite length_app, Nat.add_comm; apply norm_index_last).
  rewrite firstn_middle.
  change (A ++ [a]) with (A ++ a :: []). now rewrite skipn_past.
Qed.

Lemma slice_to_last {X : Type} (A : list X) (a : X) :
  slice_to (A ++ [a]) (-1) = A.
Proof.
  unfold slice_to, slice_bound. change (-1 <? 0) with true. cbv iota.
  rewrite length_app. cbn [List.length].
  replace (Z.to_nat _) with (List.length A) by lia.
  apply firstn_middle.
Qed.

Lemma reshape_size_mismatch (t : tensor) (new : list nat) :
  size_of new <> List.length (tdata t) ->
  reshape t (map Z.of_nat new)
  = Raise (ValueError "total size of new array must be unchanged").
Proof.
  intros Hsize. unfold reshape.
  assert (Hid : map Z.to_nat (map Z.of_nat new) = new).
  { rewrite map_map. rewrite <- (map_id new) at 2. apply map_ext.
    intros d. apply Nat2Z.id. }
  rewrite Hid. apply Nat.eqb_neq in Hsize. rewrite Hsize.
  now rewrite andb_false_r.
Qed.

(** X12: the last axis addressed as [axis=-1].  Both feature layers can be
    built and shape inference divides the last entry, but the value
    computations fail: [axis + 1] is [0], so [input_shape[axis+1:]] and
    [range(axis + 1, input.ndim)] run over all the axes, the pool shape
    has too many entries, and the reshape is rejected.  For every
    non-empty input whose last axis has a size of at least 2 that is a
    multiple of [pool_size >= 1]. *)
Theorem feature_layers_axis_minus_one (ps : Z) (x : tensor) (A : list nat)
    (np : nat) (pool_function : tensor -> Z -> result tensor) :
  1 <= ps -> wf x -> tshape x = A ++ [np * Z.to_nat ps]%nat ->
  (1 <= size_of (tshape x))%nat -> (2 <= np * Z.to_nat ps)%nat ->
  exists pool wta,
    FeaturePoolLayer.init cls_FeaturePoolLayer (FromShape (shape_of x)) ps
      (-1) pool_function = Ok pool
    /\ FeatureWTALayer.init cls_FeatureWTALayer (FromShape (shape_of x)) ps
         (-1) = Ok wta
    /\ FeaturePoolLayer.get_output_shape_for pool (shape_of x)
       = Ok (map (fun d => Some (Z.of_nat d)) (A ++ [np]))
    /\ (exists msg,
          FeaturePoolLayer.get_output_for pool x = Raise (ValueError msg))
    /\ (exists msg,
          FeatureWTALayer.get_output_for wta x = Raise (ValueError msg)).
Proof.
  intros Hps Hwf Hx Hsize Hn.
  exists (FeaturePoolLayer.mk (shape_of x) ps (-1) pool_function),
    (FeatureWTALayer.mk (shape_of x) ps (-1)).
  assert (Hsh : shape_of x
                = map (fun d => Some (Z.of_nat d)) A
                  ++ [Some (Z.of_nat np * ps)]).
  { unfold shape_of. rewrite Hx, map_app. cbn [map].
    now rewrite Nat2Z.inj_mul, Z2Nat.id by lia. }
  assert (Hts : tensor_shape x = map Z.of_nat A ++ [Z.of_nat np * ps]).
  { unfold tensor_shape. rewrite Hx, map_app. cbn [map].
    now rewrite Nat2Z.inj_mul, Z2Nat.id by lia. }
  assert (Hdata : List.length (tdata x)
                  = (size_of A * (np * Z.to_nat ps))%nat).
  { unfold wf in Hwf. rewrite Hwf, Hx, size_of_app. unfold size_of.
    cbn [fold_right]. lia. }
  assert (HsA : (1 <= size_of A)%nat).
  { rewrite Hx, size_of_app in Hsize. destruct (size_of A); [| lia].
    cbn in Hsize. lia. }
  split; [| split; [| split; [| split]]].
  - unfold FeaturePoolLayer.init. super_ok.
    rewrite Hsh at 1. rewrite getitem_last. cbn [bind].
    rewrite pymod_nonzero, Z.mod_mul by lia. reflexivity.
  - unfold FeatureWTALayer.init. super_ok.
    rewrite Hsh at 1. rewrite getitem_last. cbn [bind].
    rewrite pymod_nonzero, Z.mod_mul by lia. reflexivity.
  - unfold FeaturePoolLayer.get_output_shape_for.
    cbn [FeaturePoolLayer.axis FeaturePoolLayer.pool_size].
    rewrite Hsh, getitem_last. cbn [bind].
    rewrite floordiv_pos, Z.div_mul by lia. cbn [bind].
    rewrite setitem_last. now rewrite map_app.
  - eexists. unfold FeaturePoolLayer.get_output_for.
    cbn [FeaturePoolLayer.axis FeaturePoolLayer.pool_size].
    rewrite Hts, getitem_last. cbn [bind].
    rewrite floordiv_pos, Z.div_mul by lia. cbn [bind].
    rewrite slice_to_last. change (-1 + 1) with (Z.of_nat 0).
    rewrite slice_from_nat by lia. cbn [skipn].
    replace (map Z.of_nat A ++ [Z.of_nat np; ps]
             ++ map Z.of_nat A ++ [Z.of_nat np * ps])
      with (map Z.of_nat (A ++ [np; Z.to_nat ps]
                            ++ A ++ [np * Z.to_nat ps]%nat))
      by (rewrite !map_app; cbn [map];
          now rewrite Nat2Z.inj_mul, Z2Nat.id by lia).
    rewrite reshape_size_mismatch; [reflexivity |].
    rewrite Hdata, !size_of_app. unfold size_of at 2 4.
    cbn [fold_right]. nia.
  - eexists. unfold FeatureWTALayer.get_output_for.
    cbn [FeatureWTALayer.axis FeatureWTALayer.pool_size].
    rewrite Hts at 1. rewrite getitem_last. cbn [bind].
    rewrite floordiv_pos, Z.div_mul by lia. cbn [bind].
    change (range 0 (-1)) with (@nil Z). cbn [for_each bind app].
    change (-1 + 1) with (Z.of_nat 0). unfold ndim.
    change (List.length (tshape x)) with (0 + List.length (tshape x))%nat.
    rewrite range_nat, copy_loop by (cbn [Nat.add]; lia).
    cbn [Nat.add skipn bind]. rewrite firstn_all.
    replace ([Z.of_nat np; ps] ++ map Z.of_nat (tshape x))
      with (map Z.of_nat ([np; Z.to_nat ps] ++ tshape x))
      by (rewrite !map_app; cbn [map]; now rewrite Z2Nat.id by lia).
    rewrite reshape_size_mismatch; [reflexivity |].
    rewrite size_of_app. unfold wf in Hwf. rewrite Hwf.
    unfold size_of at 1. cbn [fold_right]. nia.
Qed.

Lemma feature_layers_axis_minus_one_witness :
  exists pool wta,
    FeaturePoolLayer.init cls_FeaturePoolLayer
      (FromShape (shape_of (mkTensor [2; 4]%nat [1; 2; 3; 4; 5; 6; 7; 8])))
      2 (-1) (reduce_axis list_max) = Ok pool
    /\ FeatureWTALayer.init cls_FeatureWTALayer
         (FromShape (shape_of (mkTensor [2; 4]%nat [1; 2; 3; 4; 5; 6; 7; 8])))
         2 (-1) = Ok wta
    /\ (exists msg,
          FeaturePoolLayer.get_output_for pool
            (mkTensor [2; 4]%nat [1; 2; 3; 4; 5; 6; 7; 8])
          = Raise (ValueError msg))
    /\ (exists msg,
          FeatureWTALayer.get_output_for wta
            (mkTensor [2; 4]%nat [1; 2; 3; 4; 5; 6; 7; 8])
          = Raise (ValueError msg)).
Proof.
  destruct (feature_layers_axis_minus_one 2
              (mkTensor [2; 4]%nat [1; 2; 3; 4; 5; 6; 7; 8]) [2%nat] 2%nat
              (reduce_axis list_max) ltac:(lia) eq_refl eq_refl
              ltac:(vm_compute; lia) ltac:(vm_compute; lia))
    as (pool & wta & H1 & H2 & _ & H4 & H5).
  exists pool, wta. auto.
Defined.

(** X13: the middle axis of a 3D input addressed as [axis=-2].  The layer
    can be built, the reshape splits the right axis, but [axis + 1] is
    [-1] and the pooling function is applied along the trailing axis
    instead of the groups: the output has shape [(n, np, pool_size)] and
    holds [f] of the entries along the last input axis, while shape
    inference announces [(n, np, d)]. *)
Theorem FeaturePoolLayer_axis_minus_two (f : list Z -> Z) (ps : Z)
    (x : tensor) (n np d : nat) :
  1 <= ps -> wf x -> tshape x = [n; np * Z.to_nat ps; d]%nat ->
  exists pool out,
    FeaturePoolLayer.init cls_FeaturePoolLayer (FromShape (shape_of x)) ps
      (-2) (reduce_axis f) = Ok pool
    /\ FeaturePoolLayer.get_output_shape_for pool (shape_of x)
       = Ok [Some (Z.of_nat n); Some (Z.of_nat np); Some (Z.of_nat d)]
    /\ FeaturePoolLayer.get_output_for pool x = Ok out
    /\ tshape out = [n; np; Z.to_nat ps]
    /\ forall i g j,
         (i < n)%nat -> (g < np)%nat -> (j < Z.to_nat ps)%nat ->
         get out [i; g; j]
         = f (map (fun k => get x [i; g * Z.to_nat ps + j; k]%nat)
                (seq 0 d)).
Proof.
  intros Hps Hwf Hx.
  exists (FeaturePoolLayer.mk (shape_of x) ps (-2) (reduce_axis f)).
  assert (Hsh : shape_of x
                = [Some (Z.of_nat n); Some (Z.of_nat np * ps);
                   Some (Z.of_nat d)]).
  { unfold shape_of. rewrite Hx. cbn [map].
    now rewrite Nat2Z.inj_mul, Z2Nat.id by lia. }
  assert (Hts : tensor_shape x
                = [Z.of_nat n; Z.of_nat np * ps; Z.of_nat d]).
  { unfold tensor_shape. rewrite Hx. cbn [map].
    now rewrite Nat2Z.inj_mul, Z2Nat.id by lia. }
  unfold FeaturePoolLayer.get_output_for.
  cbn [FeaturePoolLayer.axis FeaturePoolLayer.pool_size
       FeaturePoolLayer.pool_function].
  rewrite Hts. py_items.
  rewrite floordiv_pos, Z.div_mul by lia. cbn [bind].
  change (slice_to [Z.of_nat n; Z.of_nat np * ps; Z.of_nat d] (-2))
    with [Z.of_nat n].
  change (slice_from [Z.of_nat n; Z.of_nat np * ps; Z.of_nat d] (-2 + 1))
    with [Z.of_nat d].
  cbn [app].
  replace [Z.of_nat n; Z.of_nat np; ps; Z.of_nat d]
    with (map Z.of_nat [n; np; Z.to_nat ps; d])
    by (cbn [map]; now rewrite Z2Nat.id by lia).
  rewrite reshape_to
    by (unfold wf in Hwf; rewrite Hwf, Hx; unfold size_of; cbn [fold_right];
        lia).
  cbn [bind]. unfold reduce_axis. cbn [tshape List.length].
  change (norm_index 4 (-2 + 1)) with (Ok 3%nat).
  cbn [bind firstn skipn app nth].
  eexists. split; [| split; [| split; [reflexivity | split;
                                       [reflexivity |]]]].
  - unfold FeaturePoolLayer.init. super_ok. rewrite Hsh. py_items.
    rewrite pymod_nonzero, Z.mod_mul by lia. reflexivity.
  - unfold FeaturePoolLayer.get_output_shape_for.
    cbn [FeaturePoolLayer.axis FeaturePoolLayer.pool_size]. rewrite Hsh.
    py_items. rewrite floordiv_pos, Z.div_mul by lia. cbn [bind]. py_items.
    reflexivity.
  - intros i g j Hi Hg Hj. rewrite get_tabulate by bounds.
    cbn [firstn skipn app]. f_equal. apply map_ext. intros k.
    unfold get. cbn [tshape tdata]. rewrite Hx.
    cbn [ravel]. unfold size_of. cbn [fold_right]. f_equal. lia.
Qed.

Lemma FeaturePoolLayer_axis_minus_two_witness :
  exists pool out,
    FeaturePoolLayer.init cls_FeaturePoolLayer
      (FromShape (shape_of (mkTensor [1; 2; 3]%nat [1; 2; 3; 4; 5; 6]))) 2
      (-2) (reduce_axis list_max) = Ok pool
    /\ FeaturePoolLayer.get_output_shape_for pool
         (shape_of (mkTensor [1; 2; 3]%nat [1; 2; 3; 4; 5; 6]))
       = Ok [Some 1; Some 1; Some 3]
    /\ FeaturePoolLayer.get_output_for pool
         (mkTensor [1; 2; 3]%nat [1; 2; 3; 4; 5; 6]) = Ok out
    /\ tshape out = [1; 1; 2]%nat.
Proof.
  destruct (FeaturePoolLayer_axis_minus_two list_max 2
              (mkTensor [1; 2; 3]%nat [1; 2; 3; 4; 5; 6]) 1%nat 1%nat 3%nat
              ltac:(lia) eq_refl eq_refl)
    as (pool & out & H1 & H2 & H3 & H4 & _).
  exists pool, out. auto.
Defined.

(** ** Pooling single entries *)




(** ** The constructor invariant of feature pooling *)

Lemma getitem_inv {X : Type} (l : list X) (i : Z) (x : X) :
  getitem l i = Ok x ->
  exists k, norm_index (List.length l) i = Ok k /\ nth_error l k = Some x.
Proof.
  unfold getitem. destruct (norm_index (List.length l) i) as [k | e];
    cbn [bind]; [| discriminate].
  destruct (nth_error l k) as [y |] eqn:E; [| discriminate].
  intros [= <-]. now exists k.
Qed.

(** Writing an entry that can be read: the length is kept and the entry
    reads back. *)
Lemma setitem_getitem {X : Type} (l : list X) (i : Z) (x v : X) :
  getitem l i = Ok x ->
  exists l',
    setitem l i v = Ok l'
    /\ List.length l' = List.length l
    /\ getitem l' i = Ok v.
Proof.
  intros H. apply getitem_inv in H as (k & Hk & Hx).
  assert (Hlt : (k < List.length l)%nat) by (apply nth_error_Some; congruence).
  exists (firstn k l ++ v :: skipn (S k) l).
  assert (Hlen : List.length (firstn k l ++ v :: skipn (S k) l)
                 = List.length l).
  { rewrite length_app, length_firstn. cbn [List.length].
    rewrite length_skipn. lia. }
  split; [now apply setitem_at |]. split; [exact Hlen |].
  apply (getitem_at _ _ k); [now rewrite Hlen |].
  rewrite nth_error_app2 by (rewrite length_firstn; lia).
  rewrite length_firstn, Nat.min_l, Nat.sub_diag by lia. reflexivity.
Qed.

(** X15: what a successfully built feature-pooling layer guarantees,
    whatever the class, the incoming layer and the axis (negative
    included): the pool size is non-zero, the input's size [n] along the
    axis is known and an exact multiple of the pool size, and shape
    inference on the layer's own input shape is defined, keeps the rank
    and puts [n // pool_size] on the axis. *)
Theorem FeaturePoolLayer_init_invariant (self_class : class_name)
    (inc : incoming) (pool_size axis : Z)
    (pool_function : tensor -> Z -> result tensor) (l : FeaturePoolLayer.t) :
  FeaturePoolLayer.init self_class inc pool_size axis pool_function = Ok l ->
  FeaturePoolLayer.pool_size l = pool_size
  /\ FeaturePoolLayer.axis l = axis
  /\ pool_size <> 0
  /\ exists n s',
       getitem (FeaturePoolLayer.input_shape l) axis = Ok (Some n)
       /\ (n / pool_size) * pool_size = n
       /\ FeaturePoolLayer.get_output_shape_for l
            (FeaturePoolLayer.input_shape l) = Ok s'
       /\ List.length s' = List.length (FeaturePoolLayer.input_shape l)
       /\ getitem s' axis = Ok (Some (n / pool_size)).
Proof.
  unfold FeaturePoolLayer.init, super_init.
  destruct (issubclass self_class cls_FeaturePoolLayer); [| discriminate].
  assert (H : forall s,
             (num_feature_maps <- getitem s axis ;;
              match num_feature_maps with
              | None => Raise TypeError
              | Some n =>
                  r <- pymod n pool_size ;;
                  if negb (r =? 0)
                  then Raise (FeaturePoolLayer.multiple_error n pool_size)
                  else Ok (FeaturePoolLayer.mk s pool_size axis pool_function)
              end) = Ok l ->
             FeaturePoolLayer.pool_size l = pool_size
             /\ FeaturePoolLayer.axis l = axis
             /\ pool_size <> 0
             /\ exists n s',
                  getitem (FeaturePoolLayer.input_shape l) axis = Ok (Some n)
                  /\ (n / pool_size) * pool_size = n
                  /\ FeaturePoolLayer.get_output_shape_for l
                       (FeaturePoolLayer.input_shape l) = Ok s'
                  /\ List.length s'
                     = List.length (FeaturePoolLayer.input_shape l)
                  /\ getitem s' axis = Ok (Some (n / pool_size))).
  { intros s. destruct (getitem s axis) as [[n |] | e] eqn:Hget;
      cbn [bind]; try discriminate.
    unfold pymod. destruct (Z.eqb_spec pool_size 0) as [| Hps];
      cbn [bind]; [discriminate |].
    destruct (Z.eqb_spec (n mod pool_size) 0) as [Hmod |]; cbn [negb];
      [| discriminate].
    intros [= <-]. cbn [FeaturePoolLayer.pool_size FeaturePoolLayer.axis
                        FeaturePoolLayer.input_shape].
    split; [reflexivity |]. split; [reflexivity |]. split; [assumption |].
    destruct (setitem_getitem s axis (Some n) (Some (n / pool_size)) Hget)
      as (s' & Hset & Hlen & Hread).
    exists n, s'. split; [exact Hget |]. split.
    - pose proof (Z.div_mod n pool_size Hps). lia.
    - unfold FeaturePoolLayer.get_output_shape_for.
      cbn [FeaturePoolLayer.pool_size FeaturePoolLayer.axis].
      rewrite Hget. cbn [bind]. unfold floordiv.
      destruct (Z.eqb_spec pool_size 0); [contradiction |]. cbn [bind].
      auto. }
  destruct inc as [s | s]; cbn [Layer_init bind]; apply H.
Qed.

Lemma FeaturePoolLayer_init_invariant_witness :
  exists n s',
    getitem [None; Some 6; Some 5] (-2) = Ok (Some n)
    /\ (n / 3) * 3 = n
    /\ FeaturePoolLayer.get_output_shape_for
         (FeaturePoolLayer.mk [None; Some 6; Some 5] 3 (-2)
            (reduce_axis list_max))
         [None; Some 6; Some 5] = Ok s'
    /\ List.length s' = 3%nat
    /\ getitem s' (-2) = Ok (Some (n / 3)).
Proof.
  exact (proj2 (proj2 (proj2
           (FeaturePoolLayer_init_invariant cls_FeaturePoolLayer
              (FromShape [None; Some 6; Some 5]) 3 (-2)
              (reduce_axis list_max)
              (FeaturePoolLayer.mk [None; Some 6; Some 5] 3 (-2)
                 (reduce_axis list_max))
              eq_refl)))).
Defined.

(** ** Upscaling in repeat mode *)

(** One step of the repeat mode: [if k > 1: upscaled = repeat(upscaled, k,
    axis)], for a known axis and [k >= 1]. *)
Lemma repeat_step (t : tensor) (k axis : Z) (ax : nat) :
  1 <= k -> norm_index (List.length (tshape t)) axis = Ok ax ->
  (if k >? 1 then repeat_t t k axis else Ok t)
  = Ok (if k >? 1
        then tabulate
               (upd (tshape t) ax (nth ax (tshape t) 0 * Z.to_nat k)%nat)
               (fun I => get t (upd I ax (nth ax I 0 / Z.to_nat k)%nat))
        else t).
Proof.
  intros Hk Hax. destruct (k >? 1); [| reflexivity].
  apply repeat_t_axis; [assumption | lia].
Qed.

Lemma div_lt_scaled (p d : nat) (m : Z) :
  1 <= m -> (p < d * Z.to_nat m)%nat -> (p / Z.to_nat m < d)%nat.
Proof. intros Hm Hp. apply Nat.Div0.div_lt_upper_bound. lia. Qed.

Lemma Upscale3DLayer_repeat (s : shape) (a b c : Z) (x : tensor)
    (n k h w d : nat) :
  1 <= a -> 1 <= b -> 1 <= c -> tshape x = [n; k; h; w; d] -> wf x ->
  exists up,
    Upscale3DLayer.get_output_for
      (Upscale3DLayer.mk s [a; b; c] "repeat") x = Ok up
    /\ wf up
    /\ tshape up
       = [n; k; h * Z.to_nat a; w * Z.to_nat b; d * Z.to_nat c]%nat
    /\ forall i j p q r,
         (i < n)%nat -> (j < k)%nat -> (p < h * Z.to_nat a)%nat ->
         (q < w * Z.to_nat b)%nat -> (r < d * Z.to_nat c)%nat ->
         get up [i; j; p; q; r]
         = get x [i; j; (p / Z.to_nat a)%nat; (q / Z.to_nat b)%nat;
                  (r / Z.to_nat c)%nat].
Proof.
  intros Ha Hb Hc Hx Hwf.
  unfold Upscale3DLayer.get_output_for.
  cbn [Upscale3DLayer.scale_factor Upscale3DLayer.mode].
  change (String.eqb "repeat" "repeat") with true. cbv iota.
  rewrite (repeat_step x c 4 4 Hc) by now rewrite Hx.
  cbn [bind].
  set (u1 := if c >? 1 then _ else x).
  assert (H1 : wf u1 /\ tshape u1 = [n; k; h; w; d * Z.to_nat c]%nat
               /\ forall i j p q r,
                    (i < n)%nat -> (j < k)%nat -> (p < h)%nat ->
                    (q < w)%nat -> (r < d * Z.to_nat c)%nat ->
                    get u1 [i; j; p; q; r]
                    = get x [i; j; p; q; (r / Z.to_nat c)%nat]).
  { subst u1. destruct (Z.gtb_spec c 1) as [Hc1 | Hc1].
    - split; [apply wf_tabulate |]. rewrite Hx. cbn [upd nth tshape tabulate].
      split; [reflexivity |]. intros i j p q r Hi Hj Hp Hq Hr.
      rewrite get_tabulate by bounds. reflexivity.
    - assert (c = 1) by lia. subst c. change (Z.to_nat 1) with 1%nat.
      rewrite Nat.mul_1_r. split; [assumption |]. split; [assumption |].
      intros i j p q r _ _ _ _ _. now rewrite Nat.div_1_r. }
  clearbody u1. destruct H1 as (Hwf1 & Hs1 & Hg1).
  rewrite (repeat_step u1 b 3 3 Hb) by now rewrite Hs1.
  cbn [bind].
  set (u2 := if b >? 1 then _ else u1).
  assert (H2 : wf u2
               /\ tshape u2
                  = [n; k; h; w * Z.to_nat b; d * Z.to_nat c]%nat
               /\ forall i j p q r,
                    (i < n)%nat -> (j < k)%nat -> (p < h)%nat ->
                    (q < w * Z.to_nat b)%nat -> (r < d * Z.to_nat c)%nat ->
                    get u2 [i; j; p; q; r]
                    = get x [i; j; p; (q / Z.to_nat b)%nat;
                             (r / Z.to_nat c)%nat]).
  { subst u2. destruct (Z.gtb_spec b 1) as [Hb1 | Hb1].
    - split; [apply wf_tabulate |]. rewrite Hs1.
      cbn [upd nth tshape tabulate].
      split; [reflexivity |]. intros i j p q r Hi Hj Hp Hq Hr.
      rewrite get_tabulate by bounds. cbn [upd nth].
      apply Hg1; try assumption. now apply div_lt_scaled.
    - assert (b = 1) by lia. subst b. change (Z.to_nat 1) with 1%nat.
      rewrite Nat.mul_1_r. split; [assumption |]. split; [assumption |].
      intros i j p q r Hi Hj Hp Hq Hr. rewrite Nat.div_1_r.
      apply Hg1; assumption. }
  clearbody u2. destruct H2 as (Hwf2 & Hs2 & Hg2).
  rewrite (repeat_step u2 a 2 2 Ha) by now rewrite Hs2.
  eexists. split; [reflexivity |].
  destruct (Z.gtb_spec a 1) as [Ha1 | Ha1].
  - split; [apply wf_tabulate |]. rewrite Hs2.
    cbn [upd nth tshape tabulate].
    split; [reflexivity |]. intros i j p q r Hi Hj Hp Hq Hr.
    rewrite get_tabulate by bounds. cbn [upd nth].
    apply Hg2; try assumption. now apply div_lt_scaled.
  - assert (a = 1) by lia. subst a. change (Z.to_nat 1) with 1%nat.
    rewrite Nat.mul_1_r. split; [assumption |]. split; [assumption |].
    intros i j p q r Hi Hj Hp Hq Hr. rewrite Nat.div_1_r.
    apply Hg2; assumption.
Qed.

(** X16: in repeat mode with scale factors of at least 1, each upscaling
    layer can be built and returns a tensor whose spatial sizes are the
    input's times the scale factors and whose entry at [(.., p, q, ..)]
    is the input's at [(.., p // a, q // b, ..)]; the shape of the output
    is the one shape inference returns.  For the 1D, 2D and 3D layers. *)
Theorem upscale_repeat_copies (s : shape) (a b c : Z) :
  1 <= a -> 1 <= b -> 1 <= c ->
  (forall x n k h,
      tshape x = [n; k; h] -> wf x ->
      exists self out,
        Upscale1DLayer.init cls_Upscale1DLayer (FromShape s) (Scalar a)
          "repeat" = Ok self
        /\ Upscale1DLayer.get_output_for self x = Ok out
        /\ Upscale1DLayer.get_output_shape_for self (shape_of x)
           = Ok (shape_of out)
        /\ tshape out = [n; k; h * Z.to_nat a]%nat
        /\ forall i j p,
             (i < n)%nat -> (j < k)%nat -> (p < h * Z.to_nat a)%nat ->
             get out [i; j; p] = get x [i; j; (p / Z.to_nat a)%nat])
  /\ (forall x n k h w,
         tshape x = [n; k; h; w] -> wf x ->
         exists self out,
           Upscale2DLayer.init cls_Upscale2DLayer (FromShape s)
             (Seq [a; b]) "repeat" = Ok self
           /\ Upscale2DLayer.get_output_for self x = Ok out
           /\ Upscale2DLayer.get_output_shape_for self (shape_of x)
              = Ok (shape_of out)
           /\ tshape out = [n; k; h * Z.to_nat a; w * Z.to_nat b]%nat
           /\ forall i j p q,
                (i < n)%nat -> (j < k)%nat ->
                (p < h * Z.to_nat a)%nat -> (q < w * Z.to_nat b)%nat ->
                get out [i; j; p; q]
                = get x [i; j; (p / Z.to_nat a)%nat; (q / Z.to_nat b)%nat])
  /\ (forall x n k h w d,
         tshape x = [n; k; h; w; d] -> wf x ->
         exists self out,
           Upscale3DLayer.init cls_Upscale3DLayer (FromShape s)
             (Seq [a; b; c]) "repeat" = Ok self
           /\ Upscale3DLayer.get_output_for self x = Ok out
           /\ Upscale3DLayer.get_output_shape_for self (shape_of x)
              = Ok (shape_of out)
           /\ tshape out
              = [n; k; h * Z.to_nat a; w * Z.to_nat b; d * Z.to_nat c]%nat
           /\ forall i j p q r,
                (i < n)%nat -> (j < k)%nat -> (p < h * Z.to_nat a)%nat ->
                (q < w * Z.to_nat b)%nat -> (r < d * Z.to_nat c)%nat ->
                get out [i; j; p; q; r]
                = get x [i; j; (p / Z.to_nat a)%nat; (q / Z.to_nat b)%nat;
                         (r / Z.to_nat c)%nat]).
Proof.
  intros Ha Hb Hc. split; [| split].
  - intros x n k h Hx Hwf.
    destruct (Upscale1DLayer_repeat s a x n k h Ha Hx Hwf)
      as (up & Hup & _ & Hs & Hg).
    exists (Upscale1DLayer.mk s [a] "repeat"), up.
    split; [apply Upscale1DLayer_init_ok; [assumption | reflexivity] |].
    split; [exact Hup |]. split; [| split; assumption].
    unfold Upscale1DLayer.get_output_shape_for, scale_axis, shape_of.
    rewrite Hx, Hs. cbn [map Upscale1DLayer.scale_factor]. py_items.
    now rewrite Nat2Z.inj_mul, Z2Nat.id by lia.
  - intros x n k h w Hx Hwf.
    destruct (Upscale2DLayer_repeat s a b x n k h w Ha Hb Hx Hwf)
      as (up & Hup & _ & Hs & Hg).
    exists (Upscale2DLayer.mk s [a; b] "repeat"), up.
    split; [apply Upscale2DLayer_init_ok; [assumption .. | reflexivity] |].
    split; [exact Hup |]. split; [| split; assumption].
    unfold Upscale2DLayer.get_output_shape_for, scale_axis, shape_of.
    rewrite Hx, Hs. cbn [map Upscale2DLayer.scale_factor]. py_items.
    now rewrite !Nat2Z.inj_mul, !Z2Nat.id by lia.
  - intros x n k h w d Hx Hwf.
    destruct (Upscale3DLayer_repeat s a b c x n k h w d Ha Hb Hc Hx Hwf)
      as (up & Hup & _ & Hs & Hg).
    exists (Upscale3DLayer.mk s [a; b; c] "repeat"), up.
    split; [apply Upscale3DLayer_init_ok; [assumption .. | reflexivity] |].
    split; [exact Hup |]. split; [| split; assumption].
    unfold Upscale3DLayer.get_output_shape_for, scale_axis, shape_of.
    rewrite Hx, Hs. cbn [map Upscale3DLayer.scale_factor]. py_items.
    now rewrite !Nat2Z.inj_mul, !Z2Nat.id by lia.
Qed.

Lemma upscale_repeat_copies_witness :
  exists self out,
    Upscale3DLayer.init cls_Upscale3DLayer
      (FromShape [None; Some 1; Some 1; Some 1; Some 2]) (Seq [1; 2; 3])
      "repeat" = Ok self
    /\ Upscale3DLayer.get_output_for self
         (mkTensor [1; 1; 1; 1; 2]%nat [4; 9]) = Ok out
    /\ tshape out = [1; 1; 1; 2; 6]%nat.
Proof.
  destruct (proj2 (proj2 (upscale_repeat_copies
                            [None; Some 1; Some 1; Some 1; Some 2] 1 2 3
                            ltac:(lia) ltac:(lia) ltac:(lia)))
              (mkTensor [1; 1; 1; 1; 2]%nat [4; 9])
              1%nat 1%nat 1%nat 1%nat 2%nat eq_refl eq_refl)
    as (self & out & H1 & H2 & _ & H4 & _).
  exists self, out. auto.
Defined.

(** ** Shape inference of the upscaling layers *)

(** [scale_axis] on an axis that exists: an unknown size stays unknown, a
    known one is multiplied, and the other entries are kept. *)
Lemma scale_axis_at (pre : shape) (d : option Z) (post : shape)
    (scale_factor : list Z) (i : nat) (a : Z) :
  nth_error scale_factor i = Some a ->
  scale_axis (pre ++ d :: post) (Z.of_nat (List.length pre)) scale_factor
    (Z.of_nat i)
  = Ok (pre ++ option_map (fun v => v * a) d :: post).
Proof.
  intros Ha. unfold scale_axis.
  rewrite (getitem_nat (pre ++ d :: post) (List.length pre) None)
    by (rewrite length_app; cbn [List.length]; lia).
  rewrite nth_middle_nat. cbn [bind].
  destruct d as [v |]; [| reflexivity].
  assert (Hi : (i < List.length scale_factor)%nat)
    by (apply nth_error_Some; congruence).
  rewrite (getitem_nat scale_factor i 0 Hi).
  rewrite (nth_error_nth _ _ 0 Ha). cbn [bind option_map].
  rewrite (setitem_at _ _ (List.length pre))
    by (apply norm_index_nat; rewrite length_app; cbn [List.length]; lia).
  rewrite firstn_app, firstn_all, Nat.sub_diag. cbn [firstn].
  rewrite app_nil_r. now rewrite skipn_past.
Qed.

Lemma scale_axis_out_of_range (sh : shape) (k : nat) (scale_factor : list Z)
    (i : Z) :
  (List.length sh <= k)%nat ->
  scale_axis sh (Z.of_nat k) scale_factor i = Raise IndexError.
Proof.
  intros Hk. unfold scale_axis, getitem, norm_index.
  destruct (Z.ltb_spec (Z.of_nat k) (Z.of_nat (List.length sh))); [lia |].
  rewrite andb_false_r.
  destruct (Z.ltb_spec (Z.of_nat k) 0); [lia |].
  now rewrite andb_false_r.
Qed.

(** X17: shape inference of the upscaling layers checks neither the rank
    nor the mode.  On a shape with at least the expected number of
    entries the spatial entries are multiplied by their scale factors, an
    unknown entry stays unknown and every other entry, extra trailing
    ones included, is kept; on a shorter shape it fails with an index
    error. *)
Theorem upscale_shape_inference_unchecked (s : shape) (mode : string)
    (a b c : Z) :
  let scaled := fun (k : Z) (d : option Z) => option_map (fun v => v * k) d in
  (forall n k h rest,
      Upscale1DLayer.get_output_shape_for (Upscale1DLayer.mk s [a] mode)
        (n :: k :: h :: rest)
      = Ok (n :: k :: scaled a h :: rest))
  /\ (forall sh, (List.length sh < 3)%nat ->
        Upscale1DLayer.get_output_shape_for (Upscale1DLayer.mk s [a] mode) sh
        = Raise IndexError)
  /\ (forall n k h w rest,
        Upscale2DLayer.get_output_shape_for
          (Upscale2DLayer.mk s [a; b] mode) (n :: k :: h :: w :: rest)
        = Ok (n :: k :: scaled a h :: scaled b w :: rest))
  /\ (forall sh, (List.length sh < 4)%nat ->
        Upscale2DLayer.get_output_shape_for
          (Upscale2DLayer.mk s [a; b] mode) sh
        = Raise IndexError)
  /\ (forall n k h w d rest,
        Upscale3DLayer.get_output_shape_for
          (Upscale3DLayer.mk s [a; b; c] mode) (n :: k :: h :: w :: d :: rest)
        = Ok (n :: k :: scaled a h :: scaled b w :: scaled c d :: rest))
  /\ (forall sh, (List.length sh < 5)%nat ->
        Upscale3DLayer.get_output_shape_for
          (Upscale3DLayer.mk s [a; b; c] mode) sh
        = Raise IndexError).
Proof.
  intros scaled.
  assert (S2 : forall n k h rest sf i iz x,
             iz = Z.of_nat i -> nth_error sf i = Some x ->
             scale_axis (n :: k :: h :: rest) 2 sf iz
             = Ok (n :: k :: scaled x h :: rest)).
  { intros; subst. now apply (scale_axis_at [n; k] h rest sf i x). }
  assert (S3 : forall n k h w rest sf i iz x,
             iz = Z.of_nat i -> nth_error sf i = Some x ->
             scale_axis (n :: k :: h :: w :: rest) 3 sf iz
             = Ok (n :: k :: h :: scaled x w :: rest)).
  { intros; subst. now apply (scale_axis_at [n; k; h] w rest sf i x). }
  assert (S4 : forall n k h w d rest sf i iz x,
             iz = Z.of_nat i -> nth_error sf i = Some x ->
             scale_axis (n :: k :: h :: w :: d :: rest) 4 sf iz
             = Ok (n :: k :: h :: w :: scaled x d :: rest)).
  { intros; subst. now apply (scale_axis_at [n; k; h; w] d rest sf i x). }
  assert (E2 : forall sh sf i, (List.length sh <= 2)%nat ->
             scale_axis sh 2 sf i = Raise IndexError).
  { intros. now apply (scale_axis_out_of_range sh 2). }
  assert (E3 : forall sh sf i, (List.length sh <= 3)%nat ->
             scale_axis sh 3 sf i = Raise IndexError).
  { intros. now apply (scale_axis_out_of_range sh 3). }
  assert (E4 : forall sh sf i, (List.length sh <= 4)%nat ->
             scale_axis sh 4 sf i = Raise IndexError).
  { intros. now apply (scale_axis_out_of_range sh 4). }
  unfold Upscale1DLayer.get_output_shape_for,
    Upscale2DLayer.get_output_shape_for, Upscale3DLayer.get_output_shape_for.
  cbn [Upscale1DLayer.scale_factor Upscale2DLayer.scale_factor
       Upscale3DLayer.scale_factor].
  split; [| split; [| split; [| split; [| split]]]].
  - intros n k h rest. now apply (S2 n k h rest [a] 0%nat 0 a).
  - intros sh Hsh. apply E2. lia.
  - intros n k h w rest.
    rewrite (S2 n k h (w :: rest) [a; b] 0%nat 0 a eq_refl eq_refl). cbn [bind].
    now apply (S3 n k (scaled a h) w rest [a; b] 1%nat 1 b).
  - intros sh Hsh.
    destruct sh as [| n [| k [| h sh]]];
      try (rewrite E2 by (cbn [List.length]; lia); reflexivity).
    rewrite (S2 n k h sh [a; b] 0%nat 0 a eq_refl eq_refl). cbn [bind].
    apply E3. cbn [List.length] in *. lia.
  - intros n k h w d rest.
    rewrite (S2 n k h (w :: d :: rest) [a; b; c] 0%nat 0 a eq_refl eq_refl).
    cbn [bind].
    rewrite (S3 n k (scaled a h) w (d :: rest) [a; b; c] 1%nat 1 b eq_refl
               eq_refl).
    cbn [bind].
    now apply (S4 n k (scaled a h) (scaled b w) d rest [a; b; c] 2%nat 2 c).
  - intros sh Hsh.
    destruct sh as [| n [| k [| h sh]]];
      try (rewrite E2 by (cbn [List.length]; lia); reflexivity).
    rewrite (S2 n k h sh [a; b; c] 0%nat 0 a eq_refl eq_refl). cbn [bind].
    destruct sh as [| w sh];
      [rewrite E3 by (cbn [List.length]; lia); reflexivity |].
    rewrite (S3 n k (scaled a h) w sh [a; b; c] 1%nat 1 b eq_refl eq_refl).
    cbn [bind]. apply E4. cbn [List.length] in *. lia.
Qed.

Lemma upscale_shape_inference_unchecked_witness :
  Upscale2DLayer.get_output_shape_for
    (Upscale2DLayer.mk [None; Some 3; Some 4; None] [2; 3] "repeat")
    [None; Some 3; Some 4]
  = Raise IndexError.
Proof.
  apply (proj1 (proj2 (proj2 (proj2
           (upscale_shape_inference_unchecked
              [None; Some 3; Some 4; None] "repeat" 2 3 1))))).
  cbn [List.length]. lia.
Defined.

(** ** Global pooling of inputs of low rank *)

(** X18: the global pooling layer does not check the rank of its input.
    The constructor accepts every shape and shape inference returns a
    shape of at most two entries unchanged, but the value computation
    flattens to three dimensions and fails on an input with fewer than
    three. *)
Theorem GlobalPoolLayer_rank_unchecked (s : shape)
    (pool_function : tensor -> Z -> result tensor) (x : tensor) :
  GlobalPoolLayer.init cls_GlobalPoolLayer (FromShape s) pool_function
  = Ok (GlobalPoolLayer.mk s pool_function)
  /\ ((List.length s <= 2)%nat ->
      GlobalPoolLayer.get_output_shape_for
        (GlobalPoolLayer.mk s pool_function) s = s)
  /\ ((List.length (tshape x) < 3)%nat ->
      exists msg,
        GlobalPoolLayer.get_output_for
          (GlobalPoolLayer.mk s pool_function) x = Raise (ValueError msg)).
Proof.
  split; [reflexivity | split].
  - intros Hs. unfold GlobalPoolLayer.get_output_shape_for.
    now apply firstn_all2.
  - intros Hx. unfold GlobalPoolLayer.get_output_for, flatten.
    destruct (Nat.leb_spec 3 (List.length (tshape x))); [lia |].
    cbn [Nat.leb andb bind]. eexists. reflexivity.
Qed.

Lemma GlobalPoolLayer_rank_unchecked_witness :
  GlobalPoolLayer.get_output_shape_for
    (GlobalPoolLayer.mk [None; Some 7] (reduce_axis list_sum))
    [None; Some 7] = [None; Some 7]
  /\ exists msg,
       GlobalPoolLayer.get_output_for
         (GlobalPoolLayer.mk [None; Some 7] (reduce_axis list_sum))
         (mkTensor [1; 2]%nat [3; 4]) = Raise (ValueError msg).
Proof.
  destruct (GlobalPoolLayer_rank_unchecked [None; Some 7]
              (reduce_axis list_sum) (mkTensor [1; 2]%nat [3; 4]))
    as (_ & H1 & H2).
  split; [apply H1; cbn [List.length]; lia
         | apply H2; cbn [List.length tshape]; lia].
Defined.
